(** * PyFstat: the parameter-space segmentation and exploration engine

    A shallow embedding of the search classes of [pyfstat.py]:

    - [BaseSearchClass]: the coefficient shift transform;
    - [SemiCoherentGlitchSearch]: the glitch segmentation evaluator;
    - [MCMCSearch] and [MCMCGlitchSearch]: parameter packing, the prior
      kernel and the extraction of the maximum-statistic sample;
    - [GridSearch]: the enumeration of the parameter grid.

    Conventions of the embedding.

    - Floating-point numbers are modelled by real numbers ([R]); the
      non-finite values are explicit constructors of [fval] where the code
      tests for them or can produce them.  The arrays of the grid are the
      exception: numpy takes their length from a quotient that the code
      stretches by a factor of the size of the rounding, so there the
      numbers are the binary64 values themselves.
    - Python exceptions are values of [pyexc]; a call either returns,
      raises, or has not returned ([Unfinished]).
    - A Python [dict] is an association list with distinct keys, in the
      order in which the dictionary is iterated.
    - The detection statistic of lalpulsar is an arbitrary function of the
      arguments it is handed; every call to it is logged. *)

From Stdlib Require Import String Ascii Reals Lra Lia ZArith Bool.
From Stdlib Require Import List Permutation Sorted.
From Stdlib Require PrimFloat FloatOps SpecFloat Uint63.
Import ListNotations.

Set Implicit Arguments.
Set Warnings "-inexact-float".

(** ** Outcomes of a Python call *)

Inductive pyexc : Type :=
| ValueError_type (key : string)
    (* 'Type {} of {} in theta not recognised' *)
| ValueError_index (key : string)
    (* list.index(key): key is not in the list *)
| ValueError_missing (keys : list string)
    (* 'Input dictionary `theta` is missing the following keys: {}' *)
| ValueError_distribution
    (* 'Print unrecognise distribution' *)
| ValueError_empty
    (* nanargmax of an empty sequence *)
| ValueError_broadcast
    (* operands could not be broadcast together *)
| KeyError (key : string)
| IndexError
| TypeError
| ZeroDivisionError
| ArangeLengthError
    (* np.arange cannot compute its length, or the length is not a C
       integer: a ValueError or an OverflowError, by the version *)
| ValueError_ragged
    (* np.array of a ragged list: 'setting an array element with a
       sequence' *).

Inductive outcome (A : Type) : Type :=
| Return (a : A)
| Raise (e : pyexc)
| Unfinished.

Arguments Return {A} a.
Arguments Raise {A} e.
Arguments Unfinished {A}.

Definition bind {A B : Type} (m : outcome A) (k : A -> outcome B)
  : outcome B :=
  match m with
  | Return a => k a
  | Raise e => Raise e
  | Unfinished => Unfinished
  end.

Declare Scope py_scope.
Delimit Scope py_scope with py.
Notation "x <- m ;; k" := (bind m (fun x => k))
  (at level 61, m at next level, right associativity) : py_scope.
Notation "' p <- m ;; k" := (bind m (fun p => k))
  (at level 61, p pattern, m at next level, right associativity) : py_scope.


Fixpoint mapM {A B : Type} (f : A -> outcome B) (l : list A)
  : outcome (list B) :=
  match l with
  | [] => Return []
  | a :: l' =>
      bind (f a) (fun b => bind (mapM f l') (fun bs => Return (b :: bs)))
  end.

(** ** Python lists *)

Module PyList.

(** [l[i]] for a non-negative index. *)
Definition get {A : Type} (l : list A) (i : nat) : outcome A :=
  match nth_error l i with
  | Some a => Return a
  | None => Raise IndexError
  end.

(** The bounds of a slice: a negative index counts from the end, and the
    result is clamped to the list. *)
Definition clamp (len k : Z) : Z :=
  if (k <? 0)%Z then Z.max 0 (k + len) else Z.min k len.

(** [l[lo:hi]] *)
Definition slice {A : Type} (lo hi : Z) (l : list A) : list A :=
  let len := Z.of_nat (List.length l) in
  let a := clamp len lo in
  let b := clamp len hi in
  firstn (Z.to_nat (b - a)) (skipn (Z.to_nat a) l).

(** [l[lo:]] *)
Definition slice_from {A : Type} (lo : Z) (l : list A) : list A :=
  skipn (Z.to_nat (clamp (Z.of_nat (List.length l)) lo)) l.

(** [l.index(key)] *)
Fixpoint index (key : string) (l : list string) : outcome nat :=
  match l with
  | [] => Raise (ValueError_index key)
  | k :: l' =>
      if String.eqb key k then Return 0%nat
      else bind (index key l') (fun i => Return (S i))
  end.

(** [l.pop(i)] keeps every element but the one at position [i]. *)
Fixpoint remove_at {A : Type} (i : nat) (l : list A) : list A :=
  match l, i with
  | [], _ => []
  | _ :: l', O => l'
  | a :: l', S i' => a :: remove_at i' l'
  end.

(** [l.pop(l.index(key))], the list that is left. *)
Definition pop_key (key : string) (l : list string)
  : outcome (list string) :=
  bind (index key l) (fun i => Return (remove_at i l)).

(** [for i in range(n): l.pop(l.index(key))] *)
Fixpoint pop_key_times (n : nat) (key : string) (l : list string)
  : outcome (list string) :=
  match n with
  | O => Return l
  | S n' => bind (pop_key key l) (pop_key_times n' key)
  end.

(** [key in l] *)
Definition mem (key : string) (l : list string) : bool :=
  existsb (String.eqb key) l.

(** [l[i] = v] for a non-negative index. *)
Fixpoint set_item {A : Type} (l : list A) (i : nat) (v : A)
  : outcome (list A) :=
  match l, i with
  | [], _ => Raise IndexError
  | _ :: l', O => Return (v :: l')
  | a :: l', S i' => bind (set_item l' i' v) (fun r => Return (a :: r))
  end.

End PyList.

(** ** Python dictionaries *)

Module PyDict.

Definition t (V : Type) : Type := list (string * V).

Fixpoint get {V : Type} (key : string) (d : t V) : outcome V :=
  match d with
  | [] => Raise (KeyError key)
  | (k, v) :: d' => if String.eqb key k then Return v else get key d'
  end.

(** [d[key] = v]: an existing key keeps its place, a new key is added. *)
Fixpoint set {V : Type} (key : string) (v : V) (d : t V) : t V :=
  match d with
  | [] => [(key, v)]
  | (k, w) :: d' =>
      if String.eqb key k then (k, v) :: d' else (k, w) :: set key v d'
  end.

Definition keys {V : Type} (d : t V) : list string := map fst d.

Definition mem {V : Type} (key : string) (d : t V) : bool :=
  PyList.mem key (keys d).

Definition wf {V : Type} (d : t V) : Prop := NoDup (keys d).

End PyDict.

(** ** Floating-point values with the non-finite cases *)

Inductive fval : Type :=
| Fin (x : R)
| PosInf
| NegInf
| NaN.

Module Float.

Open Scope R_scope.

Definition Reqb (x y : R) : bool := if Req_dec_T x y then true else false.
Definition Rltb (x y : R) : bool := if Rlt_dec x y then true else false.
Definition Rleb (x y : R) : bool := if Rle_dec x y then true else false.

Definition isfinite (a : fval) : bool :=
  match a with Fin _ => true | _ => false end.

Definition isnan (a : fval) : bool :=
  match a with NaN => true | _ => false end.

Definition add (a b : fval) : fval :=
  match a, b with
  | NaN, _ | _, NaN => NaN
  | Fin x, Fin y => Fin (x + y)
  | PosInf, NegInf | NegInf, PosInf => NaN
  | PosInf, _ | _, PosInf => PosInf
  | NegInf, _ | _, NegInf => NegInf
  end.

Definition opp (a : fval) : fval :=
  match a with
  | Fin x => Fin (- x)
  | PosInf => NegInf
  | NegInf => PosInf
  | NaN => NaN
  end.

Definition sub (a b : fval) : fval := add a (opp b).

(** Division of numpy scalars: a zero divisor gives an infinity or a NaN,
    never an exception.  The sign of a zero is not modelled: a zero
    divisor counts as positive. *)
Definition div (a b : fval) : fval :=
  match a, b with
  | NaN, _ | _, NaN => NaN
  | Fin x, Fin y =>
      if Reqb y 0 then
        if Reqb x 0 then NaN else if Rltb 0 x then PosInf else NegInf
      else Fin (x / y)
  | Fin _, _ => Fin 0
  | _, Fin y => if Rltb y 0 then opp a else a
  | _, _ => NaN
  end.

Definition abs (a : fval) : fval :=
  match a with
  | Fin x => Fin (Rabs x)
  | PosInf | NegInf => PosInf
  | NaN => NaN
  end.

(** [a < b] *)
Definition lt (a b : fval) : bool :=
  match a, b with
  | NaN, _ | _, NaN => false
  | Fin x, Fin y => Rltb x y
  | NegInf, NegInf => false
  | NegInf, _ => true
  | _, PosInf => match a with PosInf => false | _ => true end
  | _, _ => false
  end.

(** [np.sum] *)
Definition sum (l : list fval) : fval := fold_left add l (Fin 0).

Definition Rsum (l : list R) : R := fold_left Rplus l 0.

(** [np.std]: the population standard deviation, NaN on an empty array. *)
Definition std (l : list R) : fval :=
  match l with
  | [] => NaN
  | _ =>
      let n := INR (List.length l) in
      let mean := Rsum l / n in
      Fin (sqrt (Rsum (map (fun x => (x - mean) * (x - mean)) l) / n))
  end.

End Float.

(** ** numpy arrays of rank one *)

Module Np.

Local Open Scope R_scope.

(** [a + b] when one operand at least is an array: element by element,
    an operand of length one being broadcast. *)
Definition add (a b : list R) : outcome (list R) :=
  if Nat.eqb (List.length a) (List.length b) then
    Return (map (fun p => fst p + snd p) (combine a b))
  else if Nat.eqb (List.length a) 1 then
    Return (map (fun y => hd 0 a + y) b)
  else if Nat.eqb (List.length b) 1 then
    Return (map (fun x => x + hd 0 b) a)
  else Raise ValueError_broadcast.

(** [np.dot] of two vectors *)
Fixpoint dot (row v : list R) : R :=
  match row, v with
  | a :: row', b :: v' => a * b + dot row' v'
  | _, _ => 0
  end.

(** [np.sort] *)
Fixpoint insert (x : R) (l : list R) : list R :=
  match l with
  | [] => [x]
  | y :: l' => if Float.Rleb x y then x :: l else y :: insert x l'
  end.

Definition sort (l : list R) : list R := fold_right insert [] l.

(** [np.array_equal] *)
Fixpoint array_equal (a b : list R) : bool :=
  match a, b with
  | [], [] => true
  | x :: a', y :: b' => Float.Reqb x y && array_equal a' b'
  | _, _ => false
  end.

(** [np.diff] *)
Fixpoint diff (l : list R) : list R :=
  match l with
  | x :: ((y :: _) as l') => (y - x) :: diff l'
  | _ => []
  end.

(** [np.argsort] of an array of indices: the positions of the elements in
    increasing order of the elements.  Equal elements keep their order;
    where the code sorts parallel lists with it, equal indices carry equal
    keys, so the order chosen among them does not show. *)
Fixpoint insert_by_fst (p : nat * nat) (l : list (nat * nat))
  : list (nat * nat) :=
  match l with
  | [] => [p]
  | q :: l' =>
      if Nat.leb (fst p) (fst q) then p :: l else q :: insert_by_fst p l'
  end.

Definition sort_by_fst (l : list (nat * nat)) : list (nat * nat) :=
  fold_right insert_by_fst [] l.

Definition argsort (l : list nat) : list nat :=
  map snd (sort_by_fst (combine l (seq 0 (List.length l)))).

(** [a[mask]] for a boolean array [mask].  numpy up to 1.12 accepts a mask
    whose length differs from the array's (with a deprecation warning) and
    pairs the two from the start; later versions raise [IndexError].
    [strict] selects the later behaviour. *)
Definition select {A : Type} (strict : bool) (mask : list bool) (a : list A)
  : outcome (list A) :=
  if strict && negb (Nat.eqb (List.length mask) (List.length a)) then
    Raise IndexError
  else
    Return (map snd (filter (fun p => fst p) (combine mask a))).

(** [np.median]: the middle of the sorted values, the mean of the two
    middle ones when they are even in number, NaN on an empty array. *)
Definition median (l : list R) : fval :=
  let s := sort l in
  let n := List.length s in
  match n with
  | O => NaN
  | _ =>
      if Nat.even n
      then Fin ((nth (n / 2 - 1) s 0 + nth (n / 2) s 0) / 2)
      else Fin (nth (n / 2) s 0)
  end.

(** An array of two axes: its rows, and the number of its columns
    ([shape[1]], which the rows do not give when there are none).  Every
    row of an array has that many entries. *)
Record array2 : Type := mk_array2 {
  a_ncols : nat;
  a_rows : list (list R)
}.

(** [a.T], as the list of the columns.  No entry is made up: a row
    without the entry, which an array does not have, raises. *)
Definition transpose (a : array2) : outcome (list (list R)) :=
  mapM (fun i => mapM (fun row => PyList.get row i) (a_rows a))
       (seq 0 (a_ncols a)).

End Np.

(** ** BaseSearchClass *)

Module BaseSearchClass.

Local Open Scope R_scope.

(** The entry [m[i, j]] assigned by the two loops of [shift_matrix]. *)
Definition shift_entry (dT : R) (i j : nat) : R :=
  if Nat.eqb i j then 1
  else if Nat.ltb j i then 0
  else if Nat.eqb i 0 then 2 * PI * dT ^ (j - i) / INR (fact (j - i))
  else dT ^ (j - i) / INR (fact (j - i)).

Definition shift_matrix (n : nat) (dT : R) : list (list R) :=
  map (fun i => map (fun j => shift_entry dT i j) (seq 0 n)) (seq 0 n).

Definition shift_coefficients (theta : list R) (dT : R) : list R :=
  map (fun row => Np.dot row theta) (shift_matrix (List.length theta) dT).

(** The product of two matrices, for the composition of two shifts. *)
Definition column (j : nat) (m : list (list R)) : list R :=
  map (fun row => nth j row 0) m.

Definition matmul (a b : list (list R)) : list (list R) :=
  map (fun row =>
         map (fun j => Np.dot row (column j b)) (seq 0 (List.length b))) a.

Definition identity (n : nat) : list (list R) :=
  map (fun i => map (fun j => if Nat.eqb i j then 1 else 0) (seq 0 n))
      (seq 0 n).

(** The entry the text of the specification describes: the Taylor
    coefficient on and above the diagonal, zero below, and the whole of
    row 0 scaled by [2*pi]. *)
Definition claimed_shift_entry (dT : R) (i j : nat) : R :=
  if Nat.ltb j i then 0
  else if Nat.eqb i 0 then 2 * PI * (dT ^ (j - i) / INR (fact (j - i)))
  else dT ^ (j - i) / INR (fact (j - i)).

(** [calculate_thetas]: the coefficients of every segment of a signal with
    glitches, each at the reference time. *)
Fixpoint calculate_thetas_loop (tref : R) (tbounds : list R)
  (delta_thetas : list (list R)) (i : nat) (thetas : list (list R))
  : outcome (list (list R)) :=
  match delta_thetas with
  | [] => Return thetas
  | dt :: rest =>
      (theta_i <- PyList.get thetas i ;;
       tb <- PyList.get tbounds (i + 1) ;;
       let pre_theta_at_ith_glitch :=
         shift_coefficients theta_i (tb - tref) in
       post_theta_at_ith_glitch <- Np.add pre_theta_at_ith_glitch dt ;;
       calculate_thetas_loop tref tbounds rest (S i)
         (thetas ++
          [shift_coefficients post_theta_at_ith_glitch (tref - tb)]))%py
  end.

Definition calculate_thetas (tref : R) (theta : list R)
  (delta_thetas : list (list R)) (tbounds : list R)
  : outcome (list (list R)) :=
  calculate_thetas_loop tref tbounds delta_thetas 0 [theta].

End BaseSearchClass.

(** ** ComputeFstat: the external detection statistic *)

(** The arguments of one call of [run_computefstatistic_single_point]. *)
Record fcall : Type := mk_fcall {
  c_tstart : R;
  c_tend : R;
  c_F0 : R;
  c_F1 : R;
  c_F2 : R;
  c_Alpha : R;
  c_Delta : R
}.

(** The class [ComputeFstat] itself.  The search object keeps the
    Doppler parameters it hands to lalpulsar; what lalpulsar computes
    from them is left open. *)
Module ComputeFstat.

Local Open Scope R_scope.

(** [PulsarDopplerParams], as far as the class writes it. *)
Record doppler : Type := mk_doppler {
  fkdot : list R;
  Alpha : R;
  Delta : R;
  asini : R;
  period : R;
  ecc : R;
  tp : R;
  argp : R
}.

Record t : Type := mk {
  binary : bool;
  transient : bool;
  PulsarDopplerParams : doppler
}.

(** [int(x)] of a float: the integer towards zero. *)
Definition py_int (x : R) : Z :=
  if Rle_dec 0 x then Int_part x else (- Int_part (- x))%Z.

(** An argument that may be [None] written into a field of the
    parameters, which holds a number. *)
Definition number (x : option R) : outcome R :=
  match x with
  | Some v => Return v
  | None => Raise TypeError
  end.

(** [__init__], from the parameters as lalpulsar creates them: the sky
    position is set to 1 and the frequency and its derivatives to 0.
    The reading of the data files is left out. *)
Definition __init__ (binary transient : bool) (fresh : doppler) : t :=
  mk binary transient
     (mk_doppler [0; 0; 0; 0; 0; 0; 0] 1 1 (asini fresh) (period fresh)
                 (ecc fresh) (tp fresh) (argp fresh)).

Section Lalpulsar.

(** The results of [lalpulsar.ComputeFstat] for the parameters. *)
Variable Results : Type.
Variable lal_ComputeFstat : doppler -> Results.
(** [FstatResults.twoF[0]] *)
Variable lal_twoF : Results -> R.
(** [F_mn.data[0][0]] of [lalpulsar.ComputeTransientFstatMap] for the
    window that starts at [t0] and lasts [tau]. *)
Variable lal_F_mn : Results -> Z -> Z -> R.

(** [run_computefstatistic_single_point]: the object after the call and
    the value returned. *)
Definition run_computefstatistic_single_point (self : t)
  (tstart tend F0 F1 F2 Alpha Delta : R)
  (asini period ecc tp argp : option R) : t * outcome R :=
  let p := PulsarDopplerParams self in
  let p1 :=
    mk_doppler [F0; F1; F2; 0; 0; 0; 0] Alpha Delta
      (ComputeFstat.asini p) (ComputeFstat.period p) (ComputeFstat.ecc p)
      (ComputeFstat.tp p) (ComputeFstat.argp p) in
  let finish (p2 : doppler) : t * outcome R :=
    let FstatResults := lal_ComputeFstat p2 in
    (mk (binary self) (transient self) p2,
     if transient self
     then Return (2 * lal_F_mn FstatResults (py_int tstart)
                                 (py_int (tend - tstart)))
     else Return (lal_twoF FstatResults)) in
  if binary self then
    match number asini with
    | Return a =>
        let pa := mk_doppler (fkdot p1) (ComputeFstat.Alpha p1)
                    (ComputeFstat.Delta p1) a (ComputeFstat.period p1)
                    (ComputeFstat.ecc p1) (ComputeFstat.tp p1)
                    (ComputeFstat.argp p1) in
        match number period with
        | Return b =>
            let pb := mk_doppler (fkdot pa) (ComputeFstat.Alpha pa)
                        (ComputeFstat.Delta pa) a b (ComputeFstat.ecc pa)
                        (ComputeFstat.tp pa) (ComputeFstat.argp pa) in
            match number ecc with
            | Return c =>
                let pc := mk_doppler (fkdot pb) (ComputeFstat.Alpha pb)
                            (ComputeFstat.Delta pb) a b c
                            (ComputeFstat.tp pb) (ComputeFstat.argp pb) in
                match number tp with
                | Return d =>
                    let pd := mk_doppler (fkdot pc) (ComputeFstat.Alpha pc)
                                (ComputeFstat.Delta pc) a b c d
                                (ComputeFstat.argp pc) in
                    match number argp with
                    | Return e =>
                        finish (mk_doppler (fkdot pd)
                                  (ComputeFstat.Alpha pd)
                                  (ComputeFstat.Delta pd) a b c d e)
                    | Raise x => (mk (binary self) (transient self) pd,
                                  Raise x)
                    | Unfinished => (mk (binary self) (transient self) pd,
                                     Unfinished)
                    end
                | Raise x => (mk (binary self) (transient self) pc, Raise x)
                | Unfinished =>
                    (mk (binary self) (transient self) pc, Unfinished)
                end
            | Raise x => (mk (binary self) (transient self) pb, Raise x)
            | Unfinished => (mk (binary self) (transient self) pb, Unfinished)
            end
        | Raise x => (mk (binary self) (transient self) pa, Raise x)
        | Unfinished => (mk (binary self) (transient self) pa, Unfinished)
        end
    | Raise x => (mk (binary self) (transient self) p1, Raise x)
    | Unfinished => (mk (binary self) (transient self) p1, Unfinished)
    end
  else finish p1.

(** The call of [run_computefstatistic_single_point] with the entries of
    a list for its arguments: seven are required, five more are
    optional. *)
Definition run_star (self : t) (args : list R) : t * outcome R :=
  match args with
  | tstart :: tend :: F0 :: F1 :: F2 :: Alpha :: Delta :: rest =>
      if Nat.leb (List.length rest) 5 then
        run_computefstatistic_single_point self tstart tend F0 F1 F2
          Alpha Delta (nth_error rest 0) (nth_error rest 1)
          (nth_error rest 2) (nth_error rest 3) (nth_error rest 4)
      else (self, Raise TypeError)
  | _ => (self, Raise TypeError)
  end.

End Lalpulsar.

End ComputeFstat.

(** ** SemiCoherentGlitchSearch *)

Module SemiCoherentGlitchSearch.

Import BaseSearchClass.
Local Open Scope R_scope.

Record t : Type := mk {
  tref : R;
  tstart : R;
  tend : R;
  nglitch : nat
}.

Section Evaluator.

(** What lalpulsar computes for the arguments of a call. *)
Variable twoF : fcall -> R.

(** The body of the loop of [compute_nglitch_fstat] over the segments
    [idxs], threading [theta_at_tref], [twoFSum] and the log of the calls
    of the evaluator. *)
Fixpoint nglitch_loop (self : t) (tboundaries delta_F0s delta_F1s : list R)
  (theta : list R) (Alpha Delta : R) (idxs : list nat)
  (theta_at_tref : list R) (twoFSum : R) (log : list fcall)
  : outcome (R * list fcall) :=
  match idxs with
  | [] => Return (twoFSum, log)
  | i :: idxs' =>
      (ts <- PyList.get tboundaries i ;;
       te <- PyList.get tboundaries (i + 1) ;;
       theta_at_tref' <-
         (if Nat.eqb i 0 then Return theta
          else
            dF0 <- PyList.get delta_F0s i ;;
            dF1 <- PyList.get delta_F1s i ;;
            let delta_theta := [dF0; dF1; 0] in
            let theta_at_glitch :=
              shift_coefficients theta_at_tref (te - tref self) in
            theta_post_glitch_at_glitch <-
              Np.add theta_at_glitch delta_theta ;;
            Return (shift_coefficients theta_post_glitch_at_glitch
                      (tref self - te))) ;;
       f0 <- PyList.get theta_at_tref' 0 ;;
       f1 <- PyList.get theta_at_tref' 1 ;;
       f2 <- PyList.get theta_at_tref' 2 ;;
       let call := mk_fcall ts te f0 f1 f2 Alpha Delta in
       nglitch_loop self tboundaries delta_F0s delta_F1s theta Alpha Delta
         idxs' theta_at_tref' (twoFSum + twoF call) (log ++ [call]))%py
  end.

Definition compute_nglitch_fstat (self : t) (F0 F1 F2 Alpha Delta : R)
  (args : list R) : outcome (R * list fcall) :=
  let n := Z.of_nat (nglitch self) in
  let tboundaries :=
    [tstart self] ++ PyList.slice_from (- n)%Z args ++ [tend self] in
  let delta_F0s := [0] ++ PyList.slice (-3 * n)%Z (-2 * n)%Z args in
  let delta_F1s := [0] ++ PyList.slice (-2 * n)%Z (- n)%Z args in
  let theta := [F0; F1; F2] in
  nglitch_loop self tboundaries delta_F0s delta_F1s theta Alpha Delta
    (seq 0 (nglitch self + 1)) theta 0 [].

Definition compute_glitch_fstat_single (self : t)
  (F0 F1 F2 Alpha Delta delta_F0 delta_F1 tglitch : R)
  : outcome (R * list fcall) :=
  let theta := [F0; F1; F2] in
  let delta_theta := [delta_F0; delta_F1; 0] in
  let theta_at_glitch := shift_coefficients theta (tglitch - tref self) in
  (theta_post_glitch_at_glitch <- Np.add theta_at_glitch delta_theta ;;
   let theta_post_glitch :=
     shift_coefficients theta_post_glitch_at_glitch (tref self - tglitch) in
   t0 <- PyList.get theta 0 ;;
   t1 <- PyList.get theta 1 ;;
   t2 <- PyList.get theta 2 ;;
   let callA := mk_fcall (tstart self) tglitch t0 t1 t2 Alpha Delta in
   let twoFsegA := twoF callA in
   if Float.Reqb tglitch (tend self) then Return (twoFsegA, [callA])
   else
     p0 <- PyList.get theta_post_glitch 0 ;;
     p1 <- PyList.get theta_post_glitch 1 ;;
     p2 <- PyList.get theta_post_glitch 2 ;;
     let callB := mk_fcall tglitch (tend self) p0 p1 p2 Alpha Delta in
     let twoFsegB := twoF callB in
     Return (twoFsegA + twoFsegB, [callA; callB]))%py.

End Evaluator.

(** The vector the text of the specification gives to segment [i > 0]:
    the previous segment's vector shifted to the epoch [tboundaries[i]]
    at which the segment begins, the jump added there, and shifted back. *)
Definition claimed_segment_theta (self : t) (tboundaries_i : R)
  (delta_F0 delta_F1 : R) (previous : list R) : outcome (list R) :=
  (post <- Np.add (shift_coefficients previous (tboundaries_i - tref self))
                  [delta_F0; delta_F1; 0] ;;
   Return (shift_coefficients post (tref self - tboundaries_i)))%py.

End SemiCoherentGlitchSearch.

(** ** The prior dictionary *)

(** A distribution descriptor: the ['type'] entry and the shape
    parameters. *)
Record kwargs : Type := mk_kwargs {
  kw_type : string;
  kw_params : PyDict.t R
}.

(** A value of [theta_prior]: a number ([float], [int] or [np.float64]),
    a dictionary, or a value of any other type. *)
Inductive pyval : Type :=
| PyNum (x : R)
| PyDictV (kw : kwargs)
| PyOther.

Definition is_dict (v : pyval) : bool :=
  match v with PyDictV _ => true | _ => false end.

Definition recognised (v : pyval) : Prop := v <> PyOther.

(** The dictionaries live in a heap: the search object holds a reference
    to the dictionary of its caller. *)
Definition ref : Type := nat.
Definition heap : Type := ref -> option (PyDict.t pyval).

Definition heap_set (h : heap) (r : ref) (d : PyDict.t pyval) : heap :=
  fun r' => if Nat.eqb r' r then Some d else h r'.

(** The sequence of proposed values: a Python list of floats, or a numpy
    array. *)
Inductive pyseq : Type :=
| PyListV (xs : list R)
| NdArray (xs : list R).

Definition elements (s : pyseq) : list R :=
  match s with PyListV xs | NdArray xs => xs end.

Definition is_ndarray (s : pyseq) : bool :=
  match s with NdArray _ => true | PyListV _ => false end.

(** [s[lo:]] keeps the kind of the sequence. *)
Definition seq_slice_from (lo : Z) (s : pyseq) : pyseq :=
  match s with
  | PyListV xs => PyListV (PyList.slice_from lo xs)
  | NdArray xs => NdArray (PyList.slice_from lo xs)
  end.

(** [a + b]: two lists are concatenated; when an operand is an array the
    sum is numpy's, element by element. *)
Definition seq_add (a b : pyseq) : outcome pyseq :=
  match a, b with
  | PyListV xs, PyListV ys => Return (PyListV (xs ++ ys))
  | _, _ => bind (Np.add (elements a) (elements b))
                 (fun zs => Return (NdArray zs))
  end.

(** The layout computed by [unpack_input_theta]. *)
Record layout : Type := mk_layout {
  theta_keys : list string;
  theta_idxs : list nat;
  fixed_theta : list R
}.

(** ** MCMCSearch *)

Module MCMCSearch.

Local Open Scope R_scope.

Definition full_theta_keys (binary : bool) : list string :=
  ["tstart"; "tend"; "F0"; "F1"; "F2"; "Alpha"; "Delta"]%string
  ++ (if binary
      then ["asini"; "period"; "ecc"; "tp"; "argp"]%string
      else []).

(** The state of the loop over the items of [theta_prior]. *)
Record unpack_state : Type := mk_state {
  st_theta_keys : list string;
  st_fixed_theta_dict : PyDict.t R;
  st_full_theta_keys_copy : list string
}.

Fixpoint unpack_loop (items : PyDict.t pyval) (st : unpack_state)
  : outcome unpack_state :=
  match items with
  | [] => Return st
  | (key, val) :: rest =>
      (st1 <-
         match val with
         | PyDictV _ =>
             Return (mk_state (st_theta_keys st ++ [key])
                       (PyDict.set key 0 (st_fixed_theta_dict st))
                       (st_full_theta_keys_copy st))
         | PyNum x =>
             Return (mk_state (st_theta_keys st)
                       (PyDict.set key x (st_fixed_theta_dict st))
                       (st_full_theta_keys_copy st))
         | PyOther => Raise (ValueError_type key)
         end ;;
       copy <- PyList.pop_key key (st_full_theta_keys_copy st1) ;;
       unpack_loop rest
         (mk_state (st_theta_keys st1) (st_fixed_theta_dict st1) copy))%py
  end.

(** The part of [unpack_input_theta] after the loop, the same in the two
    classes up to the list of keys: the completeness check, the fixed
    vector, the indices and the sort by index.  The symbols for the
    plots, which follow the keys, are left out. *)
Definition finish_unpack (full_theta_keys : list string)
  (st : unpack_state) : outcome layout :=
  if Nat.ltb 0 (List.length (st_full_theta_keys_copy st)) then
    Raise (ValueError_missing (st_full_theta_keys_copy st))
  else
    (fixed <- mapM (fun key => PyDict.get key (st_fixed_theta_dict st))
                   full_theta_keys ;;
     theta_idxs0 <- mapM (fun k => PyList.index k full_theta_keys)
                         (st_theta_keys st) ;;
     let idxs := Np.argsort theta_idxs0 in
     theta_idxs1 <- mapM (PyList.get theta_idxs0) idxs ;;
     theta_keys1 <- mapM (PyList.get (st_theta_keys st)) idxs ;;
     Return (mk_layout theta_keys1 theta_idxs1 fixed))%py.

Definition unpack_input_theta (binary : bool) (theta_prior : PyDict.t pyval)
  : outcome layout :=
  let full := full_theta_keys binary in
  (st <- unpack_loop theta_prior (mk_state [] [] full) ;;
   finish_unpack full st)%py.

(** The search object, as far as the packing goes. *)
Record t : Type := mk {
  theta_prior : ref;
  tstart : R;
  tend : R;
  binary : bool;
  the_layout : layout;
  ndim : nat
}.

(** [__init__]: the attributes are bound to the arguments, the two epochs
    are written into the dictionary [theta_prior] refers to, and the
    dictionary is unpacked.  The heap after the call is returned whether
    or not the call raises. *)
Definition __init__ (h : heap) (theta_prior : ref) (tstart tend : R)
  (binary : bool) : heap * outcome t :=
  match h theta_prior with
  | None => (h, Raise TypeError)
  | Some d =>
      let d1 := PyDict.set "tstart" (PyNum tstart) d in
      let h1 := heap_set h theta_prior d1 in
      let d2 := PyDict.set "tend" (PyNum tend) d1 in
      let h2 := heap_set h1 theta_prior d2 in
      (h2,
       bind (unpack_input_theta binary d2)
            (fun l => Return (mk theta_prior tstart tend binary l
                                (List.length (theta_keys l)))))
  end.

(** *** The prior kernel *)

Definition logunif (x a b : R) : fval :=
  let above := Float.Rltb x b in
  let below := Float.Rltb a x in
  if above && below then Fin (- ln (b - a)) else NegInf.

(** [-0.5*((x-loc)**2/scale**2 + np.log(c*np.pi*scale**2))].  With a zero
    [scale] a numpy scalar [x] gives NaN (an infinity or a NaN plus the
    logarithm of zero), a Python float raises. *)
Definition gaussian (numpy : bool) (c x loc scale : R) : outcome fval :=
  if Float.Reqb (scale ^ 2) 0 then
    if numpy then Return NaN else Raise ZeroDivisionError
  else
    Return (Fin (- 0.5 * ((x - loc) ^ 2 / scale ^ 2
                          + ln (c * PI * scale ^ 2)))).

Definition halfnorm (numpy : bool) (x loc scale : R) : outcome fval :=
  if Float.Rltb x 0 then Return NegInf
  else gaussian numpy 0.5 x loc scale.

(** The density [generic_lnprior] returns for the descriptor, at [x]. *)
Definition generic_lnprior (numpy : bool) (kw : kwargs) (x : R)
  : outcome fval :=
  let p := kw_params kw in
  if String.eqb (kw_type kw) "unif" then
    (lower <- PyDict.get "lower" p ;;
     upper <- PyDict.get "upper" p ;;
     Return (logunif x lower upper))%py
  else if String.eqb (kw_type kw) "halfnorm" then
    (loc <- PyDict.get "loc" p ;;
     scale <- PyDict.get "scale" p ;;
     halfnorm numpy x loc scale)%py
  else if String.eqb (kw_type kw) "norm" then
    (loc <- PyDict.get "loc" p ;;
     scale <- PyDict.get "scale" p ;;
     gaussian numpy 2 x loc scale)%py
  else Raise ValueError_distribution.

(** The list [H]: the density of the prior of [key] at [p], for [p, key]
    in [zip(theta_vals, theta_keys)]. *)
Definition prior_terms (theta_vals : pyseq) (theta_prior : PyDict.t pyval)
  (theta_keys : list string) : outcome (list fval) :=
  mapM (fun pk : R * string =>
          let (p, key) := pk in
          (v <- PyDict.get key theta_prior ;;
           match v with
           | PyDictV kw => generic_lnprior (is_ndarray theta_vals) kw p
           | _ => Raise TypeError
           end)%py)
       (combine (elements theta_vals) theta_keys).

Definition logp (theta_vals : pyseq) (theta_prior : PyDict.t pyval)
  (theta_keys : list string) : outcome fval :=
  bind (prior_terms theta_vals theta_prior theta_keys)
       (fun H => Return (Float.sum H)).

(** *** The sample of maximal statistic *)

(** [np.nanargmax] of an array without NaN: the first position of the
    largest element. *)
Fixpoint argmax_from (best : nat) (vbest : R) (i : nat) (l : list R) : nat :=
  match l with
  | [] => best
  | x :: l' =>
      if Float.Rltb vbest x then argmax_from i x (S i) l'
      else argmax_from best vbest (S i) l'
  end.

(** [l[np.isfinite(l)]] *)
Definition finite_values (l : list fval) : list R :=
  flat_map (fun a => match a with Fin x => [x] | _ => [] end) l.

Definition nanargmax (l : list R) : outcome nat :=
  match l with
  | [] => Raise ValueError_empty
  | x :: l' => Return (argmax_from 0%nat x 1%nat l')
  end.

(** The key under which a parameter is reported: [while k in d: k =
    base_key + '_1'] assigns the same key at every turn, so the loop is
    left after one turn at most or never. *)
Definition report_key (d : PyDict.t fval) (base_key : string)
  : outcome string :=
  if PyDict.mem base_key d then
    let k := (base_key ++ "_1")%string in
    if PyDict.mem k d then Unfinished else Return k
  else Return base_key.

Fixpoint max_twoF_loop (strict : bool) (samples : list (list R))
  (jmax : nat) (close_idxs : list bool) (keys : list string) (i : nat)
  (d : PyDict.t fval) : outcome (PyDict.t fval) :=
  match keys with
  | [] => Return d
  | base_key :: keys' =>
      (k <- report_key d base_key ;;
       row <- PyList.get samples jmax ;;
       v <- PyList.get row i ;;
       let d1 := PyDict.set k (Fin v) d in
       col <- mapM (fun r => PyList.get r i) samples ;;
       s <- Np.select strict close_idxs col ;;
       let d2 := PyDict.set (k ++ "_std")%string (Float.std s) d1 in
       max_twoF_loop strict samples jmax close_idxs keys' (S i) d2)%py
  end.

Definition get_max_twoF (strict : bool) (lnlikes : list fval)
  (samples : list (list R)) (theta_keys : list string) (threshold : R)
  : outcome (PyDict.t fval * fval) :=
  (* lnlikes[idxs], for idxs = np.isfinite(lnlikes) *)
  let finite := finite_values lnlikes in
  (jmax <- nanargmax finite ;;
   maxtwoF <- PyList.get lnlikes jmax ;;
   let close_idxs :=
     map (fun x =>
            Float.lt (Float.abs (Float.div (Float.sub maxtwoF (Fin x))
                                           maxtwoF))
                     (Fin threshold))
         finite in
   d <- max_twoF_loop strict samples jmax close_idxs theta_keys 0 [] ;;
   Return (d, maxtwoF))%py.

(** The largest finite log-likelihood and the first sample that has it,
    in the words of the specification. *)
Definition is_max_finite (lnlikes : list fval) (m : R) : Prop :=
  In (Fin m) lnlikes /\ forall x, In (Fin x) lnlikes -> x <= m.

(** *** The likelihood kernel *)

(** [inititate_search_object]: the search is a [ComputeFstat] that is not
    transient; [binary] is not passed on and has its default. *)
Definition inititate_search_object (fresh : ComputeFstat.doppler)
  : ComputeFstat.t :=
  ComputeFstat.__init__ false false fresh.

(** The loop of [logl], which writes the proposed values into
    [self.fixed_theta]: the list after the loop, and whether the loop
    raised. *)
Fixpoint logl_loop (theta_idxs : list nat) (j : nat) (theta : list R)
  (fixed_theta : list R) : list R * outcome unit :=
  match theta_idxs with
  | [] => (fixed_theta, Return tt)
  | theta_i :: rest =>
      match PyList.get theta j with
      | Return v =>
          match PyList.set_item fixed_theta theta_i v with
          | Return fixed_theta' => logl_loop rest (S j) theta fixed_theta'
          | Raise e => (fixed_theta, Raise e)
          | Unfinished => (fixed_theta, Unfinished)
          end
      | Raise e => (fixed_theta, Raise e)
      | Unfinished => (fixed_theta, Unfinished)
      end
  end.

Section Likelihood.

Variable Results : Type.
Variable lal_ComputeFstat : ComputeFstat.doppler -> Results.
Variable lal_twoF : Results -> R.
Variable lal_F_mn : Results -> Z -> Z -> R.

(** [logl]: the fixed vector and the search after the call, and the
    value returned. *)
Definition logl (fixed_theta : list R) (theta_idxs : list nat)
  (theta : list R) (search : ComputeFstat.t)
  : (list R * ComputeFstat.t) * outcome R :=
  match logl_loop theta_idxs 0 theta fixed_theta with
  | (fixed_theta', Return _) =>
      let (search', FS) :=
        ComputeFstat.run_star lal_ComputeFstat lal_twoF lal_F_mn search
          fixed_theta' in
      ((fixed_theta', search'), FS)
  | (fixed_theta', Raise e) => ((fixed_theta', search), Raise e)
  | (fixed_theta', Unfinished) => ((fixed_theta', search), Unfinished)
  end.

End Likelihood.

(** *** Medians *)

(** [get_median_stds].  [self.samples] is an array of two axes; the
    loop pairs its columns with the keys and stops at the shorter of the
    two. *)
Fixpoint median_stds_loop (cols_keys : list (list R * string))
  (d : PyDict.t fval) : PyDict.t fval :=
  match cols_keys with
  | [] => d
  | (s, k) :: rest =>
      let d1 := PyDict.set k (Np.median s) d in
      let d2 := PyDict.set (k ++ "_std")%string (Float.std s) d1 in
      median_stds_loop rest d2
  end.

Definition get_median_stds (samples : Np.array2)
  (theta_keys : list string) : outcome (PyDict.t fval) :=
  (cols <- Np.transpose samples ;;
   Return (median_stds_loop (combine cols theta_keys) []))%py.

End MCMCSearch.

(** ** MCMCGlitchSearch *)

Module MCMCGlitchSearch.

Import MCMCSearch.
Local Open Scope R_scope.

Definition glitch_keys : list string :=
  ["delta_F0"; "delta_F1"; "tglitch"]%string.

Definition full_glitch_keys (nglitch : nat) : list string :=
  flat_map (fun gk => repeat gk nglitch) glitch_keys.

Definition full_theta_keys (nglitch : nat) : list string :=
  ["F0"; "F1"; "F2"; "Alpha"; "Delta"]%string ++ full_glitch_keys nglitch.

Fixpoint unpack_loop (nglitch : nat) (items : PyDict.t pyval)
  (st : unpack_state) : outcome unpack_state :=
  match items with
  | [] => Return st
  | (key, val) :: rest =>
      (st1 <-
         match val with
         | PyDictV _ =>
             Return (mk_state
                       (if PyList.mem key glitch_keys
                        then st_theta_keys st ++ repeat key nglitch
                        else st_theta_keys st ++ [key])
                       (PyDict.set key 0 (st_fixed_theta_dict st))
                       (st_full_theta_keys_copy st))
         | PyNum x =>
             Return (mk_state (st_theta_keys st)
                       (PyDict.set key x (st_fixed_theta_dict st))
                       (st_full_theta_keys_copy st))
         | PyOther => Raise (ValueError_type key)
         end ;;
       copy <-
         (if PyList.mem key glitch_keys
          then PyList.pop_key_times nglitch key (st_full_theta_keys_copy st1)
          else PyList.pop_key key (st_full_theta_keys_copy st1)) ;;
       unpack_loop nglitch rest
         (mk_state (st_theta_keys st1) (st_fixed_theta_dict st1) copy))%py
  end.

(** One run of [for i, idx in enumerate(self.theta_idxs)]: [done] is the
    part of the array already visited, with its increments. *)
Fixpoint bump_pass (done rest : list nat) : list nat :=
  match rest with
  | [] => done
  | idx :: rest' =>
      if existsb (Nat.eqb idx) done
      then bump_pass (done ++ [S idx]) rest'
      else bump_pass (done ++ [idx]) rest'
  end.

(** [np.sum(a[:-1] == a[1:]) > 0] *)
Fixpoint has_adjacent_equal (l : list nat) : bool :=
  match l with
  | x :: ((y :: _) as l') => Nat.eqb x y || has_adjacent_equal l'
  | _ => false
  end.

(** The [while] loop, with a bound on the number of its turns. *)
Fixpoint bump_loop (fuel : nat) (idxs : list nat) : outcome (list nat) :=
  if has_adjacent_equal idxs then
    match fuel with
    | O => Unfinished
    | S fuel' => bump_loop fuel' (bump_pass [] idxs)
    end
  else Return idxs.

Definition unpack_input_theta (fuel : nat) (nglitch : nat)
  (theta_prior : PyDict.t pyval) : outcome layout :=
  let full := full_theta_keys nglitch in
  (st <- unpack_loop nglitch theta_prior (mk_state [] [] full) ;;
   l <- finish_unpack full st ;;
   idxs <- bump_loop fuel (theta_idxs l) ;;
   Return (mk_layout (theta_keys l) idxs (fixed_theta l)))%py.

Record t : Type := mk {
  theta_prior : ref;
  tstart : R;
  tend : R;
  nglitch : nat;
  dtglitchmin : R;
  the_layout : layout;
  ndim : nat
}.

(** [__init__]: the attributes are bound to the arguments and the
    dictionary is unpacked as it is. *)
Definition __init__ (fuel : nat) (h : heap) (theta_prior : ref)
  (tstart tend : R) (nglitch : nat) (dtglitchmin : R) : heap * outcome t :=
  match h theta_prior with
  | None => (h, Raise TypeError)
  | Some d =>
      (h,
       bind (unpack_input_theta fuel nglitch d)
            (fun l => Return (mk theta_prior tstart tend nglitch dtglitchmin
                                l (List.length (theta_keys l)))))
  end.

(** [ts = [self.tstart] + theta_vals[-self.nglitch:] + [self.tend]] *)
Definition glitch_epochs (tstart tend : R) (nglitch : nat)
  (theta_vals : pyseq) : outcome pyseq :=
  (ts1 <- seq_add (PyListV [tstart])
                  (seq_slice_from (- Z.of_nat nglitch) theta_vals) ;;
   seq_add ts1 (PyListV [tend]))%py.

Definition logp (tstart tend : R) (nglitch : nat) (dtglitchmin : R)
  (theta_vals : pyseq) (theta_prior : PyDict.t pyval)
  (theta_keys : list string) : outcome fval :=
  if Nat.ltb 1 nglitch then
    (ts <- glitch_epochs tstart tend nglitch theta_vals ;;
     let ts := elements ts in
     if negb (Np.array_equal ts (Np.sort ts)) then Return NegInf
     else if existsb (fun d => Float.Rltb d dtglitchmin) (Np.diff ts)
     then Return NegInf
     else MCMCSearch.logp theta_vals theta_prior theta_keys)%py
  else MCMCSearch.logp theta_vals theta_prior theta_keys.

(** The condition of the specification on the two glitch epochs. *)
Definition epochs_admissible (tstart tend dtglitchmin t1 t2 : R) : Prop :=
  tstart < t1 /\ t1 < t2 /\ t2 < tend /\
  dtglitchmin <= t1 - tstart /\ dtglitchmin <= t2 - t1 /\
  dtglitchmin <= tend - t2.

(** [logl]: the fixed vector after the call and the value returned, with
    the calls of the evaluator.  [compute_nglitch_fstat] takes five
    arguments and the rest of the list. *)
Definition logl (twoF : fcall -> R) (search : SemiCoherentGlitchSearch.t)
  (fixed_theta : list R) (theta_idxs : list nat) (theta : list R)
  : list R * outcome (R * list fcall) :=
  match MCMCSearch.logl_loop theta_idxs 0 theta fixed_theta with
  | (fixed_theta', Return _) =>
      (fixed_theta',
       match fixed_theta' with
       | F0 :: F1 :: F2 :: Alpha :: Delta :: args =>
           SemiCoherentGlitchSearch.compute_nglitch_fstat twoF search
             F0 F1 F2 Alpha Delta args
       | _ => Raise TypeError
       end)
  | (fixed_theta', Raise e) => (fixed_theta', Raise e)
  | (fixed_theta', Unfinished) => (fixed_theta', Unfinished)
  end.

(** [apply_corrections_to_p0]: for more than one glitch the last
    [nglitch] coordinates of every walker are sorted. *)
Definition correct_walker (nglitch : nat) (walker : list R) : list R :=
  let tail := PyList.slice_from (- Z.of_nat nglitch) walker in
  firstn (List.length walker - List.length tail) walker ++ Np.sort tail.

(** [np.array(p0)].  The list is rectangular when its temperatures hold
    as many walkers and its walkers as many coordinates.  A list that is
    not becomes an array of lists with numpy up to 1.23, and raises a
    [ValueError] with later versions; [ragged_raises] selects the later
    behaviour. *)
Definition rectangular (p0 : list (list (list R))) : bool :=
  match p0 with
  | [] => true
  | temp :: _ =>
      forallb (fun t => Nat.eqb (List.length t) (List.length temp)) p0
      && match concat p0 with
         | [] => true
         | walker :: _ =>
             forallb (fun w => Nat.eqb (List.length w) (List.length walker))
                     (concat p0)
         end
  end.

(** The array has the three axes that the code indexes when the list is
    rectangular and holds a temperature and a walker at least.
    Otherwise it has fewer axes, and indexing three raises. *)
Definition three_axes (p0 : list (list (list R))) : bool :=
  match p0 with
  | ((walker :: _) as temp) :: _ =>
      forallb (fun t =>
                 Nat.eqb (List.length t) (List.length temp)
                 && forallb (fun w => Nat.eqb (List.length w)
                                              (List.length walker)) t)
              p0
  | _ => false
  end.

Definition apply_corrections_to_p0 (ragged_raises : bool) (nglitch : nat)
  (p0 : list (list (list R))) : outcome (list (list (list R))) :=
  if ragged_raises && negb (rectangular p0) then Raise ValueError_ragged
  else if Nat.ltb 1 nglitch then
    if three_axes p0
    then Return (map (map (correct_walker nglitch)) p0)
    else Raise IndexError
  else Return p0.

End MCMCGlitchSearch.

(** ** Binary64 numbers *)

(** The floating-point numbers of Python and of numpy's [float64], as
    the primitive binary64 numbers with their rounded operations. *)
Module Binary64.

Import PrimFloat.

(** [x == 0.0] *)
Definition is_zero (x : float) : bool := PrimFloat.eqb x 0%float.

(** The integer [i] as a float. *)
Definition of_nat (i : nat) : float :=
  PrimFloat.of_uint63 (Uint63.of_Z (Z.of_nat i)).

(** [ceil(x)] as an integer; there is none for an infinity or a NaN. *)
Definition ceil (x : float) : option Z :=
  match FloatOps.Prim2SF x with
  | SpecFloat.S754_zero _ => Some 0%Z
  | SpecFloat.S754_finite s m e =>
      let n := if s then Z.neg m else Z.pos m in
      Some (if (0 <=? e)%Z then n * 2 ^ e
            else - ((- n) / 2 ^ (- e)))%Z
  | _ => None
  end.

(** The largest length of an array, [NPY_MAX_INTP]. *)
Definition max_intp : Z := (2 ^ 63 - 1)%Z.

(** The real number a finite float is. *)
Definition to_real (x : float) : option R :=
  match FloatOps.Prim2SF x with
  | SpecFloat.S754_zero _ => Some 0%R
  | SpecFloat.S754_finite s m e =>
      let n := if s then Z.neg m else Z.pos m in
      Some (if (0 <=? e)%Z then IZR (n * 2 ^ e)
            else (IZR n / IZR (2 ^ (- e)))%R)
  | _ => None
  end.

(** A float and the real number by which the model of the evaluator
    knows it. *)
Definition denotes (x : float) (r : R) : Prop := to_real x = Some r.

End Binary64.

(** ** GridSearch *)

Module GridSearch.

Import PrimFloat.

(** [np.arange(start, stop, step)] for Python floats.  The length is the
    ceiling of the quotient [(stop - start) / step], taken in binary64;
    Python raises when the step is zero.  The first value is [start],
    the second [start + step], and the value at [i] is
    [start + i * delta] for [delta = (start + step) - start], all in
    binary64.  The memory an array takes is not modelled. *)
Definition arange (start stop step : float) : outcome (list float) :=
  if Binary64.is_zero step then Raise ZeroDivisionError
  else
    match Binary64.ceil ((stop - start) / step)%float with
    | None => Raise ArangeLengthError
    | Some len =>
        if (Binary64.max_intp <? len)%Z then Raise ArangeLengthError
        else
          let next := (start + step)%float in
          let delta := (next - start)%float in
          Return (map (fun i =>
                         match i with
                         | O => start
                         | S O => next
                         | _ => (start + Binary64.of_nat i * delta)%float
                         end)
                      (seq 0 (Z.to_nat len)))
    end.

Definition get_array_from_tuple (x : list float) : outcome (list float) :=
  if Nat.eqb (List.length x) 1 then Return x
  else
    (x0 <- PyList.get x 0 ;;
     x1 <- PyList.get x 1 ;;
     x2 <- PyList.get x 2 ;;
     arange x0 (x1 * (1 + 1e-15))%float x2)%py.

(** [itertools.product] of the arrays, the last array varying fastest. *)
Fixpoint product {A : Type} (arrays : list (list A)) : list (list A) :=
  match arrays with
  | [] => [[]]
  | a :: rest => flat_map (fun x => map (cons x) (product rest)) a
  end.

Record t : Type := mk {
  tstart : float;
  tend : float;
  F0s : list float;
  F1s : list float;
  F2s : list float;
  Alphas : list float;
  Deltas : list float
}.

(** [get_input_data_array]: the arrays and the rows of [input_data]. *)
Definition get_input_data_array (self : t)
  : outcome (list (list float) * list (list float)) :=
  (arrays <- mapM get_array_from_tuple
               [[tstart self]; [tend self]; F0s self; F1s self; F2s self;
                Alphas self; Deltas self] ;;
   Return (arrays, product arrays))%py.

(** The part of [run] that computes the grid, when no old data are
    reused: the loop over the rows of [input_data] and what follows it.
    The rows are given by the real numbers their values are, as the
    evaluator is handed them.  [writes] are the tables given to
    [np.savetxt], the last one first; each call overwrites the file. *)
Section Run.

Variable Results : Type.
Variable lal_ComputeFstat : ComputeFstat.doppler -> Results.
Variable lal_twoF : Results -> R.
Variable lal_F_mn : Results -> Z -> Z -> R.

Fixpoint run_loop (write_after : Z) (rows : list (list R))
  (search : ComputeFstat.t) (counter : Z) (data : list (list R))
  (writes : list (list (list R)))
  : outcome (ComputeFstat.t * list (list R) * list (list (list R))) :=
  match rows with
  | [] => Return (search, data, writes)
  | vals :: rows' =>
      match ComputeFstat.run_star lal_ComputeFstat lal_twoF lal_F_mn
              search vals with
      | (search', Return FS) =>
          let data' := data ++ [vals ++ [FS]] in
          if (write_after <? counter)%Z
          then run_loop write_after rows' search' 0 [] (data' :: writes)
          else run_loop write_after rows' search' counter data' writes
      | (_, Raise e) => Raise e
      | (_, Unfinished) => Unfinished
      end
  end.

(** The search, the table [self.data] and the writes after the run. *)
Definition run_search (write_after : Z) (input_data : list (list R))
  (search : ComputeFstat.t)
  : outcome (ComputeFstat.t * list (list R) * list (list (list R))) :=
  bind (run_loop write_after input_data search 0 [] [])
       (fun r =>
          match r with
          | (search', data, writes) =>
              Return (search', data, data :: writes)
          end).

End Run.

End GridSearch.

(** ** Auxiliary definitions for the proofs about the packing *)

Module Packing.

(** How many times the loop of [unpack_input_theta] consumes a key. *)
Definition multiplicity (nglitch : nat) (key : string) : nat :=
  if PyList.mem key MCMCGlitchSearch.glitch_keys then nglitch else 1%nat.

(** The keys of a dictionary with every key repeated as often as it is
    consumed: the glitch-expanded keys. *)
Definition expand (mult : string -> nat) (l : list string) : list string :=
  flat_map (fun k => repeat k (mult k)) l.

Definition free_items (items : PyDict.t pyval) : PyDict.t pyval :=
  filter (fun kv => is_dict (snd kv)) items.

Definition fixed_value (v : pyval) : R :=
  match v with PyNum x => x | _ => 0%R end.

(** The two loops over the items of the prior, as one. *)
Fixpoint loop (mult : string -> nat) (items : PyDict.t pyval)
  (st : MCMCSearch.unpack_state) : outcome MCMCSearch.unpack_state :=
  match items with
  | [] => Return st
  | (key, val) :: rest =>
      (st1 <-
         match val with
         | PyDictV _ =>
             Return (MCMCSearch.mk_state
                       (MCMCSearch.st_theta_keys st ++ repeat key (mult key))
                       (PyDict.set key 0%R
                          (MCMCSearch.st_fixed_theta_dict st))
                       (MCMCSearch.st_full_theta_keys_copy st))
         | PyNum x =>
             Return (MCMCSearch.mk_state (MCMCSearch.st_theta_keys st)
                       (PyDict.set key x (MCMCSearch.st_fixed_theta_dict st))
                       (MCMCSearch.st_full_theta_keys_copy st))
         | PyOther => Raise (ValueError_type key)
         end ;;
       copy <- PyList.pop_key_times (mult key) key
                 (MCMCSearch.st_full_theta_keys_copy st1) ;;
       loop mult rest
         (MCMCSearch.mk_state (MCMCSearch.st_theta_keys st1)
            (MCMCSearch.st_fixed_theta_dict st1) copy))%py
  end.

(** The dictionary of fixed values the loop builds. *)
Definition fixed_dict_of (items : PyDict.t pyval) (d : PyDict.t R)
  : PyDict.t R :=
  fold_left (fun d kv => PyDict.set (fst kv) (fixed_value (snd kv)) d)
            items d.

(** The pops of the loop alone. *)
Fixpoint pop_all (mult : string -> nat) (ks : list string)
  (copy : list string) : outcome (list string) :=
  match ks with
  | [] => Return copy
  | k :: ks' =>
      bind (PyList.pop_key_times (mult k) k copy) (pop_all mult ks')
  end.

(** The position of a key in a list, as [index] finds it. *)
Fixpoint position (key : string) (l : list string) : nat :=
  match l with
  | [] => 0%nat
  | k :: l' => if String.eqb key k then 0%nat else S (position key l')
  end.

(** The value the fixed vector holds for a key of the prior: the number
    given, or zero for a free parameter. *)
Definition prior_value (items : PyDict.t pyval) (key : string) : R :=
  match PyDict.get key items with
  | Return v => fixed_value v
  | _ => 0%R
  end.

(** The order of [np.argsort] on the pairs of an index and a position. *)
Definition le_fst (p q : nat * nat) : Prop := (fst p <= fst q)%nat.

(** The loop over the prior followed by the part after it: the body
    shared by the two versions of [unpack_input_theta]. *)
Definition run (mult : string -> nat) (full : list string)
  (items : PyDict.t pyval) : outcome layout :=
  bind (loop mult items (MCMCSearch.mk_state [] [] full))
       (MCMCSearch.finish_unpack full).

(** Two lists hold the same keys. *)
Definition same_keys (l1 l2 : list string) : Prop :=
  forall k, In k l1 <-> In k l2.

(** The eight keys of the prior of a glitch search. *)
Definition glitch_prior_keys : list string :=
  ["F0"; "F1"; "F2"; "Alpha"; "Delta"]%string ++ MCMCGlitchSearch.glitch_keys.

(** The entries of [theta_idxs] that belong to a key. *)
Definition entries_of (key : string) (l : layout) : list nat :=
  map snd (filter (fun p => String.eqb (fst p) key)
                  (combine (theta_keys l) (theta_idxs l))).




(** The prior of the example: [F2] is not given.  The two epochs are
    those the constructor writes. *)
Definition prior_without_F2 : PyDict.t pyval :=
  [("F0", PyNum 10); ("F1", PyNum 0); ("Alpha", PyNum 0);
   ("Delta", PyNum 0); ("tstart", PyNum 0); ("tend", PyNum 1)]%string%R.

(** A prior without [F2] and with a key, [F3], that is foreign to the
    canonical list. *)
Definition prior_with_foreign_key : PyDict.t pyval :=
  [("F0", PyNum 10); ("F1", PyNum 0); ("F3", PyNum 0); ("Alpha", PyNum 0);
   ("Delta", PyNum 0); ("tstart", PyNum 0); ("tend", PyNum 1)]%string%R.

(** A prior of a search for two glitches in which only the glitch epochs
    are free, iterated with the epochs first. *)
Definition two_glitch_prior : PyDict.t pyval :=
  [("tglitch", PyDictV (mk_kwargs "unif" [("lower", 0); ("upper", 100)]));
   ("F0", PyNum 30); ("F1", PyNum 0); ("F2", PyNum 0); ("Alpha", PyNum 0);
   ("Delta", PyNum 0); ("delta_F0", PyNum 0);
   ("delta_F1", PyNum 0)]%string%R.

(** A heap with one dictionary, the prior of an isolated search in which
    the caller made [tstart] a free parameter. *)
Definition caller_prior : PyDict.t pyval :=
  [("F0", PyDictV (mk_kwargs "unif" [("lower", 29); ("upper", 31)]));
   ("tstart", PyDictV (mk_kwargs "unif" [("lower", 0); ("upper", 1)]));
   ("F1", PyNum 0); ("F2", PyNum 0); ("Alpha", PyNum 0);
   ("Delta", PyNum 0)]%string%R.

Definition caller_heap : heap :=
  fun r => if Nat.eqb r 0 then Some caller_prior else None.

(** Whether the prior gives a dictionary for a key: the parameter is
    free. *)
Definition is_free (items : PyDict.t pyval) (key : string) : bool :=
  match PyDict.get key items with
  | Return v => is_dict v
  | _ => false
  end.

(** A prior of the isolated search with all its keys, in an order that is
    not the canonical one: [F0] and [Alpha] are free. *)
Definition complete_prior : PyDict.t pyval :=
  [("Alpha", PyDictV (mk_kwargs "unif" [("lower", 0); ("upper", 6)]));
   ("F1", PyNum (-1)); ("tend", PyNum 10); ("Delta", PyNum 3);
   ("F0", PyDictV (mk_kwargs "unif" [("lower", 29); ("upper", 31)]));
   ("tstart", PyNum 5); ("F2", PyNum 0)]%string%R.

(** The prior of a key is uniform between [lo] and [hi]. *)
Definition uniform_on (theta_prior : PyDict.t pyval) (key : string)
  (lo hi : R) : Prop :=
  exists p,
    PyDict.get key theta_prior = Return (PyDictV (mk_kwargs "unif" p)) /\
    PyDict.get "lower"%string p = Return lo /\
    PyDict.get "upper"%string p = Return hi.

(** A prior with two free parameters, uniform on an interval each. *)
Definition box_prior : PyDict.t pyval :=
  [("F0", PyDictV (mk_kwargs "unif" [("lower", 29); ("upper", 31)]));
   ("F1", PyNum 0);
   ("Alpha", PyDictV (mk_kwargs "unif" [("lower", 0); ("upper", 6)]))]%string%R.

End Packing.

(** ** Grids of the examples *)

Module GridExamples.

Import PrimFloat.



(** A grid whose first parameter runs from [-16] to [1] in steps of
    [1]. *)
Definition from_minus_sixteen : GridSearch.t :=
  GridSearch.mk 0 1 [-16; 1; 1]%float [0]%float [0]%float [0]%float
    [0]%float.

(** A grid of one point. *)
Definition one_point : GridSearch.t :=
  GridSearch.mk 0 1 [30]%float [0]%float [0]%float [0]%float [0]%float.

End GridExamples.

(** ** Inputs of the examples *)

Module Examples.

Local Open Scope R_scope.

(** A search over the span from 0 to 2 with one glitch, referred to
    time 0. *)
Definition one_glitch : SemiCoherentGlitchSearch.t :=
  SemiCoherentGlitchSearch.mk 0 0 2 1.

(** Three production samples of one free parameter; the first has a
    log-likelihood of minus infinity, the last has the largest one. *)
Definition lnlikes : list fval := [NegInf; Fin 1; Fin 5].
Definition samples : list (list R) := [[10]; [20]; [30]].

End Examples.

(** ** Auxiliary definitions for the segments and the grid *)

(** What a turn of the loop of [compute_nglitch_fstat] reads: the two
    boundaries of the segment and, after the first segment, the jumps. *)
Definition in_range (tb dF0s dF1s : list R) (i : nat) : Prop :=
  (i + 1 < List.length tb)%nat /\
  (i <> 0%nat -> (i < List.length dF0s)%nat /\ (i < List.length dF1s)%nat).

(** The parameters handed to lalpulsar for a row of the grid: the
    frequency and its derivatives, the sky position, and the orbital
    parameters the search object was created with. *)
Definition grid_point (orbit : ComputeFstat.doppler) (vals : list R)
  : ComputeFstat.doppler :=
  ComputeFstat.mk_doppler
    [nth 2 vals 0%R; nth 3 vals 0%R; nth 4 vals 0%R; 0%R; 0%R; 0%R; 0%R]
    (nth 5 vals 0%R) (nth 6 vals 0%R)
    (ComputeFstat.asini orbit) (ComputeFstat.period orbit)
    (ComputeFstat.ecc orbit) (ComputeFstat.tp orbit)
    (ComputeFstat.argp orbit).

(** * Properties *)

Unset Implicit Arguments.

(** * Outcomes and Python lists *)

(** ** Outcomes *)

Lemma bind_Return_inv (A B : Type) (m : outcome A) (k : A -> outcome B) b :
  bind m k = Return b -> exists a, m = Return a /\ k a = Return b.
Proof. destruct m; simpl; intros H; try discriminate. eauto. Qed.

Lemma bind_ret_r (A : Type) (m : outcome A) : bind m (fun a => Return a) = m.
Proof. destruct m; reflexivity. Qed.

Lemma mapM_Return_length (A B : Type) (f : A -> outcome B) l bs :
  mapM f l = Return bs -> List.length bs = List.length l.
Proof.
  revert bs. induction l as [|a l IH]; simpl; intros bs H.
  - injection H as <-. reflexivity.
  - apply bind_Return_inv in H as (b & _ & H).
    apply bind_Return_inv in H as (bs' & Hbs & H).
    injection H as <-. simpl. f_equal. apply IH. exact Hbs.
Qed.

Lemma mapM_total (A B : Type) (f : A -> outcome B) (g : A -> B) l :
  (forall a, In a l -> f a = Return (g a)) -> mapM f l = Return (map g l).
Proof.
  induction l as [|a l IH]; simpl; intros H; [reflexivity|].
  rewrite (H a) by (left; reflexivity). simpl.
  rewrite IH by (intros; apply H; right; assumption). reflexivity.
Qed.

Lemma mapM_Return_In (A B : Type) (f : A -> outcome B) l bs b :
  mapM f l = Return bs -> In b bs -> exists a, In a l /\ f a = Return b.
Proof.
  revert bs. induction l as [|a l IH]; simpl; intros bs H Hin.
  - injection H as <-. destruct Hin.
  - apply bind_Return_inv in H as (b0 & Hb0 & H).
    apply bind_Return_inv in H as (bs' & Hbs & H).
    injection H as <-. destruct Hin as [<-|Hin].
    + exists a. auto.
    + destruct (IH _ Hbs Hin) as (a' & Ha' & Hf). exists a'. auto.
Qed.

(** ** Python lists *)

Section PyListFacts.

Abbreviation count := (count_occ string_dec).

Lemma index_In key l : In key l -> exists i, PyList.index key l = Return i.
Proof.
  induction l as [|k l IH]; simpl; [intros []|].
  intros Hin. destruct (String.eqb_spec key k) as [->|Hne]; [eauto|].
  destruct Hin as [->|Hin]; [congruence|].
  destruct (IH Hin) as (i & ->). simpl. eauto.
Qed.


Lemma index_Return key l i :
  PyList.index key l = Return i ->
  nth_error l i = Some key /\ forall k', count (PyList.remove_at i l) k' =
     (count l k' - (if string_dec key k' then 1 else 0))%nat.
Proof.
  revert i. induction l as [|k l IH]; simpl; intros i H; [discriminate|].
  destruct (String.eqb_spec key k) as [->|Hne].
  - injection H as <-. simpl. split; [reflexivity|].
    intros k'. destruct (string_dec k k'); lia.
  - apply bind_Return_inv in H as (j & Hj & H). injection H as <-.
    destruct (IH _ Hj) as [Hn Hc]. simpl. split; [exact Hn|].
    intros k'. rewrite Hc.
    destruct (string_dec k k'), (string_dec key k'); try congruence; lia.
Qed.

Lemma pop_key_Return key l l' :
  PyList.pop_key key l = Return l' ->
  forall k', count l k' = (count l' k' + (if string_dec key k' then 1 else 0))%nat.
Proof.
  unfold PyList.pop_key. intros H.
  apply bind_Return_inv in H as (i & Hi & H). injection H as <-.
  destruct (index_Return _ _ _ Hi) as [Hn Hc]. intros k'. rewrite Hc.
  destruct (string_dec key k'); [|lia].
  subst k'. assert (In key l) by (eapply nth_error_In; eauto).
  assert (count l key > 0)%nat by (apply count_occ_In; assumption). lia.
Qed.

Lemma pop_key_In key l :
  In key l -> exists l', PyList.pop_key key l = Return l'.
Proof.
  intros Hin. unfold PyList.pop_key.
  destruct (index_In _ _ Hin) as (i & ->). simpl. eauto.
Qed.


Lemma pop_key_times_Return n key l l' :
  PyList.pop_key_times n key l = Return l' ->
  forall k', count l k' = (count l' k' + (if string_dec key k' then n else 0))%nat.
Proof.
  revert l. induction n as [|n IH]; simpl; intros l H k'.
  - injection H as <-. destruct (string_dec key k'); lia.
  - apply bind_Return_inv in H as (l1 & H1 & H).
    rewrite (pop_key_Return _ _ _ H1 k'), (IH _ H k').
    destruct (string_dec key k'); lia.
Qed.

Lemma pop_key_times_enough n key l :
  (n <= count l key)%nat -> exists l', PyList.pop_key_times n key l = Return l'.
Proof.
  revert l. induction n as [|n IH]; simpl; intros l H; [eauto|].
  assert (Hin : In key l) by (apply (count_occ_In string_dec); lia).
  destruct (pop_key_In _ _ Hin) as (l1 & H1). rewrite H1. simpl.
  apply IH. pose proof (pop_key_Return _ _ _ H1 key) as Hc.
  destruct (string_dec key key); [lia|congruence].
Qed.


Lemma mem_In key l : PyList.mem key l = true <-> In key l.
Proof.
  unfold PyList.mem. rewrite existsb_exists. split.
  - intros (k & Hin & Heq). apply String.eqb_eq in Heq. congruence.
  - intros Hin. exists key. split; [assumption|apply String.eqb_refl].
Qed.

End PyListFacts.

(** * Tests on real numbers *)

Section RealTests.
Local Open Scope R_scope.

Lemma Rltb_true x y : x < y -> Float.Rltb x y = true.
Proof. intros H. unfold Float.Rltb. destruct (Rlt_dec x y); tauto. Qed.

Lemma Rltb_false x y : ~ x < y -> Float.Rltb x y = false.
Proof. intros H. unfold Float.Rltb. destruct (Rlt_dec x y); tauto. Qed.

Lemma Rleb_true x y : x <= y -> Float.Rleb x y = true.
Proof. intros H. unfold Float.Rleb. destruct (Rle_dec x y); tauto. Qed.

Lemma Rleb_false x y : ~ x <= y -> Float.Rleb x y = false.
Proof. intros H. unfold Float.Rleb. destruct (Rle_dec x y); tauto. Qed.

Lemma Reqb_true x y : x = y -> Float.Reqb x y = true.
Proof. intros H. unfold Float.Reqb. destruct (Req_dec_T x y); tauto. Qed.

Lemma Reqb_false x y : x <> y -> Float.Reqb x y = false.
Proof. intros H. unfold Float.Reqb. destruct (Req_dec_T x y); tauto. Qed.

End RealTests.

Ltac real_side :=
  first [ lra | unfold Rabs; destruct (Rcase_abs _); lra ].

Ltac real_tests :=
  repeat first
    [ rewrite Rltb_true by real_side | rewrite Rltb_false by real_side
    | rewrite Rleb_true by real_side | rewrite Rleb_false by real_side
    | rewrite Reqb_true by real_side | rewrite Reqb_false by real_side ].


(** * The coefficient shift transform *)

Lemma INR_fact_values :
  (INR (fact 1) = 1 /\ INR (fact 2) = 2 /\ INR (fact 3) = 6 /\
   INR (fact 4) = 24 /\ INR (fact 5) = 120 /\ INR (fact 6) = 720)%R.
Proof.
  repeat split;
    match goal with
    | |- INR (fact ?n) = _ =>
        let v := eval compute in (Z.of_nat (fact n)) in
        rewrite (INR_IZR_INZ (fact n));
        change (Z.of_nat (fact n)) with v; reflexivity
    end.
Qed.

(** The matrices and products of the transform, unfolded on vectors of a
    known length. *)
Ltac shift_compute :=
  unfold BaseSearchClass.shift_coefficients, BaseSearchClass.matmul,
    BaseSearchClass.identity, BaseSearchClass.column,
    BaseSearchClass.shift_matrix;
  cbn [List.length map seq Np.dot BaseSearchClass.shift_entry nth
       Nat.eqb Nat.ltb Nat.leb Nat.sub];
  destruct INR_fact_values as (F1 & F2 & F3 & F4 & F5 & F6);
  rewrite ?F1, ?F2, ?F3, ?F4, ?F5, ?F6.

Ltac vector_eq :=
  repeat (apply (f_equal2 (@cons R)); [ field | ]); reflexivity.

Ltac matrix_eq :=
  repeat (apply (f_equal2 (@cons (list R))); [ vector_eq | ]); reflexivity.

Section ShiftTransform.
Import BaseSearchClass.
Local Open Scope R_scope.

Lemma nth_map_seq (A : Type) (f : nat -> A) (n i : nat) (d : A) :
  (i < n)%nat -> nth i (map f (seq 0 n)) d = f i.
Proof.
  intros Hi.
  rewrite (nth_indep _ d (f 0%nat))
    by (rewrite length_map, length_seq; exact Hi).
  rewrite (map_nth f (seq 0 n) 0%nat i), seq_nth by exact Hi.
  reflexivity.
Qed.

Lemma shift_matrix_entry (n : nat) (dT : R) (i j : nat) :
  (i < n)%nat -> (j < n)%nat ->
  nth j (nth i (shift_matrix n dT) []) 0 = shift_entry dT i j.
Proof.
  intros Hi Hj. unfold shift_matrix.
  rewrite (nth_map_seq _
             (fun i => map (fun j => shift_entry dT i j) (seq 0 n)))
    by exact Hi.
  apply (nth_map_seq _ (fun j => shift_entry dT i j)). exact Hj.
Qed.

Lemma INR_fact_neq_0 k : INR (fact k) <> 0.
Proof. apply not_0_INR, fact_neq_0. Qed.

(** C3, as the code has it. For every [n] and every real [dT], the entry
    [(i, j)] of [shift_matrix(n, dT)] is [dT^(j-i)/(j-i)!] on and above
    the diagonal and 0 below it, and the entries of row 0 to the right
    of the diagonal are scaled by [2*pi]; the diagonal entry [(0, 0)] is
    1, not scaled. *)
Theorem shift_matrix_entries (n : nat) (dT : R) (i j : nat) :
  (i < n)%nat -> (j < n)%nat ->
  nth j (nth i (shift_matrix n dT) []) 0 =
    if Nat.ltb j i then 0
    else if Nat.eqb i 0 && Nat.ltb 0 j
         then 2 * PI * (dT ^ (j - i) / INR (fact (j - i)))
         else dT ^ (j - i) / INR (fact (j - i)).
Proof.
  intros Hi Hj. rewrite shift_matrix_entry by assumption.
  unfold shift_entry.
  destruct (Nat.eqb_spec i j) as [->|Hne].
  - rewrite Nat.ltb_irrefl, Nat.sub_diag.
    replace (Nat.eqb j 0 && Nat.ltb 0 j) with false
      by (destruct j; reflexivity).
    simpl. field.
  - destruct (Nat.ltb_spec j i) as [Hlt|Hge]; [reflexivity|].
    destruct (Nat.eqb_spec i 0) as [->|Hi0].
    + replace (Nat.ltb 0 j) with true by (symmetry; apply Nat.ltb_lt; lia).
      simpl andb. cbv iota. field. apply INR_fact_neq_0.
    + reflexivity.
Qed.

(** The entry [(0, 1)] of the matrix of size 2 for a shift of 3. *)
Lemma shift_matrix_entries_witness :
  nth 1 (nth 0 (shift_matrix 2 3) []) 0 = 2 * PI * (3 ^ 1 / INR (fact 1)).
Proof.
  exact (shift_matrix_entries 2 3 0 1 (Nat.lt_0_succ 1)
           (Nat.lt_succ_diag_r 1)).
Defined.

(** The diagonal entry of row 0 is 1, where the specification has
    [2*pi]. *)
Lemma shift_matrix_diagonal_counterexample :
  nth 0 (nth 0 (shift_matrix 1 0) []) 0 <> claimed_shift_entry 0 0 0.
Proof.
  unfold shift_matrix, claimed_shift_entry, shift_entry. simpl.
  pose proof PI2_3_2. lra.
Qed.

(** C2. For every vector [theta] of one to seven coefficients and every
    real [dT], shifting [theta] by [dT] and the result by [-dT] gives
    [theta] back, and the product of the matrices of the two shifts is
    the identity. *)
Theorem shift_coefficients_inverse (theta : list R) (dT : R) :
  (1 <= List.length theta <= 7)%nat ->
  shift_coefficients (shift_coefficients theta dT) (- dT) = theta /\
  matmul (shift_matrix (List.length theta) dT)
         (shift_matrix (List.length theta) (- dT))
  = identity (List.length theta).
Proof.
  intros [Hlo Hhi].
  destruct theta as [|a [|b [|c [|d [|e [|f [|g [|h theta]]]]]]]];
    simpl in Hlo, Hhi; try lia; clear Hlo Hhi.
  all: split; shift_compute; [ vector_eq | matrix_eq ].
Qed.

Lemma shift_coefficients_inverse_witness :
  shift_coefficients (shift_coefficients [1; 2; 3] 5) (- 5) = [1; 2; 3] /\
  matmul (shift_matrix 3 5) (shift_matrix 3 (- 5)) = identity 3.
Proof.
  apply (shift_coefficients_inverse [1; 2; 3] 5). simpl. lia.
Defined.

(** A shift by zero changes nothing. *)
Lemma shift_coefficients_zero (theta : list R) :
  (List.length theta <= 7)%nat -> shift_coefficients theta 0 = theta.
Proof.
  intros Hhi.
  destruct theta as [|a [|b [|c [|d [|e [|f [|g [|h theta]]]]]]]];
    simpl in Hhi; try lia; clear Hhi.
  all: shift_compute; vector_eq.
Qed.

End ShiftTransform.

(** * The glitch segmentation evaluator *)

Section GlitchSegmentation.
Import BaseSearchClass SemiCoherentGlitchSearch.
Local Open Scope R_scope.
Variable twoF : fcall -> R.

Lemma Reqb_refl x : Float.Reqb x x = true.
Proof. unfold Float.Reqb. destruct (Req_dec_T x x); congruence. Qed.

(** C7. When the glitch epoch is [tend], [compute_glitch_fstat_single]
    returns the statistic of the one segment from [tstart] to [tend],
    and the evaluator is called once, for that segment. *)
Theorem glitch_at_tend_single_evaluation
  (self : SemiCoherentGlitchSearch.t)
  (F0 F1 F2 Alpha Delta delta_F0 delta_F1 : R) :
  compute_glitch_fstat_single twoF self F0 F1 F2 Alpha Delta
    delta_F0 delta_F1 (tend self)
  = Return
      (twoF (mk_fcall (tstart self) (tend self) F0 F1 F2 Alpha Delta),
       [mk_fcall (tstart self) (tend self) F0 F1 F2 Alpha Delta]).
Proof.
  unfold compute_glitch_fstat_single. simpl.
  rewrite Reqb_refl. reflexivity.
Qed.

(** The statistic returned is the sum over the calls of the evaluator,
    one call for each segment. *)
Lemma nglitch_loop_total self tb dF0s dF1s theta Alpha Delta idxs :
  forall theta_at_tref twoFSum log total log',
    nglitch_loop twoF self tb dF0s dF1s theta Alpha Delta idxs
      theta_at_tref twoFSum log = Return (total, log') ->
    exists calls,
      log' = log ++ calls /\
      List.length calls = List.length idxs /\
      total = fold_left (fun s c => s + twoF c) calls twoFSum.
Proof.
  induction idxs as [|i idxs IH]; intros th s log total log' H.
  - injection H as <- <-. exists []. rewrite app_nil_r. auto.
  - cbn [nglitch_loop] in H.
    apply bind_Return_inv in H as (ts & _ & H).
    apply bind_Return_inv in H as (te & _ & H).
    apply bind_Return_inv in H as (th' & _ & H).
    apply bind_Return_inv in H as (f0 & _ & H).
    apply bind_Return_inv in H as (f1 & _ & H).
    apply bind_Return_inv in H as (f2 & _ & H).
    apply IH in H as (calls & -> & Hlen & ->).
    exists (mk_fcall ts te f0 f1 f2 Alpha Delta :: calls).
    rewrite <- app_assoc. simpl. auto.
Qed.

Lemma nglitch_fstat_total self F0 F1 F2 Alpha Delta args total log :
  compute_nglitch_fstat twoF self F0 F1 F2 Alpha Delta args
  = Return (total, log) ->
  List.length log = (nglitch self + 1)%nat /\
  total = fold_left (fun s c => s + twoF c) log 0.
Proof.
  unfold compute_nglitch_fstat. intros H.
  apply nglitch_loop_total in H as (calls & -> & Hlen & ->).
  rewrite length_seq in Hlen. auto.
Qed.

(** With one glitch, the second segment is given the vector obtained by
    way of the end of the data, whatever the epoch of the glitch. *)
Lemma nglitch_one_glitch_pivot tref tstart tend F0 F1 F2 Alpha Delta
  delta_F0 delta_F1 tglitch :
  let self := SemiCoherentGlitchSearch.mk tref tstart tend 1 in
  compute_nglitch_fstat twoF self F0 F1 F2 Alpha Delta
    [delta_F0; delta_F1; tglitch]
  = (th <- claimed_segment_theta self tend delta_F0 delta_F1 [F0; F1; F2] ;;
     f0 <- PyList.get th 0 ;;
     f1 <- PyList.get th 1 ;;
     f2 <- PyList.get th 2 ;;
     let call0 := mk_fcall tstart tglitch F0 F1 F2 Alpha Delta in
     let call1 := mk_fcall tglitch tend f0 f1 f2 Alpha Delta in
     Return (0 + twoF call0 + twoF call1, [call0; call1]))%py.
Proof. reflexivity. Qed.

(** C1, on the search of the example: a span from 0 to 2 referred to
    time 0, one glitch at epoch 1 with a jump of 1 in the spin-down, and
    a signal with zero coefficients.  The vector handed to the evaluator
    for the segment after the glitch has the frequency [-4*pi]: it is
    shifted by way of the end of the segment, at 2.  Shifted by way of
    the epoch of the glitch, as the specification has it, it would have
    the frequency [-2*pi].  The statistic returned is the sum of the
    two statistics. *)
Theorem nglitch_segment_shifted_to_segment_end (Alpha Delta : R) :
  let call0 := mk_fcall 0 1 0 0 0 Alpha Delta in
  let call1 := mk_fcall 1 2 (- (4 * PI)) 1 0 Alpha Delta in
  compute_nglitch_fstat twoF Examples.one_glitch 0 0 0 Alpha Delta [0; 1; 1]
  = Return (0 + twoF call0 + twoF call1, [call0; call1]) /\
  claimed_segment_theta Examples.one_glitch 1 0 1 [0; 0; 0]
  = Return [- (2 * PI); 1; 0] /\
  - (4 * PI) <> - (2 * PI).
Proof.
  intros call0 call1. split; [|split].
  - unfold compute_nglitch_fstat, Examples.one_glitch.
    cbv -[IZR Rplus Rmult Rminus Ropp Rdiv Rinv PI pow INR].
    rewrite ?INR_IZR_INZ. cbn [Z.of_nat Pos.of_succ_nat Pos.succ].
    subst call0 call1.
    repeat f_equal; field.
  - unfold claimed_segment_theta, Examples.one_glitch.
    cbv -[IZR Rplus Rmult Rminus Ropp Rdiv Rinv PI pow INR].
    rewrite ?INR_IZR_INZ. cbn [Z.of_nat Pos.of_succ_nat Pos.succ].
    repeat f_equal; field.
  - pose proof PI_RGT_0. lra.
Qed.

(** [compute_glitch_fstat_single] on the same search shifts by way of
    the epoch of the glitch. *)
Lemma glitch_single_shifted_to_epoch (Alpha Delta : R) :
  compute_glitch_fstat_single twoF Examples.one_glitch 0 0 0 Alpha Delta
    0 1 1
  = Return
      (twoF (mk_fcall 0 1 0 0 0 Alpha Delta)
       + twoF (mk_fcall 1 2 (- (2 * PI)) 1 0 Alpha Delta),
       [mk_fcall 0 1 0 0 0 Alpha Delta;
        mk_fcall 1 2 (- (2 * PI)) 1 0 Alpha Delta]).
Proof.
  unfold compute_glitch_fstat_single, Examples.one_glitch.
  cbn [tref tstart tend].
  rewrite Reqb_false by lra.
  cbv -[IZR Rplus Rmult Rminus Ropp Rdiv Rinv PI pow INR].
  rewrite ?INR_IZR_INZ. cbn [Z.of_nat Pos.of_succ_nat Pos.succ].
  repeat f_equal; field.
Qed.

End GlitchSegmentation.

(** * Parameter packing *)

Section LoopFacts.
Import Packing.
Abbreviation count := (count_occ string_dec).

Lemma search_loop_eq items st :
  MCMCSearch.unpack_loop items st = loop (fun _ => 1%nat) items st.
Proof.
  revert st. induction items as [|[key val] rest IH]; intros st; [reflexivity|].
  simpl. destruct val; simpl; try reflexivity.
  - destruct (PyList.pop_key key _); simpl; auto.
  - destruct (PyList.pop_key key _); simpl; auto.
Qed.

Lemma glitch_loop_eq n items st :
  MCMCGlitchSearch.unpack_loop n items st = loop (multiplicity n) items st.
Proof.
  revert st. induction items as [|[key val] rest IH]; intros st; [reflexivity|].
  cbn [MCMCGlitchSearch.unpack_loop loop]. unfold multiplicity at 1 2.
  destruct (PyList.mem key MCMCGlitchSearch.glitch_keys);
    destruct val; cbn [bind MCMCSearch.st_theta_keys
                       MCMCSearch.st_fixed_theta_dict
                       MCMCSearch.st_full_theta_keys_copy];
    try reflexivity.
  all: try (destruct (PyList.pop_key_times n key _); cbn [bind]; auto).
  all: cbn [PyList.pop_key_times repeat]; unfold bind at 2;
    destruct (PyList.pop_key key _); cbn [bind]; auto.
Qed.

Lemma loop_recognised mult items st :
  Forall (fun kv => recognised (snd kv)) items ->
  loop mult items st =
  bind (pop_all mult (PyDict.keys items) (MCMCSearch.st_full_theta_keys_copy st))
       (fun c => Return (MCMCSearch.mk_state
          (MCMCSearch.st_theta_keys st ++ expand mult (PyDict.keys (free_items items)))
          (fixed_dict_of items (MCMCSearch.st_fixed_theta_dict st)) c)).
Proof.
  intros Hrec. revert st. induction Hrec as [|[key val] rest Hv _ IH]; intros st.
  - simpl. rewrite app_nil_r. destruct st; reflexivity.
  - simpl. destruct val; simpl.
    + destruct (PyList.pop_key_times (mult key) key _); simpl; try reflexivity.
      rewrite IH. simpl. reflexivity.
    + destruct (PyList.pop_key_times (mult key) key _); simpl; try reflexivity.
      rewrite IH. simpl. unfold expand. simpl. rewrite app_assoc. reflexivity.
    + exfalso. apply Hv. reflexivity.
Qed.

Lemma count_repeat k n k' :
  count (repeat k n) k' = if string_dec k k' then n else 0%nat.
Proof.
  induction n as [|n IH]; simpl.
  - destruct (string_dec k k'); reflexivity.
  - rewrite IH. destruct (string_dec k k'); reflexivity.
Qed.

Lemma count_expand_cons mult k ks k' :
  count (expand mult (k :: ks)) k' =
  ((if string_dec k k' then mult k else 0) + count (expand mult ks) k')%nat.
Proof.
  unfold expand. simpl. rewrite count_occ_app, count_repeat. reflexivity.
Qed.

Lemma count_expand mult ks k :
  NoDup ks ->
  count (expand mult ks) k = if in_dec string_dec k ks then mult k else 0%nat.
Proof.
  induction 1 as [|k0 ks Hnin Hnd IH].
  - reflexivity.
  - rewrite count_expand_cons, IH.
    destruct (string_dec k0 k) as [->|Hne].
    + destruct (in_dec string_dec k ks); [contradiction|].
      destruct (in_dec string_dec k (k :: ks)) as [|n']; [lia|].
      exfalso; apply n'; left; reflexivity.
    + destruct (in_dec string_dec k ks) as [Hin|Hnin'];
        destruct (in_dec string_dec k (k0 :: ks)) as [Hin'|Hnin'']; try lia.
      * exfalso; apply Hnin''; right; assumption.
      * destruct Hin'; [congruence|contradiction].
Qed.

Lemma In_expand mult ks k :
  In k (expand mult ks) <-> In k ks /\ (0 < mult k)%nat.
Proof.
  unfold expand. rewrite in_flat_map. split.
  - intros (k0 & Hin & Hrep). apply repeat_spec in Hrep as Heq. subst k0.
    split; [assumption|]. destruct (mult k); [destruct Hrep|lia].
  - intros [Hin Hpos]. exists k. split; [assumption|].
    destruct (mult k); [lia|left; reflexivity].
Qed.

Lemma pop_all_Return mult ks c c' :
  pop_all mult ks c = Return c' ->
  forall k, count c k = (count c' k + count (expand mult ks) k)%nat.
Proof.
  revert c. induction ks as [|k0 ks IH]; cbn [pop_all]; intros c H k.
  - injection H as <-. simpl. lia.
  - apply bind_Return_inv in H as (c1 & H1 & H).
    rewrite (pop_key_times_Return _ _ _ _ H1 k), (IH _ H k), count_expand_cons.
    lia.
Qed.

Lemma pop_all_enough mult ks c :
  (forall k, count (expand mult ks) k <= count c k)%nat ->
  exists c', pop_all mult ks c = Return c'.
Proof.
  revert c. induction ks as [|k0 ks IH]; cbn [pop_all]; intros c H; [eauto|].
  assert (Hk0 : (mult k0 <= count c k0)%nat).
  { specialize (H k0). rewrite count_expand_cons in H.
    destruct (string_dec k0 k0); [lia|congruence]. }
  destruct (pop_key_times_enough _ _ _ Hk0) as (c1 & H1). rewrite H1. simpl.
  apply IH. intros k. specialize (H k). rewrite count_expand_cons in H.
  rewrite (pop_key_times_Return _ _ _ _ H1 k) in H. lia.
Qed.



End LoopFacts.

Section ArgsortFacts.

Import Packing.

Lemma insert_by_fst_perm p l : Permutation (Np.insert_by_fst p l) (p :: l).
Proof.
  induction l as [|q l IH]; simpl; [reflexivity|].
  destruct (Nat.leb (fst p) (fst q)); [reflexivity|].
  rewrite IH. apply perm_swap.
Qed.

Lemma sort_by_fst_perm l : Permutation (Np.sort_by_fst l) l.
Proof.
  induction l as [|p l IH]; simpl; [reflexivity|].
  rewrite insert_by_fst_perm. apply perm_skip. exact IH.
Qed.

Lemma insert_by_fst_HdRel a p l :
  le_fst a p -> HdRel le_fst a l -> HdRel le_fst a (Np.insert_by_fst p l).
Proof.
  intros Hap Hal. destruct l as [|q l]; simpl.
  - constructor. exact Hap.
  - destruct (Nat.leb (fst p) (fst q)); constructor; [exact Hap|].
    inversion Hal. assumption.
Qed.

Lemma insert_by_fst_sorted p l :
  Sorted le_fst l -> Sorted le_fst (Np.insert_by_fst p l).
Proof.
  induction 1 as [|q l Hs IH Hhd]; simpl.
  - repeat constructor.
  - destruct (Nat.leb_spec (fst p) (fst q)) as [Hle|Hgt].
    + constructor; [constructor; assumption|]. constructor. exact Hle.
    + constructor; [exact IH|].
      apply insert_by_fst_HdRel; [unfold le_fst; lia|exact Hhd].
Qed.

Lemma sort_by_fst_sorted l : Sorted le_fst (Np.sort_by_fst l).
Proof.
  induction l as [|p l IH]; simpl; [constructor|].
  apply insert_by_fst_sorted. exact IH.
Qed.

Lemma Sorted_map_fst l : Sorted le_fst l -> Sorted le (map fst l).
Proof.
  induction 1 as [|q l Hs IH Hhd]; simpl; constructor; [exact IH|].
  destruct Hhd; simpl; constructor. assumption.
Qed.

Lemma Sorted_le_unique (l1 l2 : list nat) :
  Sorted le l1 -> Sorted le l2 -> Permutation l1 l2 -> l1 = l2.
Proof.
  intros H1 H2. apply Sorted_StronglySorted in H1; [|exact Nat.le_trans].
  apply Sorted_StronglySorted in H2; [|exact Nat.le_trans].
  revert l2 H2. induction H1 as [|a l1 Hs1 IH Ha]; intros l2 H2 Hp.
  - apply Permutation_nil in Hp. congruence.
  - destruct H2 as [|b l2 Hs2 Hb].
    + apply Permutation_sym, Permutation_nil in Hp. discriminate.
    + assert (a = b).
      { assert (In a (b :: l2)) as Hin1
          by (eapply Permutation_in; [exact Hp|left; reflexivity]).
        assert (In b (a :: l1)) as Hin2
          by (eapply Permutation_in;
              [apply Permutation_sym; exact Hp|left; reflexivity]).
        rewrite Forall_forall in Ha, Hb.
        destruct Hin1 as [->|Hin1]; [reflexivity|].
        destruct Hin2 as [->|Hin2]; [reflexivity|].
        apply Nat.le_antisymm; auto. }
      subst b. f_equal. apply IH; [exact Hs2|].
      eapply Permutation_cons_inv. exact Hp.
Qed.

Lemma combine_seq_nth (A : Type) (l : list A) s v p :
  In (v, p) (combine l (seq s (List.length l))) ->
  (s <= p)%nat /\ nth_error l (p - s) = Some v.
Proof.
  revert s. induction l as [|a l IH]; simpl; intros s Hin; [destruct Hin|].
  destruct Hin as [Heq|Hin].
  - injection Heq as -> ->. rewrite Nat.sub_diag. split; [lia|reflexivity].
  - destruct (IH _ Hin) as [Hle Hn]. split; [lia|].
    replace (p - s)%nat with (S (p - S s)) by lia. exact Hn.
Qed.

Lemma map_fst_combine_seq (A : Type) (l : list A) s :
  map fst (combine l (seq s (List.length l))) = l.
Proof.
  revert s. induction l as [|a l IH]; simpl; intros s; [reflexivity|].
  f_equal. apply IH.
Qed.

(** The pairs of the sorted array point into the array. *)
Lemma sort_by_fst_points l v p :
  In (v, p) (Np.sort_by_fst (combine l (seq 0 (List.length l)))) ->
  nth_error l p = Some v.
Proof.
  intros Hin.
  apply (Permutation_in _ (sort_by_fst_perm _)) in Hin.
  apply combine_seq_nth in Hin as [_ Hn]. rewrite Nat.sub_0_r in Hn.
  exact Hn.
Qed.

Lemma mapM_get_points (A : Type) (l : list A) (ps : list (A * nat)) :
  (forall v p, In (v, p) ps -> nth_error l p = Some v) ->
  mapM (PyList.get l) (map snd ps) = Return (map fst ps).
Proof.
  induction ps as [|[v p] ps IH]; simpl; intros H; [reflexivity|].
  unfold PyList.get at 1. rewrite (H v p) by (left; reflexivity). simpl.
  rewrite IH by (intros; apply H; right; assumption). reflexivity.
Qed.

(** Reading an array at the positions [argsort] gives sorts it. *)
Lemma argsort_sorts (l : list nat) :
  exists l', mapM (PyList.get l) (Np.argsort l) = Return l' /\
             Sorted le l' /\ Permutation l' l.
Proof.
  exists (map fst (Np.sort_by_fst (combine l (seq 0 (List.length l))))).
  split; [|split].
  - unfold Np.argsort. apply mapM_get_points. apply sort_by_fst_points.
  - apply Sorted_map_fst, sort_by_fst_sorted.
  - rewrite (sort_by_fst_perm _), map_fst_combine_seq. reflexivity.
Qed.

(** Reading a parallel list at the same positions keeps it parallel. *)
Lemma mapM_get_parallel (A : Type) (g : A -> nat) (ks : list A)
  (ps : list (nat * nat)) :
  (forall v p, In (v, p) ps -> nth_error (map g ks) p = Some v) ->
  exists ks', mapM (PyList.get ks) (map snd ps) = Return ks' /\
              map g ks' = map fst ps /\
              (forall k, In k ks' -> In k ks).
Proof.
  induction ps as [|[v p] ps IH]; simpl; intros H.
  - exists []. simpl. tauto.
  - destruct IH as (ks' & Hm & Hg & Hin).
    { intros; apply H; right; assumption. }
    pose proof (H v p (or_introl eq_refl)) as Hn.
    rewrite nth_error_map in Hn.
    destruct (nth_error ks p) as [k|] eqn:Hk; [|discriminate].
    injection Hn as <-.
    exists (k :: ks'). unfold PyList.get at 1. rewrite Hk. simpl.
    rewrite Hm. simpl. split; [reflexivity|]. split; [f_equal; exact Hg|].
    intros k' [<-|Hk']; [eapply nth_error_In; eauto|auto].
Qed.

Lemma argsort_parallel (A : Type) (g : A -> nat) (ks : list A) l' :
  mapM (PyList.get (map g ks)) (Np.argsort (map g ks)) = Return l' ->
  exists ks', mapM (PyList.get ks) (Np.argsort (map g ks)) = Return ks' /\
              map g ks' = l' /\ (forall k, In k ks' -> In k ks).
Proof.
  intros Hl'. unfold Np.argsort in *.
  destruct (mapM_get_parallel A g ks
              (Np.sort_by_fst (combine (map g ks)
                                 (seq 0 (List.length (map g ks))))))
    as (ks' & Hm & Hg & Hin).
  { apply sort_by_fst_points. }
  exists ks'. split; [exact Hm|]. split; [|exact Hin].
  rewrite mapM_get_points in Hl' by apply sort_by_fst_points.
  injection Hl' as <-. exact Hg.
Qed.

End ArgsortFacts.

Section PackingFacts.
Import Packing.
Abbreviation count := (count_occ string_dec).

Lemma index_position key l :
  In key l -> PyList.index key l = Return (position key l).
Proof.
  induction l as [|k l IH]; simpl; [intros []|].
  intros Hin. destruct (String.eqb_spec key k) as [->|Hne]; [reflexivity|].
  destruct Hin as [->|Hin]; [congruence|]. rewrite IH by assumption.
  reflexivity.
Qed.

Lemma nth_position key l :
  In key l -> nth (position key l) l ""%string = key.
Proof.
  induction l as [|k l IH]; simpl; [intros []|].
  intros Hin. destruct (String.eqb_spec key k) as [->|Hne]; [reflexivity|].
  destruct Hin as [->|Hin]; [congruence|]. apply IH. assumption.
Qed.

Lemma mapM_exists (A B : Type) (f : A -> outcome B) l :
  (forall a, In a l -> exists b, f a = Return b) ->
  exists bs, mapM f l = Return bs.
Proof.
  induction l as [|a l IH]; simpl; intros H; [eauto|].
  destruct (H a (or_introl eq_refl)) as (b & ->).
  destruct IH as (bs & ->); [intros; apply H; right; assumption|].
  simpl. eauto.
Qed.

(** ** The dictionary of fixed values *)

Lemma get_set_same (V : Type) key (v : V) d :
  PyDict.get key (PyDict.set key v d) = Return v.
Proof.
  induction d as [|[k w] d IH]; simpl.
  - rewrite String.eqb_refl. reflexivity.
  - destruct (String.eqb_spec key k) as [->|Hne]; simpl.
    + rewrite String.eqb_refl. reflexivity.
    + destruct (String.eqb_spec key k); [congruence|exact IH].
Qed.

Lemma get_set_other (V : Type) key key' (v : V) d :
  key <> key' -> PyDict.get key (PyDict.set key' v d) = PyDict.get key d.
Proof.
  intros Hne. induction d as [|[k w] d IH]; simpl.
  - destruct (String.eqb_spec key key'); [congruence|reflexivity].
  - destruct (String.eqb_spec key' k) as [->|Hne']; simpl.
    + destruct (String.eqb_spec key k); [congruence|reflexivity].
    + destruct (String.eqb_spec key k); [reflexivity|exact IH].
Qed.

Lemma keys_set_In (V : Type) key (v : V) d k :
  In k (PyDict.keys (PyDict.set key v d)) <-> k = key \/ In k (PyDict.keys d).
Proof.
  unfold PyDict.keys. induction d as [|[k0 w] d IH]; simpl.
  - intuition congruence.
  - destruct (String.eqb_spec key k0) as [->|Hne]; simpl.
    + intuition congruence.
    + rewrite IH. intuition congruence.
Qed.

Lemma wf_set (V : Type) key (v : V) d :
  PyDict.wf d -> PyDict.wf (PyDict.set key v d).
Proof.
  unfold PyDict.wf. induction d as [|[k0 w] d IH]; simpl; intros Hnd.
  - repeat constructor. intros [].
  - inversion Hnd as [|? ? Hnin Hnd']; subst.
    destruct (String.eqb_spec key k0) as [->|Hne]; simpl.
    + constructor; assumption.
    + constructor; [|apply IH; assumption].
      intros Hin. apply (keys_set_In V key v d k0) in Hin.
      destruct Hin; [congruence|contradiction].
Qed.

Lemma get_In (V : Type) key (v : V) d :
  PyDict.wf d -> In (key, v) d -> PyDict.get key d = Return v.
Proof.
  unfold PyDict.wf. induction d as [|[k w] d IH]; simpl; [intros _ []|].
  intros Hnd Hin. inversion Hnd as [|? ? Hnin Hnd']; subst.
  destruct Hin as [Heq|Hin].
  - injection Heq as -> ->. rewrite String.eqb_refl. reflexivity.
  - destruct (String.eqb_spec key k) as [->|Hne]; [|auto].
    exfalso. apply Hnin. apply (in_map fst) in Hin. exact Hin.
Qed.

Lemma get_Return_In (V : Type) key (v : V) d :
  PyDict.get key d = Return v -> In (key, v) d.
Proof.
  induction d as [|[k w] d IH]; simpl; [discriminate|].
  destruct (String.eqb_spec key k) as [->|Hne].
  - intros H; injection H as ->. left; reflexivity.
  - intros H; right; auto.
Qed.

Lemma fixed_dict_of_other items d key :
  ~ In key (PyDict.keys items) ->
  PyDict.get key (fixed_dict_of items d) = PyDict.get key d.
Proof.
  unfold fixed_dict_of. revert d.
  induction items as [|[k v] items IH]; simpl; intros d Hnin; [reflexivity|].
  rewrite IH by tauto. apply get_set_other. intros ->. tauto.
Qed.

Lemma fixed_dict_of_In items d key v :
  PyDict.wf items -> In (key, v) items ->
  PyDict.get key (fixed_dict_of items d) = Return (fixed_value v).
Proof.
  unfold PyDict.wf, fixed_dict_of. revert d.
  induction items as [|[k w] items IH]; simpl; intros d Hnd Hin;
    [destruct Hin|].
  inversion Hnd as [|? ? Hnin Hnd']; subst.
  destruct Hin as [Heq|Hin].
  - injection Heq as -> ->.
    change (PyDict.get key (fixed_dict_of items
              (PyDict.set key (fixed_value v) d)) = Return (fixed_value v)).
    rewrite fixed_dict_of_other by assumption. apply get_set_same.
  - apply IH; assumption.
Qed.

Lemma fixed_dict_of_prior_value items key :
  PyDict.wf items -> In key (PyDict.keys items) ->
  PyDict.get key (fixed_dict_of items []) = Return (prior_value items key).
Proof.
  intros Hwf Hin. unfold PyDict.keys in Hin. apply in_map_iff in Hin.
  destruct Hin as ([k v] & Hk & Hin). simpl in Hk. subst k.
  unfold prior_value. rewrite (get_In _ key v items Hwf Hin).
  apply fixed_dict_of_In; assumption.
Qed.

(** ** The part after the loop *)

Lemma finish_unpack_missing full st :
  MCMCSearch.st_full_theta_keys_copy st <> [] ->
  MCMCSearch.finish_unpack full st
  = Raise (ValueError_missing (MCMCSearch.st_full_theta_keys_copy st)).
Proof.
  intros Hne. unfold MCMCSearch.finish_unpack.
  destruct (MCMCSearch.st_full_theta_keys_copy st); [congruence|reflexivity].
Qed.

Lemma finish_unpack_Return full st :
  MCMCSearch.st_full_theta_keys_copy st = [] ->
  (forall k, In k full ->
     exists x, PyDict.get k (MCMCSearch.st_fixed_theta_dict st) = Return x) ->
  (forall k, In k (MCMCSearch.st_theta_keys st) -> In k full) ->
  exists l,
    MCMCSearch.finish_unpack full st = Return l /\
    Sorted le (theta_idxs l) /\
    Permutation (theta_idxs l)
      (map (fun k => position k full) (MCMCSearch.st_theta_keys st)) /\
    map (fun k => position k full) (theta_keys l) = theta_idxs l /\
    (forall k, In k (theta_keys l) -> In k (MCMCSearch.st_theta_keys st)) /\
    mapM (fun key => PyDict.get key (MCMCSearch.st_fixed_theta_dict st)) full
    = Return (fixed_theta l).
Proof.
  intros Hcopy Hfixed Hkeys. unfold MCMCSearch.finish_unpack.
  rewrite Hcopy. simpl.
  destruct (mapM_exists _ _ _ full Hfixed) as (fixed & Hf). rewrite Hf. simpl.
  rewrite (mapM_total _ _ _ (fun k => position k full))
    by (intros; apply index_position; auto).
  simpl.
  destruct (argsort_sorts (map (fun k => position k full)
                             (MCMCSearch.st_theta_keys st)))
    as (idxs' & Hi & Hs & Hp).
  rewrite Hi. simpl.
  destruct (argsort_parallel _ _ _ _ Hi) as (ks' & Hk & Hg & Hin).
  rewrite Hk. simpl.
  eexists. split; [reflexivity|]. simpl. auto.
Qed.

End PackingFacts.

Section RunFacts.
Import Packing.
Abbreviation count := (count_occ string_dec).

Variable mult : string -> nat.
Variable canon : list string.
Variable items : PyDict.t pyval.
Hypothesis canon_nodup : NoDup canon.
Hypothesis items_wf : PyDict.wf items.
Hypothesis items_recognised : Forall (fun kv => recognised (snd kv)) items.

Let full := expand mult canon.
Let supplied := expand mult (PyDict.keys items).

Lemma count_supplied k :
  count supplied k =
  if in_dec string_dec k (PyDict.keys items) then mult k else 0%nat.
Proof. apply count_expand. exact items_wf. Qed.

Lemma count_full k :
  count full k = if in_dec string_dec k canon then mult k else 0%nat.
Proof. apply count_expand. exact canon_nodup. Qed.

Lemma same_keys_counts :
  same_keys supplied full -> forall k, count supplied k = count full k.
Proof.
  intros Hsame k. rewrite count_supplied, count_full.
  destruct (in_dec string_dec k (PyDict.keys items)) as [Hs|Hs];
    destruct (in_dec string_dec k canon) as [Hc|Hc]; try reflexivity.
  - destruct (mult k) as [|m] eqn:Hm; [reflexivity|].
    exfalso. apply Hc.
    assert (In k full) as Hin
      by (apply Hsame, (proj2 (In_expand _ _ _)); split; [assumption|lia]).
    apply (proj1 (In_expand _ _ _)) in Hin. tauto.
  - destruct (mult k) as [|m] eqn:Hm; [reflexivity|].
    exfalso. apply Hs.
    assert (In k supplied) as Hin
      by (apply Hsame, (proj2 (In_expand _ _ _)); split; [assumption|lia]).
    apply (proj1 (In_expand _ _ _)) in Hin. tauto.
Qed.

Lemma counts_same_keys :
  (forall k, count supplied k = count full k) -> same_keys supplied full.
Proof.
  intros H k. rewrite !(count_occ_In string_dec), H. reflexivity.
Qed.


Lemma free_keys_supplied k :
  In k (expand mult (PyDict.keys (free_items items))) -> In k supplied.
Proof.
  unfold supplied. rewrite !In_expand. intros [Hin Hpos]. split; [|exact Hpos].
  unfold PyDict.keys, free_items in *. apply in_map_iff in Hin.
  destruct Hin as (kv & <- & Hin). apply filter_In in Hin as [Hin _].
  apply in_map. exact Hin.
Qed.

Lemma run_unfold :
  run mult full items =
  bind (pop_all mult (PyDict.keys items) full)
       (fun c => MCMCSearch.finish_unpack full
          (MCMCSearch.mk_state
             (expand mult (PyDict.keys (free_items items)))
             (fixed_dict_of items []) c)).
Proof.
  unfold run. rewrite loop_recognised by exact items_recognised.
  simpl. destruct (pop_all mult (PyDict.keys items) full); reflexivity.
Qed.

(** The prior with the keys of the canonical list is unpacked. *)
Lemma run_same_keys :
  same_keys supplied full ->
  exists l,
    run mult full items = Return l /\
    Sorted le (theta_idxs l) /\
    Permutation (theta_idxs l)
      (map (fun k => position k full)
           (expand mult (PyDict.keys (free_items items)))) /\
    map (fun k => position k full) (theta_keys l) = theta_idxs l /\
    (forall k, In k (theta_keys l) ->
               In k (expand mult (PyDict.keys (free_items items)))) /\
    fixed_theta l = map (prior_value items) full.
Proof.
  intros Hsame. pose proof (same_keys_counts Hsame) as Hc.
  destruct (pop_all_enough mult (PyDict.keys items) full) as (c & Hpop).
  { intros k. fold supplied. rewrite Hc. lia. }
  assert (c = []) as ->.
  { apply (count_occ_inv_nil string_dec). intros k.
    pose proof (pop_all_Return _ _ _ _ Hpop k) as H. fold supplied in H.
    rewrite <- Hc in H. lia. }
  rewrite run_unfold, Hpop. simpl.
  destruct (finish_unpack_Return full
              (MCMCSearch.mk_state
                 (expand mult (PyDict.keys (free_items items)))
                 (fixed_dict_of items []) []))
    as (l & Hl & Hs & Hp & Hg & Hin & Hf).
  - reflexivity.
  - simpl. intros k Hk. exists (prior_value items k).
    apply fixed_dict_of_prior_value; [exact items_wf|].
    apply Hsame in Hk. apply (proj1 (In_expand _ _ _)) in Hk. tauto.
  - simpl. intros k Hk. apply Hsame, free_keys_supplied, Hk.
  - exists l. simpl in *. repeat (split; [assumption|]).
    rewrite (mapM_total _ _ _ (prior_value items)) in Hf.
    + injection Hf as <-. reflexivity.
    + intros k Hk. apply fixed_dict_of_prior_value; [exact items_wf|].
      apply Hsame in Hk. apply (proj1 (In_expand _ _ _)) in Hk. tauto.
Qed.


(** Conversely, only such a prior is unpacked. *)
Lemma run_Return_same_keys l :
  run mult full items = Return l -> same_keys supplied full.
Proof.
  rewrite run_unfold. intros H.
  apply bind_Return_inv in H as (c & Hpop & Hfin).
  destruct c as [|k0 c].
  - apply counts_same_keys. intros k.
    pose proof (pop_all_Return _ _ _ _ Hpop k) as Hc. simpl in Hc.
    fold supplied in Hc. lia.
  - rewrite finish_unpack_missing in Hfin by discriminate. discriminate.
Qed.


End RunFacts.

Section UnpackFacts.
Import Packing.

Lemma bind_assoc (A B C : Type) (m : outcome A) (f : A -> outcome B)
  (g : B -> outcome C) :
  bind (bind m f) g = bind m (fun a => bind (f a) g).
Proof. destruct m; reflexivity. Qed.

Lemma expand_one l : expand (fun _ => 1%nat) l = l.
Proof.
  unfold expand. induction l as [|k l IH]; simpl; [reflexivity|].
  f_equal. exact IH.
Qed.

Lemma full_glitch_keys_expand n :
  MCMCGlitchSearch.full_theta_keys n
  = expand (multiplicity n) glitch_prior_keys.
Proof. reflexivity. Qed.

Lemma glitch_prior_keys_nodup : NoDup glitch_prior_keys.
Proof.
  unfold glitch_prior_keys. simpl.
  repeat (constructor; [simpl; intuition discriminate|]). constructor.
Qed.

Lemma search_keys_nodup binary : NoDup (MCMCSearch.full_theta_keys binary).
Proof.
  destruct binary; simpl;
    repeat (constructor; [simpl; intuition discriminate|]); constructor.
Qed.

Lemma search_unpack_run binary prior :
  MCMCSearch.unpack_input_theta binary prior
  = run (fun _ => 1%nat)
        (expand (fun _ => 1%nat) (MCMCSearch.full_theta_keys binary)) prior.
Proof.
  unfold MCMCSearch.unpack_input_theta, run.
  rewrite expand_one, search_loop_eq. reflexivity.
Qed.

Lemma glitch_unpack_run fuel n prior :
  MCMCGlitchSearch.unpack_input_theta fuel n prior
  = bind (run (multiplicity n) (expand (multiplicity n) glitch_prior_keys)
              prior)
         (fun l => bind (MCMCGlitchSearch.bump_loop fuel (theta_idxs l))
                        (fun idxs => Return (mk_layout (theta_keys l) idxs
                                               (fixed_theta l)))).
Proof.
  unfold MCMCGlitchSearch.unpack_input_theta, run.
  rewrite <- full_glitch_keys_expand, glitch_loop_eq, bind_assoc.
  reflexivity.
Qed.


Lemma loop_Return_recognised mult items st st' :
  loop mult items st = Return st' ->
  Forall (fun kv => recognised (snd kv)) items.
Proof.
  revert st. induction items as [|[key val] rest IH]; intros st H.
  - constructor.
  - cbn [loop] in H. apply bind_Return_inv in H as (st1 & H1 & H).
    apply bind_Return_inv in H as (c & _ & H).
    constructor; [|eapply IH; exact H].
    simpl. intros ->. discriminate.
Qed.

Lemma run_Return_recognised mult full items l :
  run mult full items = Return l ->
  Forall (fun kv => recognised (snd kv)) items.
Proof.
  unfold run. intros H. apply bind_Return_inv in H as (st & H & _).
  eapply loop_Return_recognised. exact H.
Qed.

End UnpackFacts.

(** ** Completeness of the layout *)

Section LayoutCompleteness.
Import Packing.


(** With a key that is foreign to the canonical list, the error does not
    name the key that is missing: [list.index] raises in the loop, for
    the foreign key. *)
Lemma unpack_foreign_key_counterexample :
  MCMCSearch.unpack_input_theta false prior_with_foreign_key
  = Raise (ValueError_index "F3") /\
  In "F2"%string (MCMCSearch.full_theta_keys false) /\
  ~ In "F2"%string (PyDict.keys prior_with_foreign_key).
Proof.
  split; [reflexivity|]. split; [simpl; tauto|].
  simpl. intuition discriminate.
Qed.








(** The error names [F2]. *)
Lemma unpack_without_F2 :
  MCMCSearch.unpack_input_theta false prior_without_F2
  = Raise (ValueError_missing ["F2"%string]).
Proof. reflexivity. Qed.

End LayoutCompleteness.

(** ** Indices of repeated keys *)

Section IndexDecollision.
Import Packing.

Lemma Permutation_filter (A : Type) (f : A -> bool) (l l' : list A) :
  Permutation l l' -> Permutation (filter f l) (filter f l').
Proof.
  induction 1 as [|x l l' _ IH|x y l|l l' l'' _ IH1 _ IH2]; simpl.
  - constructor.
  - destruct (f x); [apply perm_skip|]; exact IH.
  - destruct (f x), (f y); try reflexivity. apply perm_swap.
  - etransitivity; eassumption.
Qed.

Lemma map_nth_position full ks :
  (forall k, In k ks -> In k full) ->
  map (fun i => nth i full ""%string) (map (fun k => position k full) ks) = ks.
Proof.
  induction ks as [|k ks IH]; simpl; intros H; [reflexivity|].
  rewrite nth_position by (apply H; left; reflexivity).
  f_equal. apply IH. intros; apply H; right; assumption.
Qed.

Lemma bump_loop_done fuel idxs :
  MCMCGlitchSearch.has_adjacent_equal idxs = false ->
  MCMCGlitchSearch.bump_loop fuel idxs = Return idxs.
Proof. intros H. destruct fuel; simpl; rewrite H; reflexivity. Qed.

Ltac sorted_le := repeat (constructor; try lia).

(** C8. For two glitches and a prior with the eight keys of the glitch
    search, in any order, in which [tglitch] is free: with fuel for one
    turn of the loop or more, [unpack_input_theta] returns; the indices
    of the layout are strictly increasing, so no two are equal; and the
    two indices that belong to [tglitch] are 9 and 10. *)
Theorem glitch_indices_distinct (prior : PyDict.t pyval)
  (v0 v1 v2 v3 v4 v5 v6 : pyval) (kw : kwargs) (fuel : nat) :
  Forall recognised [v0; v1; v2; v3; v4; v5; v6] ->
  Permutation prior
    [("F0", v0); ("F1", v1); ("F2", v2); ("Alpha", v3); ("Delta", v4);
     ("delta_F0", v5); ("delta_F1", v6); ("tglitch", PyDictV kw)]%string ->
  (1 <= fuel)%nat ->
  exists l,
    MCMCGlitchSearch.unpack_input_theta fuel 2 prior = Return l /\
    StronglySorted lt (theta_idxs l) /\
    NoDup (theta_idxs l) /\
    entries_of "tglitch" l = [9; 10]%nat.
Proof.
  intros Hv Hperm Hfuel.
  set (items := [("F0", v0); ("F1", v1); ("F2", v2); ("Alpha", v3);
                 ("Delta", v4); ("delta_F0", v5); ("delta_F1", v6);
                 ("tglitch", PyDictV kw)]%string) in *.
  assert (Hkeys : Permutation (PyDict.keys prior) glitch_prior_keys)
    by (apply (Permutation_map fst) in Hperm; exact Hperm).
  assert (Hwf : PyDict.wf prior).
  { unfold PyDict.wf. eapply Permutation_NoDup;
      [apply Permutation_sym; exact Hkeys|apply glitch_prior_keys_nodup]. }
  assert (Hrec : Forall (fun kv => recognised (snd kv)) prior).
  { eapply Permutation_Forall; [apply Permutation_sym; exact Hperm|].
    repeat match goal with
           | H : Forall _ (_ :: _) |- _ => inversion H; clear H; subst
           end.
    unfold items. repeat (constructor; [simpl; try assumption|]).
    - discriminate.
    - constructor. }
  assert (Hsame : same_keys (expand (multiplicity 2) (PyDict.keys prior))
                            (expand (multiplicity 2) glitch_prior_keys)).
  { assert (Hp : Permutation (expand (multiplicity 2) (PyDict.keys prior))
                             (expand (multiplicity 2) glitch_prior_keys))
      by (apply Permutation_flat_map; exact Hkeys).
    intros k. split; intros Hin.
    - eapply Permutation_in; [exact Hp|exact Hin].
    - eapply Permutation_in; [apply Permutation_sym; exact Hp|exact Hin]. }
  destruct (run_same_keys (multiplicity 2) glitch_prior_keys prior
              glitch_prior_keys_nodup Hwf Hrec Hsame)
    as (l0 & Hl & Hs & Hp & Hg & Hin & _).
  assert (HpC : Permutation (theta_idxs l0)
                  (map (fun k => position k
                                   (expand (multiplicity 2) glitch_prior_keys))
                       (expand (multiplicity 2)
                               (PyDict.keys (free_items items))))).
  { etransitivity; [exact Hp|]. apply Permutation_map, Permutation_flat_map.
    apply Permutation_map, Permutation_filter. exact Hperm. }
  assert (Hk : theta_keys l0
               = map (fun i => nth i (expand (multiplicity 2)
                                        glitch_prior_keys) ""%string)
                     (theta_idxs l0)).
  { rewrite <- Hg. symmetry. apply map_nth_position.
    intros k Hk. apply Hsame.
    apply (free_keys_supplied (multiplicity 2) prior k), Hin, Hk. }
  rewrite glitch_unpack_run, Hl. cbn [bind].
  clear Hl Hp Hg Hin Hsame Hrec Hwf Hkeys Hperm.
  destruct fuel as [|fuel]; [lia|]. clear Hfuel.
  unfold entries_of.
  repeat match goal with
         | H : Forall _ (_ :: _) |- _ => inversion H; clear H; subst
         end.
  unfold items in HpC. clear items.
  unfold recognised in *.
  destruct v0; try congruence; destruct v1; try congruence;
  destruct v2; try congruence; destruct v3; try congruence;
  destruct v4; try congruence; destruct v5; try congruence;
  destruct v6; try congruence.
  all: cbv in HpC.
  all: match type of HpC with
       | Permutation _ ?C =>
           assert (HC : theta_idxs l0 = C)
             by (apply Sorted_le_unique; [exact Hs|sorted_le|exact HpC])
       end.
  all: rewrite Hk, HC; cbn [MCMCGlitchSearch.bump_loop
                             MCMCGlitchSearch.has_adjacent_equal
                             Nat.eqb orb];
    cbn [MCMCGlitchSearch.bump_pass existsb Nat.eqb orb app];
    rewrite bump_loop_done by reflexivity; cbn [bind].
  all: eexists; split; [reflexivity|]; cbn [theta_idxs theta_keys].
  all: split; [repeat (constructor; try lia)|].
  all: split; [repeat (constructor; [simpl; lia|]); constructor|].
  all: reflexivity.
Qed.

Lemma glitch_indices_distinct_witness :
  exists l,
    MCMCGlitchSearch.unpack_input_theta 1 2 two_glitch_prior = Return l /\
    StronglySorted lt (theta_idxs l) /\
    NoDup (theta_idxs l) /\
    entries_of "tglitch" l = [9; 10]%nat.
Proof.
  apply (glitch_indices_distinct two_glitch_prior
           (PyNum 30) (PyNum 0) (PyNum 0) (PyNum 0) (PyNum 0) (PyNum 0)
           (PyNum 0)
           (mk_kwargs "unif" [("lower", 0); ("upper", 100)]%string%R) 1).
  - repeat (constructor; [discriminate|]). constructor.
  - unfold two_glitch_prior.
    exact (Permutation_cons_append
             [("F0", PyNum 30); ("F1", PyNum 0); ("F2", PyNum 0);
              ("Alpha", PyNum 0); ("Delta", PyNum 0); ("delta_F0", PyNum 0);
              ("delta_F1", PyNum 0)]%string%R _).
  - lia.
Defined.

End IndexDecollision.

(** ** The constructors *)

Section Construction.
Import Packing.

Lemma wf_In_unique (V : Type) (d : PyDict.t V) key (v v' : V) :
  PyDict.wf d -> In (key, v) d -> In (key, v') d -> v = v'.
Proof.
  intros Hwf H1 H2. apply (get_In _ _ _ _ Hwf) in H1.
  apply (get_In _ _ _ _ Hwf) in H2. congruence.
Qed.

(** A key bound to a number in the prior is not a free parameter of the
    layout, and the fixed vector holds the number. *)
Lemma search_unpack_fixed binary prior l key x :
  PyDict.wf prior ->
  PyDict.get key prior = Return (PyNum x) ->
  MCMCSearch.unpack_input_theta binary prior = Return l ->
  ~ In key (theta_keys l) /\
  fixed_theta l = map (prior_value prior) (MCMCSearch.full_theta_keys binary).
Proof.
  intros Hwf Hget Hl. rewrite search_unpack_run in Hl.
  pose proof (run_Return_recognised _ _ _ _ Hl) as Hrec.
  pose proof (search_keys_nodup binary) as Hnd.
  destruct (run_same_keys (fun _ => 1%nat) (MCMCSearch.full_theta_keys binary)
              prior Hnd Hwf Hrec) as (l' & Hl' & _ & _ & _ & Hin & Hf).
  { exact (run_Return_same_keys _ _ _ Hrec _ Hl). }
  assert (l' = l) as -> by congruence.
  rewrite expand_one in Hf. split; [|exact Hf].
  intros Hk. apply Hin in Hk. rewrite expand_one in Hk.
  unfold PyDict.keys, free_items in Hk. apply in_map_iff in Hk.
  destruct Hk as ([k v] & Hkv & Hfil). simpl in Hkv. subst k.
  apply filter_In in Hfil as [Hfil Hdict]. simpl in Hdict.
  apply get_Return_In in Hget.
  rewrite (wf_In_unique _ _ _ _ _ Hwf Hfil Hget) in Hdict. discriminate.
Qed.

Lemma glitch_keys_without_epochs nglitch :
  ~ In "tstart"%string (MCMCGlitchSearch.full_theta_keys nglitch) /\
  ~ In "tend"%string (MCMCGlitchSearch.full_theta_keys nglitch).
Proof.
  rewrite full_glitch_keys_expand. split; intros H;
    apply (proj1 (In_expand _ _ _)) in H as [H _]; simpl in H;
    intuition discriminate.
Qed.

(** C10. The constructor of [MCMCSearch] writes [tstart] and [tend],
    bound to its two arguments, into the dictionary of the caller before
    it unpacks it; the canonical list of the isolated search is
    [tstart, tend, F0, F1, F2, Alpha, Delta]; in the layout of a search
    that was constructed the two keys are not free and the fixed vector
    starts with the two arguments.  The constructor of
    [MCMCGlitchSearch] leaves the heap as it is, and its canonical list
    holds neither key. *)
Theorem search_init_writes_epochs (h : heap) (r : ref)
  (d : PyDict.t pyval) (tstart tend : R) :
  h r = Some d ->
  PyDict.wf d ->
  let d' :=
    PyDict.set "tend" (PyNum tend) (PyDict.set "tstart" (PyNum tstart) d) in
  (forall binary,
     fst (MCMCSearch.__init__ h r tstart tend binary) r = Some d' /\
     (forall obj,
        snd (MCMCSearch.__init__ h r tstart tend binary) = Return obj ->
        ~ In "tstart"%string (theta_keys (MCMCSearch.the_layout obj)) /\
        ~ In "tend"%string (theta_keys (MCMCSearch.the_layout obj)) /\
        nth_error (fixed_theta (MCMCSearch.the_layout obj)) 0 = Some tstart /\
        nth_error (fixed_theta (MCMCSearch.the_layout obj)) 1 = Some tend)) /\
  PyDict.get "tstart" d' = Return (PyNum tstart) /\
  PyDict.get "tend" d' = Return (PyNum tend) /\
  MCMCSearch.full_theta_keys false
  = ["tstart"; "tend"; "F0"; "F1"; "F2"; "Alpha"; "Delta"]%string /\
  (forall fuel nglitch dtglitchmin,
     fst (MCMCGlitchSearch.__init__ fuel h r tstart tend nglitch dtglitchmin) = h
     /\
     ~ In "tstart"%string (MCMCGlitchSearch.full_theta_keys nglitch) /\
     ~ In "tend"%string (MCMCGlitchSearch.full_theta_keys nglitch)).
Proof.
  intros Hr Hwf d'.
  assert (Hts : PyDict.get "tstart" d' = Return (PyNum tstart)).
  { unfold d'. rewrite get_set_other by discriminate. apply get_set_same. }
  assert (Hte : PyDict.get "tend" d' = Return (PyNum tend))
    by apply get_set_same.
  assert (Hwf' : PyDict.wf d') by (unfold d'; repeat apply wf_set; exact Hwf).
  split; [|split; [exact Hts|split; [exact Hte|split; [reflexivity|]]]].
  - intros binary. unfold MCMCSearch.__init__. rewrite Hr. cbn [fst snd].
    split.
    + unfold heap_set. rewrite Nat.eqb_refl. reflexivity.
    + fold d'. intros obj Hobj.
      apply bind_Return_inv in Hobj as (l & Hl & Hobj).
      injection Hobj as <-. cbn [MCMCSearch.the_layout].
      destruct (search_unpack_fixed binary d' l _ _ Hwf' Hts Hl) as [H1 Hf].
      destruct (search_unpack_fixed binary d' l _ _ Hwf' Hte Hl) as [H2 _].
      split; [exact H1|split; [exact H2|]]. rewrite Hf.
      unfold prior_value. destruct binary; simpl; rewrite Hts, Hte; auto.
  - intros fuel nglitch dtglitchmin. split.
    + unfold MCMCGlitchSearch.__init__. rewrite Hr. reflexivity.
    + apply glitch_keys_without_epochs.
Qed.

Lemma search_init_writes_epochs_witness :
  fst (MCMCSearch.__init__ caller_heap 0 5 10 false) 0%nat
  = Some (PyDict.set "tend" (PyNum 10)
            (PyDict.set "tstart" (PyNum 5) caller_prior)).
Proof.
  refine (proj1 (proj1 (search_init_writes_epochs caller_heap 0 caller_prior
                          5 10 _ _) false)).
  - reflexivity.
  - unfold PyDict.wf. simpl.
    repeat (constructor; [simpl; intuition discriminate|]). constructor.
Defined.

(** The constructor on the heap of the example: the caller's [tstart] is
    overwritten, and [F0] is the one free parameter. *)
Lemma search_init_example :
  snd (MCMCSearch.__init__ caller_heap 0 5 10 false)
  = Return
      (MCMCSearch.mk 0 5 10 false
         (mk_layout ["F0"%string] [2%nat] [5; 10; 0; 0; 0; 0; 0]%R) 1).
Proof. reflexivity. Qed.

End Construction.

(** * The prior kernel *)

Section PriorRejection.
Import MCMCGlitchSearch.
Local Open Scope R_scope.

Lemma slice_from_last_two (pre : list R) (t1 t2 : R) :
  PyList.slice_from (-2) (pre ++ [t1; t2]) = [t1; t2].
Proof.
  unfold PyList.slice_from, PyList.clamp. rewrite length_app. simpl List.length.
  replace (-2 <? 0)%Z with true by reflexivity.
  replace (Z.to_nat (Z.max 0 (-2 + Z.of_nat (List.length pre + 2))))
    with (List.length pre + 0)%nat by lia.
  rewrite skipn_app, skipn_all2 by lia.
  replace (List.length pre + 0 - List.length pre)%nat with 0%nat by lia.
  reflexivity.
Qed.

(** For a Python list of proposed values the two checks reject every
    pair of epochs that is not admissible. *)
Lemma logp_rejects_disorder_in_a_list
  (tstart tend dtglitchmin t1 t2 : R) (pre : list R)
  (theta_prior : PyDict.t pyval) (theta_keys : list string) :
  0 < dtglitchmin ->
  ~ epochs_admissible tstart tend dtglitchmin t1 t2 ->
  logp tstart tend 2 dtglitchmin (PyListV (pre ++ [t1; t2]))
       theta_prior theta_keys
  = Return NegInf.
Proof.
  intros Hpos Hbad. unfold logp, glitch_epochs.
  cbn [Nat.ltb Nat.leb Z.of_nat Pos.of_succ_nat Pos.succ Z.opp
       seq_slice_from seq_add bind].
  rewrite slice_from_last_two. cbn [app elements bind].
  destruct (negb _); [reflexivity|].
  cbn [Np.diff existsb]. unfold Float.Rltb.
  destruct (Rlt_dec (t1 - tstart) dtglitchmin); [reflexivity|].
  destruct (Rlt_dec (t2 - t1) dtglitchmin); [reflexivity|].
  destruct (Rlt_dec (tend - t2) dtglitchmin); [reflexivity|].
  exfalso. apply Hbad. unfold epochs_admissible. lra.
Qed.

(** C4, on a numpy array of proposed values: a span from 0 to 100, a
    least duration of 10, and the glitch epochs 1 and 50, the first of
    them less than the least duration after the start.  The pair is not
    admissible, and [logp] returns the sum of the two uniform
    log-densities, not minus infinity: the sum of the list [[tstart]]
    and an array is taken element by element, so that [ts] holds the
    two shifted epochs only and the gaps to [tstart] and [tend] are not
    tested. *)
Theorem logp_accepts_epoch_near_tstart :
  logp 0 100 2 10 (NdArray [1; 50]) Packing.two_glitch_prior
       ["tglitch"; "tglitch"]%string
  = Return (Fin (0 + - ln (100 - 0) + - ln (100 - 0))) /\
  ~ epochs_admissible 0 100 10 1 50.
Proof.
  split.
  - unfold logp, glitch_epochs.
    cbn [Nat.ltb Nat.leb Z.of_nat Pos.of_succ_nat Pos.succ Z.opp
         seq_slice_from].
    pose proof (slice_from_last_two [] 1 50) as Hslice.
    cbn [app] in Hslice. rewrite Hslice. clear Hslice.
    cbv -[IZR Rplus Rmult Rminus Ropp Rdiv Rinv ln
          Float.Rltb Float.Rleb Float.Reqb].
    real_tests. cbv -[IZR Rplus Rmult Rminus Ropp Rdiv Rinv ln
          Float.Rltb Float.Rleb Float.Reqb].
    real_tests. reflexivity.
  - unfold epochs_admissible. lra.
Qed.

End PriorRejection.

(** * The sample of maximal statistic *)

Section MaxStatistic.
Import MCMCSearch.
Local Open Scope R_scope.

Lemma argmax_from_spec l :
  forall best vbest i,
    let j := argmax_from best vbest i l in
    (j = best /\ forall x, In x l -> x <= vbest) \/
    (exists k m, j = (i + k)%nat /\ nth_error l k = Some m /\
                 vbest < m /\ forall x, In x l -> x <= m).
Proof.
  induction l as [|x l IH]; intros best vbest i; simpl.
  - left. split; [reflexivity|]. intros x [].
  - unfold Float.Rltb. destruct (Rlt_dec vbest x) as [Hlt|Hge].
    + right.
      destruct (IH i x (S i))
        as [[Hj Hmax]|(k & m & Hj & Hn & Hm & Hmax)].
      * exists 0%nat, x. rewrite Hj. split; [lia|]. split; [reflexivity|].
        split; [exact Hlt|]. intros y [<-|Hy]; [lra|auto].
      * exists (S k), m. rewrite Hj. split; [lia|]. split; [exact Hn|].
        split; [lra|]. intros y [<-|Hy]; [lra|auto].
    + destruct (IH best vbest (S i))
        as [[Hj Hmax]|(k & m & Hj & Hn & Hm & Hmax)].
      * left. split; [exact Hj|]. intros y [<-|Hy]; [lra|auto].
      * right. exists (S k), m. rewrite Hj. split; [lia|].
        split; [exact Hn|].
        split; [exact Hm|]. intros y [<-|Hy]; [lra|auto].
Qed.

Lemma nanargmax_max l j :
  nanargmax l = Return j ->
  exists m, nth_error l j = Some m /\ forall x, In x l -> x <= m.
Proof.
  destruct l as [|x l]; simpl; [discriminate|]. intros H. injection H as <-.
  destruct (argmax_from_spec l 0%nat x 1%nat)
    as [[-> Hmax]|(k & m & -> & Hn & Hm & Hmax)].
  - exists x. split; [reflexivity|]. intros y [<-|Hy]; [lra|auto].
  - exists m. split; [exact Hn|]. intros y [<-|Hy]; [lra|auto].
Qed.

Lemma finite_values_Fin xs : finite_values (map Fin xs) = xs.
Proof.
  unfold finite_values. induction xs as [|x xs IH]; simpl; [reflexivity|].
  f_equal. exact IH.
Qed.

(** When every log-likelihood is finite, the value reported is their
    maximum. *)
Lemma get_max_twoF_all_finite strict xs samples theta_keys threshold d v :
  get_max_twoF strict (map Fin xs) samples theta_keys threshold
  = Return (d, v) ->
  exists m, v = Fin m /\ is_max_finite (map Fin xs) m.
Proof.
  unfold get_max_twoF. rewrite finite_values_Fin. intros H.
  apply bind_Return_inv in H as (jmax & Hj & H).
  apply bind_Return_inv in H as (maxtwoF & Hm & H).
  apply bind_Return_inv in H as (d' & _ & H). injection H as _ <-.
  destruct (nanargmax_max _ _ Hj) as (m & Hn & Hmax).
  unfold PyList.get in Hm. rewrite nth_error_map, Hn in Hm. simpl in Hm.
  injection Hm as <-. exists m. split; [reflexivity|]. split.
  - apply in_map. eapply nth_error_In. exact Hn.
  - intros x Hx. apply in_map_iff in Hx as (y & Hy & Hin).
    injection Hy as ->. auto.
Qed.

Ltac max_twoF_compute :=
  cbv -[IZR Rplus Rmult Rminus Ropp Rdiv Rinv Rabs Float.std
        Float.Rltb Float.Rleb Float.Reqb];
  real_tests.

(** C6, on the samples of the example: the log-likelihoods are minus
    infinity, 1 and 5, for the samples 10, 20 and 30 of the one free
    parameter.  The largest finite log-likelihood is 5, of the sample
    30.  [get_max_twoF] reports the sample 20 and the value 1: the
    position of the maximum among the finite values is used as a
    position among all the values.  The standard deviation is taken
    over the sample 10 alone, or the call raises [IndexError] where
    numpy refuses a mask shorter than the array. *)
Theorem get_max_twoF_misses_maximum :
  get_max_twoF false Examples.lnlikes Examples.samples ["F0"%string] 0.05
  = Return ([("F0"%string, Fin 20); ("F0_std"%string, Float.std [10])],
            Fin 1) /\
  get_max_twoF true Examples.lnlikes Examples.samples ["F0"%string] 0.05
  = Raise IndexError /\
  is_max_finite Examples.lnlikes 5 /\
  nth_error Examples.lnlikes 2 = Some (Fin 5) /\
  nth_error Examples.samples 2 = Some [30].
Proof.
  split; [|split; [|split; [|split]]].
  - unfold get_max_twoF, Examples.lnlikes, Examples.samples.
    do 3 max_twoF_compute. reflexivity.
  - unfold get_max_twoF, Examples.lnlikes, Examples.samples.
    do 3 max_twoF_compute. reflexivity.
  - unfold is_max_finite, Examples.lnlikes. split.
    + simpl. auto.
    + intros x [H|[H|[H|[]]]]; try discriminate; injection H as <-; lra.
  - reflexivity.
  - reflexivity.
Qed.

End MaxStatistic.

(** ** The grid *)

Section GridEnumeration.
Import GridSearch PrimFloat.


Lemma product_In (A : Type) (arrays : list (list A)) (row : list A) :
  In row (product arrays) <-> Forall2 (@In A) row arrays.
Proof.
  revert row. induction arrays as [|a rest IH]; simpl; intros row.
  - split.
    + intros [<-|[]]. constructor.
    + intros H. inversion H. left; reflexivity.
  - rewrite in_flat_map. split.
    + intros (x & Hx & Hrow). apply in_map_iff in Hrow.
      destruct Hrow as (r & <- & Hr). constructor; [exact Hx|].
      apply IH. exact Hr.
    + intros H. inversion H as [|x a' r rest' Hx Hr]; subst.
      exists x. split; [exact Hx|]. apply in_map. apply IH. exact Hr.
Qed.








End GridEnumeration.

(** ** Further properties of the shift *)

Section ShiftMore.
Import BaseSearchClass.
Local Open Scope R_scope.

(** The dot product with a row that is zero but for a one at [i]. *)
Lemma dot_unit_row (theta : list R) (s i : nat) :
  Np.dot (map (fun j => shift_entry 0 i j) (seq s (List.length theta))) theta
  = if Nat.leb s i then nth (i - s) theta 0 else 0.
Proof.
  revert s. induction theta as [|a theta IH]; intros s; simpl.
  - destruct (Nat.leb s i); [destruct (i - s)%nat|]; reflexivity.
  - rewrite IH. unfold shift_entry.
    destruct (Nat.eqb_spec i s) as [->|Hne].
    + rewrite Nat.leb_refl, Nat.sub_diag.
      replace (Nat.leb (S s) s) with false
        by (symmetry; apply Nat.leb_gt; lia).
      lra.
    + destruct (Nat.ltb_spec s i) as [Hlt|Hge].
      * replace (Nat.leb s i) with true by (symmetry; apply Nat.leb_le; lia).
        replace (Nat.leb (S s) i) with true
          by (symmetry; apply Nat.leb_le; lia).
        replace (i - s)%nat with (S (i - S s)) by lia. simpl. lra.
      * replace (Nat.leb s i) with false by (symmetry; apply Nat.leb_gt; lia).
        replace (Nat.leb (S s) i) with false
          by (symmetry; apply Nat.leb_gt; lia).
        assert (Hpow : 0 ^ (s - i) = 0) by (apply pow_i; lia).
        destruct (Nat.eqb i 0); rewrite Hpow; unfold Rdiv; lra.
Qed.

(** X1. A shift by zero returns the coefficients as they are, whatever
    their number. *)
Theorem shift_coefficients_by_zero (theta : list R) :
  shift_coefficients theta 0 = theta.
Proof.
  unfold shift_coefficients, shift_matrix. rewrite map_map.
  apply nth_error_ext. intros i.
  rewrite nth_error_map, nth_error_seq.
  destruct (Nat.ltb_spec i (List.length theta)) as [Hlt|Hge]; simpl.
  - rewrite dot_unit_row. simpl. rewrite Nat.sub_0_r.
    symmetry. apply nth_error_nth'. exact Hlt.
  - symmetry. apply nth_error_None. exact Hge.
Qed.

(** X2. For up to seven coefficients, a shift by [dT1] followed by a
    shift by [dT2] is the shift by [dT1 + dT2]. *)
Theorem shift_coefficients_compose (theta : list R) (dT1 dT2 : R) :
  (List.length theta <= 7)%nat ->
  shift_coefficients (shift_coefficients theta dT1) dT2
  = shift_coefficients theta (dT1 + dT2).
Proof.
  intros Hhi.
  destruct theta as [|a [|b [|c [|d [|e [|f [|g [|h theta]]]]]]]];
    simpl in Hhi; try lia; clear Hhi.
  all: shift_compute; vector_eq.
Qed.

(** Three coefficients shifted by 5, then by 7. *)
Lemma shift_coefficients_compose_witness :
  shift_coefficients (shift_coefficients [1; 2; 3] 5) 7
  = shift_coefficients [1; 2; 3] (5 + 7).
Proof.
  apply (shift_coefficients_compose [1; 2; 3] 5 7). simpl. lia.
Defined.

End ShiftMore.

(** ** Closed forms of the vector after a glitch *)

Section SegmentationMore.
Import BaseSearchClass SemiCoherentGlitchSearch.
Local Open Scope R_scope.
Variable twoF : fcall -> R.

Lemma mk_fcall_eq a b c d e f g a' b' c' d' e' f' g' :
  a = a' -> b = b' -> c = c' -> d = d' -> e = e' -> f = f' -> g = g' ->
  mk_fcall a b c d e f g = mk_fcall a' b' c' d' e' f' g'.
Proof. intros; subst; reflexivity. Qed.

(** X4. When the glitch is not at [tend], [compute_glitch_fstat_single]
    calls the evaluator twice and returns the sum: for the span up to
    the glitch with the vector as given, and for the span after it with
    the frequency [F0 + delta_F0 - 2 pi (tglitch - tref) delta_F1], the
    spin-down [F1 + delta_F1] and [F2]. *)
Theorem glitch_single_closed_form (self : SemiCoherentGlitchSearch.t)
  (F0 F1 F2 Alpha Delta delta_F0 delta_F1 tglitch : R) :
  tglitch <> tend self ->
  let callA := mk_fcall (tstart self) tglitch F0 F1 F2 Alpha Delta in
  let callB :=
    mk_fcall tglitch (tend self)
      (F0 + delta_F0 - 2 * PI * (tglitch - tref self) * delta_F1)
      (F1 + delta_F1) F2 Alpha Delta in
  compute_glitch_fstat_single twoF self F0 F1 F2 Alpha Delta
    delta_F0 delta_F1 tglitch
  = Return (twoF callA + twoF callB, [callA; callB]).
Proof.
  intros Hne callA callB. unfold compute_glitch_fstat_single.
  rewrite Reqb_false by exact Hne.
  cbv -[IZR Rplus Rmult Rminus Ropp Rdiv Rinv PI pow INR
        tref tstart tend].
  rewrite ?INR_IZR_INZ. cbn [Z.of_nat Pos.of_succ_nat Pos.succ].
  match goal with
  | |- Return (_, [?A; ?B]) = _ =>
      replace A with callA by (apply mk_fcall_eq; field);
      replace B with callB by (apply mk_fcall_eq; field)
  end.
  reflexivity.
Qed.

(** X5. With one glitch, [compute_nglitch_fstat] calls the evaluator for
    the span up to the glitch with the vector as given, and for the span
    after it with the frequency
    [F0 + delta_F0 - 2 pi (tend - tref) delta_F1], the spin-down
    [F1 + delta_F1] and [F2]: the jump is applied at [tend]. *)
Theorem nglitch_one_glitch_closed_form (tref tstart tend : R)
  (F0 F1 F2 Alpha Delta delta_F0 delta_F1 tglitch : R) :
  let self := SemiCoherentGlitchSearch.mk tref tstart tend 1 in
  let call0 := mk_fcall tstart tglitch F0 F1 F2 Alpha Delta in
  let call1 :=
    mk_fcall tglitch tend
      (F0 + delta_F0 - 2 * PI * (tend - tref) * delta_F1)
      (F1 + delta_F1) F2 Alpha Delta in
  compute_nglitch_fstat twoF self F0 F1 F2 Alpha Delta
    [delta_F0; delta_F1; tglitch]
  = Return (0 + twoF call0 + twoF call1, [call0; call1]).
Proof.
  intros self call0 call1. unfold compute_nglitch_fstat, self.
  cbv -[IZR Rplus Rmult Rminus Ropp Rdiv Rinv PI pow INR].
  rewrite ?INR_IZR_INZ. cbn [Z.of_nat Pos.of_succ_nat Pos.succ].
  match goal with
  | |- Return (_, [?A; ?B]) = _ =>
      replace A with call0 by (apply mk_fcall_eq; field);
      replace B with call1 by (apply mk_fcall_eq; field)
  end.
  reflexivity.
Qed.

End SegmentationMore.

(** A glitch at 1 in the span from 0 to 2, with the frequency as the
    value of the evaluator. *)
Lemma glitch_single_closed_form_witness :
  SemiCoherentGlitchSearch.compute_glitch_fstat_single c_F0
    Examples.one_glitch 30 0 0 0 0 1 2 1
  = Return
      ((c_F0 (mk_fcall 0 1 30 0 0 0 0)
        + c_F0 (mk_fcall 1 2 (30 + 1 - 2 * PI * (1 - 0) * 2) (0 + 2) 0 0 0),
        [mk_fcall 0 1 30 0 0 0 0;
         mk_fcall 1 2 (30 + 1 - 2 * PI * (1 - 0) * 2) (0 + 2) 0 0 0])%R).
Proof.
  apply (glitch_single_closed_form c_F0 Examples.one_glitch 30 0 0 0 0 1 2 1).
  simpl. lra.
Defined.

(** ** The arguments of the semi-coherent statistic *)

Section SegmentationArguments.
Import BaseSearchClass SemiCoherentGlitchSearch.
Local Open Scope R_scope.
Variable twoF : fcall -> R.

Lemma get_in_range (A : Type) (l : list A) (i : nat) (d : A) :
  (i < List.length l)%nat -> PyList.get l i = Return (nth i l d).
Proof.
  intros H. unfold PyList.get. rewrite (nth_error_nth' l d H). reflexivity.
Qed.

Lemma get_out_of_range (A : Type) (l : list A) (i : nat) :
  (List.length l <= i)%nat -> PyList.get l i = Raise IndexError.
Proof.
  intros H. unfold PyList.get. apply nth_error_None in H. rewrite H.
  reflexivity.
Qed.

Lemma shift_coefficients_length theta dT :
  List.length (shift_coefficients theta dT) = List.length theta.
Proof.
  unfold shift_coefficients, shift_matrix.
  rewrite !length_map, length_seq. reflexivity.
Qed.

Lemma np_add_same_length a b :
  List.length a = List.length b ->
  exists c, Np.add a b = Return c /\ List.length c = List.length a.
Proof.
  intros H. unfold Np.add. rewrite H, Nat.eqb_refl.
  eexists. split; [reflexivity|].
  rewrite length_map, length_combine, H. lia.
Qed.

Lemma in_range_dec tb dF0s dF1s i :
  {in_range tb dF0s dF1s i} + {~ in_range tb dF0s dF1s i}.
Proof.
  unfold in_range.
  destruct (lt_dec (i + 1) (List.length tb)); [|right; tauto].
  destruct (Nat.eq_dec i 0); [left; tauto|].
  destruct (lt_dec i (List.length dF0s)); [|right; tauto].
  destruct (lt_dec i (List.length dF1s)); [left; tauto|right; tauto].
Qed.

Lemma nglitch_loop_step self tb dF0s dF1s theta Alpha Delta i idxs
  th s log :
  List.length theta = 3%nat -> List.length th = 3%nat ->
  in_range tb dF0s dF1s i ->
  exists th' f0 f1 f2,
    List.length th' = 3%nat /\
    nglitch_loop twoF self tb dF0s dF1s theta Alpha Delta (i :: idxs)
      th s log
    = nglitch_loop twoF self tb dF0s dF1s theta Alpha Delta idxs th'
        (s + twoF (mk_fcall (nth i tb 0) (nth (i + 1) tb 0) f0 f1 f2
                            Alpha Delta))
        (log ++ [mk_fcall (nth i tb 0) (nth (i + 1) tb 0) f0 f1 f2
                          Alpha Delta]).
Proof.
  intros Htheta Hth [Htb Hd]. cbn [nglitch_loop].
  rewrite (get_in_range _ tb i 0) by lia.
  rewrite (get_in_range _ tb (i + 1) 0) by lia. cbn [bind].
  assert (Hstep : exists th',
    (if Nat.eqb i 0 then Return theta
     else
       (dF0 <- PyList.get dF0s i ;;
        dF1 <- PyList.get dF1s i ;;
        theta_post <-
          Np.add (shift_coefficients th (nth (i + 1) tb 0 - tref self))
                 [dF0; dF1; 0] ;;
        Return (shift_coefficients theta_post
                  (tref self - nth (i + 1) tb 0)))%py)
    = Return th' /\ List.length th' = 3%nat).
  { destruct (Nat.eqb_spec i 0) as [->|Hi]; [eauto|].
    destruct (Hd Hi) as [H0 H1].
    rewrite (get_in_range _ dF0s i 0), (get_in_range _ dF1s i 0) by lia.
    cbn [bind].
    destruct (np_add_same_length
                (shift_coefficients th (nth (i + 1) tb 0 - tref self))
                [nth i dF0s 0; nth i dF1s 0; 0]) as (c & Hc & Hlen).
    { rewrite shift_coefficients_length. exact Hth. }
    rewrite Hc. cbn [bind]. eexists. split; [reflexivity|].
    rewrite shift_coefficients_length, Hlen, shift_coefficients_length.
    exact Hth. }
  destruct Hstep as (th' & -> & Hlen). cbn [bind].
  destruct th' as [|f0 [|f1 [|f2 [|? ?]]]]; try discriminate.
  exists [f0; f1; f2], f0, f1, f2. split; [reflexivity|]. reflexivity.
Qed.

Lemma nglitch_loop_step_fails self tb dF0s dF1s theta Alpha Delta i idxs
  th s log :
  List.length th = 3%nat ->
  ~ in_range tb dF0s dF1s i ->
  nglitch_loop twoF self tb dF0s dF1s theta Alpha Delta (i :: idxs)
    th s log
  = Raise IndexError.
Proof.
  intros Hth Hout. cbn [nglitch_loop].
  destruct (lt_dec i (List.length tb)) as [Hi|Hi];
    [|rewrite (get_out_of_range _ tb i) by lia; reflexivity].
  rewrite (get_in_range _ tb i 0) by lia. cbn [bind].
  destruct (lt_dec (i + 1) (List.length tb)) as [Hi1|Hi1];
    [|rewrite (get_out_of_range _ tb (i + 1)) by lia; reflexivity].
  rewrite (get_in_range _ tb (i + 1) 0) by lia. cbn [bind].
  destruct (Nat.eqb_spec i 0) as [->|Hi0].
  { exfalso. apply Hout. split; [exact Hi1|]. intros H; congruence. }
  destruct (lt_dec i (List.length dF0s)) as [H0|H0];
    [|rewrite (get_out_of_range _ dF0s i) by lia; reflexivity].
  rewrite (get_in_range _ dF0s i 0) by lia. cbn [bind].
  destruct (lt_dec i (List.length dF1s)) as [H1|H1];
    [|rewrite (get_out_of_range _ dF1s i) by lia; reflexivity].
  exfalso. apply Hout. split; [exact Hi1|]. intros _. split; assumption.
Qed.

(** The loop returns when every turn reads within the lists, with one
    call for every segment, from one boundary to the next. *)
Lemma nglitch_loop_returns self tb dF0s dF1s theta Alpha Delta idxs :
  List.length theta = 3%nat ->
  Forall (in_range tb dF0s dF1s) idxs ->
  forall th s log,
    List.length th = 3%nat ->
    exists total calls,
      nglitch_loop twoF self tb dF0s dF1s theta Alpha Delta idxs th s log
      = Return (total, log ++ calls) /\
      map (fun c => (c_tstart c, c_tend c)) calls
      = map (fun i => (nth i tb 0, nth (i + 1) tb 0)) idxs.
Proof.
  intros Htheta Hall. induction Hall as [|i idxs Hi _ IH]; intros th s log Hth.
  - exists s, []. rewrite app_nil_r. split; reflexivity.
  - destruct (nglitch_loop_step self tb dF0s dF1s theta Alpha Delta i idxs
                th s log Htheta Hth Hi) as (th' & f0 & f1 & f2 & Hlen & ->).
    destruct (IH th'
                (s + twoF (mk_fcall (nth i tb 0) (nth (i + 1) tb 0)
                                    f0 f1 f2 Alpha Delta))
                (log ++ [mk_fcall (nth i tb 0) (nth (i + 1) tb 0)
                                  f0 f1 f2 Alpha Delta]) Hlen)
      as (total & calls & -> & Hcalls).
    exists total, (mk_fcall (nth i tb 0) (nth (i + 1) tb 0) f0 f1 f2
                     Alpha Delta :: calls).
    rewrite <- app_assoc. split; [reflexivity|].
    simpl. rewrite Hcalls. reflexivity.
Qed.

Lemma nglitch_loop_raises self tb dF0s dF1s theta Alpha Delta idxs :
  List.length theta = 3%nat ->
  Exists (fun i => ~ in_range tb dF0s dF1s i) idxs ->
  forall th s log,
    List.length th = 3%nat ->
    nglitch_loop twoF self tb dF0s dF1s theta Alpha Delta idxs th s log
    = Raise IndexError.
Proof.
  intros Htheta Hex.
  induction idxs as [|i idxs IH]; intros th s log Hth.
  - inversion Hex.
  - destruct (in_range_dec tb dF0s dF1s i) as [Hi|Hi].
    + destruct (nglitch_loop_step self tb dF0s dF1s theta Alpha Delta i idxs
                  th s log Htheta Hth Hi)
        as (th' & f0 & f1 & f2 & Hlen & ->).
      apply IH; [|exact Hlen].
      inversion Hex; subst; [contradiction|assumption].
    + apply nglitch_loop_step_fails; assumption.
Qed.

(** ** The slices of the arguments *)

Lemma slice_from_length (A : Type) (n : nat) (l : list A) :
  List.length (PyList.slice_from (- Z.of_nat n) l)
  = if Nat.eqb n 0 then List.length l else Nat.min n (List.length l).
Proof.
  unfold PyList.slice_from, PyList.clamp. rewrite length_skipn.
  destruct n as [|n]; simpl Nat.eqb; cbv iota.
  - simpl. lia.
  - replace (- Z.of_nat (S n) <? 0)%Z with true
      by (symmetry; apply Z.ltb_lt; lia).
    lia.
Qed.

Lemma slice_length (A : Type) (a b : nat) (l : list A) :
  (0 < b <= a)%nat ->
  List.length (PyList.slice (- Z.of_nat a) (- Z.of_nat b) l)
  = ((List.length l - b) - (List.length l - a))%nat.
Proof.
  intros H. unfold PyList.slice, PyList.clamp.
  rewrite length_firstn, length_skipn.
  replace (- Z.of_nat a <? 0)%Z with true by (symmetry; apply Z.ltb_lt; lia).
  replace (- Z.of_nat b <? 0)%Z with true by (symmetry; apply Z.ltb_lt; lia).
  lia.
Qed.

Lemma slice_from_zero (A : Type) (l : list A) : PyList.slice_from 0 l = l.
Proof.
  unfold PyList.slice_from, PyList.clamp.
  change (0 <? 0)%Z with false. cbv iota.
  replace (Z.to_nat (Z.min 0 (Z.of_nat (List.length l)))) with 0%nat by lia.
  reflexivity.
Qed.

Lemma slice_from_last (A : Type) (n : nat) (l : list A) :
  (0 < n <= List.length l)%nat ->
  PyList.slice_from (- Z.of_nat n) l = skipn (List.length l - n) l.
Proof.
  intros H. unfold PyList.slice_from, PyList.clamp.
  replace (- Z.of_nat n <? 0)%Z with true by (symmetry; apply Z.ltb_lt; lia).
  f_equal. lia.
Qed.

Lemma skipn_cons_nth (A : Type) (l : list A) (d : A) (k : nat) :
  (k < List.length l)%nat -> skipn k l = nth k l d :: skipn (S k) l.
Proof.
  revert l. induction k as [|k IH]; intros [|a l] H; simpl in *; try lia.
  - reflexivity.
  - apply IH. lia.
Qed.

Lemma map_nth_seq (A : Type) (l : list A) (d : A) (k m : nat) :
  (k + m <= List.length l)%nat ->
  map (fun i => nth (i + k) l d) (seq 0 m) = firstn m (skipn k l).
Proof.
  revert k. induction m as [|m IH]; intros k H; [reflexivity|].
  rewrite (skipn_cons_nth _ l d k) by lia.
  cbn [seq map firstn]. f_equal.
  rewrite <- seq_shift, map_map, <- IH by lia.
  apply map_ext. intros i. f_equal. lia.
Qed.

(** X6. With no glitch the evaluator is called once, with the vector as
    it is; the segment ends at the first of the further arguments if
    there is one, and at [tend] otherwise. *)
Theorem nglitch_fstat_without_glitch (self : SemiCoherentGlitchSearch.t)
  (F0 F1 F2 Alpha Delta : R) (args : list R) :
  nglitch self = 0%nat ->
  let call :=
    mk_fcall (tstart self) (hd (tend self) args) F0 F1 F2 Alpha Delta in
  compute_nglitch_fstat twoF self F0 F1 F2 Alpha Delta args
  = Return (0 + twoF call, [call]).
Proof.
  intros Hn call. unfold compute_nglitch_fstat. rewrite Hn.
  simpl Z.of_nat. simpl Z.opp. rewrite slice_from_zero.
  subst call. destruct args as [|a args]; reflexivity.
Qed.

Lemma nglitch_fstat_returns (self : SemiCoherentGlitchSearch.t)
  (F0 F1 F2 Alpha Delta : R) (args : list R) :
  (1 <= nglitch self)%nat ->
  (3 * nglitch self <= List.length args)%nat ->
  let epochs := skipn (List.length args - nglitch self) args in
  exists total log,
    compute_nglitch_fstat twoF self F0 F1 F2 Alpha Delta args
    = Return (total, log) /\
    map c_tstart log = tstart self :: epochs /\
    map c_tend log = epochs ++ [tend self] /\
    total = fold_left (fun s c => s + twoF c) log 0.
Proof.
  intros Hn Hlen epochs. set (n := nglitch self) in *.
  assert (Hz3 : (-3 * Z.of_nat n = - Z.of_nat (3 * n))%Z) by lia.
  assert (Hz2 : (-2 * Z.of_nat n = - Z.of_nat (2 * n))%Z) by lia.
  destruct (nglitch_loop_returns self
              ([tstart self] ++ PyList.slice_from (- Z.of_nat n) args
               ++ [tend self])
              ([0] ++ PyList.slice (-3 * Z.of_nat n) (-2 * Z.of_nat n) args)
              ([0] ++ PyList.slice (-2 * Z.of_nat n) (- Z.of_nat n) args)
              [F0; F1; F2] Alpha Delta (seq 0 (n + 1)))
    with (th := [F0; F1; F2]) (s := 0) (log := @nil fcall)
    as (total & calls & Hret & Hcalls).
  - reflexivity.
  - apply Forall_forall. intros i Hi. apply in_seq in Hi.
    unfold in_range. rewrite Hz3, Hz2.
    cbn [app List.length]. rewrite !length_app, slice_from_length.
    rewrite !slice_length by lia.
    replace (Nat.eqb n 0) with false by (symmetry; apply Nat.eqb_neq; lia).
    simpl List.length. lia.
  - reflexivity.
  - simpl app in Hret. exists total, calls.
    unfold compute_nglitch_fstat. fold n. split; [exact Hret|].
    assert (Hlog : List.length calls = (n + 1)%nat).
    { apply (f_equal (@List.length _)) in Hcalls.
      rewrite !length_map, length_seq in Hcalls. exact Hcalls. }
    rewrite slice_from_last in Hcalls by lia. fold epochs in Hcalls.
    assert (Hep : List.length epochs = n)
      by (unfold epochs; rewrite length_skipn; lia).
    split; [|split].
    + apply (f_equal (map fst)) in Hcalls. rewrite !map_map in Hcalls.
      cbn [fst] in Hcalls. etransitivity; [exact Hcalls|].
      rewrite (map_ext _ (fun i => nth (i + 0)
                            (tstart self :: epochs ++ [tend self]) 0))
        by (intros; rewrite Nat.add_0_r; reflexivity).
      rewrite map_nth_seq by (simpl; rewrite length_app; simpl; lia).
      simpl skipn. replace (n + 1)%nat with (S n) by lia.
      simpl firstn. f_equal. rewrite firstn_app, Hep, Nat.sub_diag.
      simpl. rewrite app_nil_r. apply firstn_all2. lia.
    + apply (f_equal (map snd)) in Hcalls. rewrite !map_map in Hcalls.
      cbn [snd] in Hcalls. etransitivity; [exact Hcalls|].
      rewrite map_nth_seq by (simpl; rewrite length_app; simpl; lia).
      simpl skipn. apply firstn_all2. rewrite length_app. simpl. lia.
    + unfold compute_nglitch_fstat in *.
      destruct (nglitch_fstat_total twoF self F0 F1 F2 Alpha Delta args
                  total calls) as [_ Ht]; [exact Hret|exact Ht].
Qed.

Lemma nglitch_fstat_short (self : SemiCoherentGlitchSearch.t)
  (F0 F1 F2 Alpha Delta : R) (args : list R) :
  (1 <= nglitch self)%nat ->
  (List.length args < 3 * nglitch self)%nat ->
  compute_nglitch_fstat twoF self F0 F1 F2 Alpha Delta args
  = Raise IndexError.
Proof.
  intros Hn Hlen. set (n := nglitch self) in *.
  assert (Hz3 : (-3 * Z.of_nat n = - Z.of_nat (3 * n))%Z) by lia.
  assert (Hz2 : (-2 * Z.of_nat n = - Z.of_nat (2 * n))%Z) by lia.
  unfold compute_nglitch_fstat. fold n.
  apply nglitch_loop_raises; try reflexivity.
  apply Exists_exists. exists n. split; [apply in_seq; lia|].
  unfold in_range. rewrite Hz3, Hz2.
  cbn [app List.length]. rewrite !slice_length by lia. lia.
Qed.

(** X7. With glitches, the call returns when it is given three arguments
    at least for every glitch, and raises [IndexError] otherwise.  When
    it returns, the segments run from [tstart] over the last [nglitch]
    arguments to [tend], and the value is the sum of their statistics. *)
Theorem nglitch_fstat_arguments (self : SemiCoherentGlitchSearch.t)
  (F0 F1 F2 Alpha Delta : R) (args : list R) :
  (1 <= nglitch self)%nat ->
  let n := nglitch self in
  let epochs := skipn (List.length args - n) args in
  ((3 * n <= List.length args)%nat ->
   exists total log,
     compute_nglitch_fstat twoF self F0 F1 F2 Alpha Delta args
     = Return (total, log) /\
     map c_tstart log = tstart self :: epochs /\
     map c_tend log = epochs ++ [tend self] /\
     total = fold_left (fun s c => s + twoF c) log 0) /\
  ((List.length args < 3 * n)%nat ->
   compute_nglitch_fstat twoF self F0 F1 F2 Alpha Delta args
   = Raise IndexError).
Proof.
  intros Hn n epochs. split.
  - intros Hlen. apply nglitch_fstat_returns; assumption.
  - intros Hlen. apply nglitch_fstat_short; assumption.
Qed.

End SegmentationArguments.

(** A search without a glitch given one further argument. *)
Lemma nglitch_fstat_without_glitch_witness :
  SemiCoherentGlitchSearch.compute_nglitch_fstat c_F0
    (SemiCoherentGlitchSearch.mk 0 0 2 0) 30 0 0 0 0 [7%R]
  = Return ((0 + c_F0 (mk_fcall 0 7 30 0 0 0 0))%R,
            [mk_fcall 0 7 30 0 0 0 0]).
Proof.
  apply (nglitch_fstat_without_glitch c_F0
           (SemiCoherentGlitchSearch.mk 0 0 2 0) 30 0 0 0 0 [7%R]).
  reflexivity.
Defined.

(** One glitch and two further arguments. *)
Lemma nglitch_fstat_arguments_witness :
  SemiCoherentGlitchSearch.compute_nglitch_fstat c_F0 Examples.one_glitch
    30 0 0 0 0 [1%R; 2%R]
  = Raise IndexError.
Proof.
  apply (proj2 (nglitch_fstat_arguments c_F0 Examples.one_glitch 30 0 0 0 0
                  [1%R; 2%R] (le_n 1))).
  simpl. lia.
Defined.

(** ** The coefficients of the segments *)

Section CalculateThetas.
Import BaseSearchClass.
Local Open Scope R_scope.

Lemma np_add_zeros (theta : list R) :
  Np.add theta (repeat 0 (List.length theta)) = Return theta.
Proof.
  unfold Np.add. rewrite repeat_length, Nat.eqb_refl. f_equal.
  induction theta as [|a theta IH]; simpl; [reflexivity|].
  f_equal; [lra|exact IH].
Qed.

Lemma shift_there_and_back (theta : list R) (dT : R) :
  (List.length theta <= 7)%nat ->
  shift_coefficients (shift_coefficients theta dT) (- dT) = theta.
Proof.
  intros Hhi.
  destruct theta as [|a [|b [|c [|d [|e [|f [|g [|h theta]]]]]]]];
    simpl in Hhi; try lia; clear Hhi.
  all: shift_compute; vector_eq.
Qed.

Lemma calculate_thetas_loop_zero_jumps tref tbounds theta delta_thetas :
  (List.length theta <= 7)%nat ->
  Forall (fun dt => dt = repeat 0 (List.length theta)) delta_thetas ->
  forall i,
    (i + List.length delta_thetas < List.length tbounds)%nat ->
    calculate_thetas_loop tref tbounds delta_thetas i (repeat theta (S i))
    = Return (repeat theta (S i + List.length delta_thetas)).
Proof.
  intros Hlen Hall. induction Hall as [|dt dts Hdt _ IH]; intros i Hi.
  - simpl. rewrite Nat.add_0_r. reflexivity.
  - cbn [calculate_thetas_loop]. simpl List.length in Hi.
    rewrite (get_in_range _ (repeat theta (S i)) i theta)
      by (rewrite repeat_length; lia).
    rewrite (get_in_range _ tbounds (i + 1) 0) by lia. cbn [bind].
    rewrite nth_repeat. subst dt.
    pose proof (np_add_zeros
                  (shift_coefficients theta (nth (i + 1) tbounds 0 - tref)))
      as Hz.
    rewrite shift_coefficients_length in Hz. rewrite Hz. clear Hz.
    cbn [bind].
    replace (tref - nth (i + 1) tbounds 0)
      with (- (nth (i + 1) tbounds 0 - tref)) by lra.
    rewrite shift_there_and_back by exact Hlen.
    replace (repeat theta (S i) ++ [theta]) with (repeat theta (S (S i)))
      by (rewrite <- repeat_cons; reflexivity).
    rewrite IH by lia. f_equal. f_equal. simpl. lia.
Qed.

(** X3. Without a jump at any glitch, and with a boundary for every
    glitch, [calculate_thetas] returns the coefficients of the signal
    once for every segment (for up to seven coefficients). *)
Theorem calculate_thetas_zero_jumps (tref : R) (theta : list R)
  (delta_thetas : list (list R)) (tbounds : list R) :
  (List.length theta <= 7)%nat ->
  Forall (fun dt => dt = repeat 0 (List.length theta)) delta_thetas ->
  (List.length delta_thetas < List.length tbounds)%nat ->
  calculate_thetas tref theta delta_thetas tbounds
  = Return (repeat theta (S (List.length delta_thetas))).
Proof.
  intros Hlen Hall Htb. unfold calculate_thetas.
  apply (calculate_thetas_loop_zero_jumps tref tbounds theta delta_thetas
           Hlen Hall 0%nat).
  simpl. exact Htb.
Qed.

(** One glitch without a jump. *)
Lemma calculate_thetas_zero_jumps_witness :
  calculate_thetas 0 [0; 30; 1; 0] [[0; 0; 0; 0]] [0; 50; 100]
  = Return [[0; 30; 1; 0]; [0; 30; 1; 0]].
Proof.
  apply (calculate_thetas_zero_jumps 0 [0; 30; 1; 0] [[0; 0; 0; 0]]
           [0; 50; 100]).
  - simpl. lia.
  - repeat constructor.
  - simpl. lia.
Defined.

(** With fewer boundaries than glitches and one, the call raises. *)
Theorem calculate_thetas_short_bounds (tref : R) (theta : list R)
  (dt : list R) (delta_thetas : list (list R)) (tbounds : list R) :
  (List.length tbounds <= 1)%nat ->
  calculate_thetas tref theta (dt :: delta_thetas) tbounds
  = Raise IndexError.
Proof.
  intros H. unfold calculate_thetas. cbn [calculate_thetas_loop].
  rewrite (get_out_of_range _ tbounds (0 + 1)) by (simpl; lia).
  reflexivity.
Qed.

End CalculateThetas.

(** ** The order of the prior *)

Section IterationOrder.
Import Packing.

Lemma wf_Permutation (V : Type) (d d' : PyDict.t V) :
  Permutation d d' -> PyDict.wf d -> PyDict.wf d'.
Proof.
  unfold PyDict.wf, PyDict.keys. intros Hp Hwf.
  eapply Permutation_NoDup; [apply Permutation_map; exact Hp|exact Hwf].
Qed.

Lemma get_not_In (V : Type) key (d : PyDict.t V) :
  ~ In key (PyDict.keys d) -> PyDict.get key d = Raise (KeyError key).
Proof.
  unfold PyDict.keys. induction d as [|[k v] d IH]; simpl; [reflexivity|].
  intros H. destruct (String.eqb_spec key k) as [->|Hne]; [tauto|].
  apply IH. tauto.
Qed.

(** Looking a key up does not depend on the order of iteration. *)
Lemma get_Permutation (V : Type) key (d d' : PyDict.t V) :
  Permutation d d' -> PyDict.wf d ->
  PyDict.get key d' = PyDict.get key d.
Proof.
  intros Hp Hwf. pose proof (wf_Permutation V d d' Hp Hwf) as Hwf'.
  destruct (in_dec string_dec key (PyDict.keys d)) as [Hin|Hnin].
  - unfold PyDict.keys in Hin. apply in_map_iff in Hin.
    destruct Hin as ([k v] & Hk & Hin). simpl in Hk. subst k.
    rewrite (get_In V key v d Hwf Hin).
    apply get_In; [exact Hwf'|]. eapply Permutation_in; eassumption.
  - rewrite (get_not_In V key d Hnin). apply get_not_In.
    intros Hin. apply Hnin. unfold PyDict.keys in *.
    eapply Permutation_in; [|exact Hin].
    apply Permutation_map, Permutation_sym, Hp.
Qed.

Lemma prior_value_Permutation items items' key :
  Permutation items items' -> PyDict.wf items ->
  prior_value items' key = prior_value items key.
Proof.
  intros Hp Hwf. unfold prior_value.
  rewrite (get_Permutation _ key items items' Hp Hwf). reflexivity.
Qed.

(** The layout before the indices of repeated keys are set apart does
    not depend on the order in which the prior is iterated. *)
Lemma run_Permutation mult canon items items' l :
  NoDup canon ->
  PyDict.wf items ->
  Permutation items items' ->
  run mult (expand mult canon) items = Return l ->
  run mult (expand mult canon) items' = Return l.
Proof.
  intros Hnd Hwf Hp Hl.
  pose proof (run_Return_recognised _ _ _ _ Hl) as Hrec.
  pose proof (run_Return_same_keys mult canon items Hrec l Hl) as Hsame.
  pose proof (wf_Permutation _ _ _ Hp Hwf) as Hwf'.
  assert (Hrec' : Forall (fun kv => recognised (snd kv)) items')
    by (eapply Permutation_Forall; eassumption).
  assert (Hkeys : Permutation (expand mult (PyDict.keys items))
                              (expand mult (PyDict.keys items')))
    by (apply Permutation_flat_map, Permutation_map, Hp).
  assert (Hsame' : same_keys (expand mult (PyDict.keys items'))
                             (expand mult canon)).
  { intros k. rewrite <- (Hsame k). split; intros H.
    - eapply Permutation_in; [apply Permutation_sym; exact Hkeys|exact H].
    - eapply Permutation_in; [exact Hkeys|exact H]. }
  destruct (run_same_keys mult canon items Hnd Hwf Hrec Hsame)
    as (l1 & Hl1 & Hs1 & Hp1 & Hg1 & Hin1 & Hf1).
  destruct (run_same_keys mult canon items' Hnd Hwf' Hrec' Hsame')
    as (l2 & Hl2 & Hs2 & Hp2 & Hg2 & Hin2 & Hf2).
  assert (l1 = l) by congruence. subst l1. rewrite Hl2. f_equal.
  assert (Hidx : theta_idxs l2 = theta_idxs l).
  { apply Sorted_le_unique; [exact Hs2|exact Hs1|].
    etransitivity; [exact Hp2|]. etransitivity; [|symmetry; exact Hp1].
    apply Permutation_map, Permutation_flat_map, Permutation_map.
    apply Permutation_filter, Permutation_sym, Hp. }
  assert (Hk : forall l0 its,
             map (fun k => position k (expand mult canon)) (theta_keys l0)
             = theta_idxs l0 ->
             (forall k, In k (theta_keys l0) ->
                        In k (expand mult (PyDict.keys (free_items its)))) ->
             same_keys (expand mult (PyDict.keys its)) (expand mult canon) ->
             theta_keys l0
             = map (fun i => nth i (expand mult canon) ""%string)
                   (theta_idxs l0)).
  { intros l0 its Hg Hin Hs. rewrite <- Hg. symmetry.
    apply map_nth_position. intros k Hk0. apply Hs.
    apply (free_keys_supplied mult its k), Hin, Hk0. }
  pose proof (Hk l2 items' Hg2 Hin2 Hsame') as Hk2.
  pose proof (Hk l items Hg1 Hin1 Hsame) as Hk1.
  rewrite Hidx in Hk2. rewrite <- Hk1 in Hk2.
  assert (Hfx : fixed_theta l2 = fixed_theta l).
  { rewrite Hf1, Hf2. apply map_ext. intros k.
    apply prior_value_Permutation; assumption. }
  destruct l as [ks idxs fx], l2 as [ks2 idxs2 fx2]. simpl in *.
  congruence.
Qed.

(** X8. The layout [unpack_input_theta] of the isolated search returns
    does not depend on the order in which the prior is iterated. *)
Theorem search_unpack_ignores_iteration_order
  (binary : bool) (prior prior' : PyDict.t pyval) (l : layout) :
  PyDict.wf prior ->
  Permutation prior prior' ->
  (MCMCSearch.unpack_input_theta binary prior = Return l <->
   MCMCSearch.unpack_input_theta binary prior' = Return l).
Proof.
  intros Hwf Hp. rewrite !search_unpack_run. split.
  - apply run_Permutation; [apply search_keys_nodup|exact Hwf|exact Hp].
  - apply run_Permutation;
      [apply search_keys_nodup|exact (wf_Permutation _ _ _ Hp Hwf)|].
    apply Permutation_sym, Hp.
Qed.

(** The prior of the example, iterated backwards. *)
Lemma search_unpack_ignores_iteration_order_witness :
  MCMCSearch.unpack_input_theta false (rev complete_prior)
  = Return (mk_layout ["F0"; "Alpha"]%string [2; 5]%nat
              [5; 10; 0; (-1); 0; 0; 3]%R).
Proof.
  apply (proj1 (search_unpack_ignores_iteration_order false complete_prior
                  (rev complete_prior) _
                  ltac:(unfold PyDict.wf; simpl;
                        repeat (constructor;
                                [simpl; intuition discriminate|]);
                        constructor)
                  (Permutation_rev complete_prior))).
  reflexivity.
Defined.

(** X9. The layout [unpack_input_theta] of the glitch search returns does
    not depend on the order in which the prior is iterated. *)
Theorem glitch_unpack_ignores_iteration_order
  (fuel nglitch : nat) (prior prior' : PyDict.t pyval) (l : layout) :
  PyDict.wf prior ->
  Permutation prior prior' ->
  (MCMCGlitchSearch.unpack_input_theta fuel nglitch prior = Return l <->
   MCMCGlitchSearch.unpack_input_theta fuel nglitch prior' = Return l).
Proof.
  assert (Hone : forall p p', PyDict.wf p -> Permutation p p' ->
            MCMCGlitchSearch.unpack_input_theta fuel nglitch p = Return l ->
            MCMCGlitchSearch.unpack_input_theta fuel nglitch p' = Return l).
  { intros p p' Hwf Hp. rewrite !glitch_unpack_run. intros H.
    apply bind_Return_inv in H. destruct H as (l0 & Hl0 & H').
    rewrite (run_Permutation _ _ p p' l0 glitch_prior_keys_nodup
               Hwf Hp Hl0).
    exact H'. }
  intros Hwf Hp. split.
  - apply Hone; assumption.
  - apply Hone; [exact (wf_Permutation _ _ _ Hp Hwf)|].
    apply Permutation_sym, Hp.
Qed.

(** The prior of two glitches, iterated backwards. *)
Lemma glitch_unpack_ignores_iteration_order_witness :
  MCMCGlitchSearch.unpack_input_theta 1 2 (rev two_glitch_prior)
  = Return (mk_layout ["tglitch"; "tglitch"]%string [9; 10]%nat
              [30; 0; 0; 0; 0; 0; 0; 0; 0; 0; 0]%R).
Proof.
  apply (proj1 (glitch_unpack_ignores_iteration_order 1 2 two_glitch_prior
                  (rev two_glitch_prior) _
                  ltac:(unfold PyDict.wf; simpl;
                        repeat (constructor;
                                [simpl; intuition discriminate|]);
                        constructor)
                  (Permutation_rev two_glitch_prior))).
  reflexivity.
Defined.

End IterationOrder.

(** ** The layout in the canonical order *)

Section CanonicalOrder.
Import Packing.

Lemma Sorted_le_map_S l : Sorted le l -> Sorted le (map S l).
Proof.
  induction 1 as [|a l _ IH Hhd]; simpl; constructor; [exact IH|].
  destruct Hhd; simpl; constructor. lia.
Qed.

Lemma positions_sorted (f : string -> bool) full :
  NoDup full ->
  Sorted le (map (fun k => position k full) (filter f full)).
Proof.
  induction 1 as [|a full Hnin Hnd IH]; simpl; [constructor|].
  assert (Hrest : map (fun k => if String.eqb k a then 0%nat
                                else S (position k full)) (filter f full)
                  = map S (map (fun k => position k full) (filter f full))).
  { rewrite map_map. apply map_ext_in. intros k Hk.
    apply filter_In in Hk as [Hk _].
    destruct (String.eqb_spec k a) as [->|_]; [contradiction|reflexivity]. }
  destruct (f a); simpl; rewrite Hrest.
  - rewrite String.eqb_refl. constructor.
    + apply Sorted_le_map_S, IH.
    + destruct (map S _); constructor. lia.
  - apply Sorted_le_map_S, IH.
Qed.

Lemma free_keys_In items k :
  PyDict.wf items ->
  (In k (PyDict.keys (free_items items)) <-> is_free items k = true).
Proof.
  intros Hwf. unfold is_free, free_items, PyDict.keys. split.
  - intros H. apply in_map_iff in H. destruct H as ([k' v] & Hk & H).
    simpl in Hk. subst k'. apply filter_In in H as [Hin Hd].
    rewrite (get_In _ k v items Hwf Hin). exact Hd.
  - destruct (PyDict.get k items) as [v| |] eqn:Hget; try discriminate.
    intros Hd. apply get_Return_In in Hget. apply in_map_iff.
    exists (k, v). split; [reflexivity|]. apply filter_In. split; assumption.
Qed.

Lemma NoDup_keys_filter (V : Type) (f : string * V -> bool) (d : PyDict.t V) :
  PyDict.wf d -> NoDup (PyDict.keys (filter f d)).
Proof.
  unfold PyDict.wf, PyDict.keys. induction d as [|[k v] d IH]; simpl.
  - constructor.
  - intros H. inversion H as [|? ? Hnin Hnd]; subst.
    destruct (f (k, v)); simpl; [constructor|]; auto.
    intros Hin. apply Hnin. apply in_map_iff in Hin.
    destruct Hin as (kv & Hk & Hin). apply filter_In in Hin as [Hin _].
    apply in_map_iff. exists kv. auto.
Qed.

Lemma search_layout_facts
  (binary : bool) (prior : PyDict.t pyval) (l : layout) :
  PyDict.wf prior ->
  MCMCSearch.unpack_input_theta binary prior = Return l ->
  theta_keys l
  = filter (is_free prior) (MCMCSearch.full_theta_keys binary) /\
  theta_idxs l
  = map (fun k => position k (MCMCSearch.full_theta_keys binary))
        (theta_keys l) /\
  List.length (fixed_theta l)
  = List.length (MCMCSearch.full_theta_keys binary) /\
  (forall k x, PyDict.get k prior = Return (PyNum x) ->
     nth (position k (MCMCSearch.full_theta_keys binary)) (fixed_theta l) 0%R
     = x) /\
  (forall k, In k (theta_keys l) ->
     nth (position k (MCMCSearch.full_theta_keys binary)) (fixed_theta l) 0%R
     = 0%R).
Proof.
  intros Hwf Hl. rewrite search_unpack_run in Hl.
  pose proof (run_Return_recognised _ _ _ _ Hl) as Hrec.
  pose proof (search_keys_nodup binary) as Hnd.
  pose proof (run_Return_same_keys _ _ _ Hrec _ Hl) as Hsame.
  destruct (run_same_keys (fun _ => 1%nat) (MCMCSearch.full_theta_keys binary)
              prior Hnd Hwf Hrec Hsame)
    as (l' & Hl' & Hs & Hp & Hg & Hin & Hf).
  assert (l' = l) as -> by congruence.
  rewrite !expand_one in *.
  set (full := MCMCSearch.full_theta_keys binary) in *.
  assert (Hperm : Permutation (PyDict.keys (free_items prior))
                              (filter (is_free prior) full)).
  { apply NoDup_Permutation.
    - apply NoDup_keys_filter, Hwf.
    - apply NoDup_filter, Hnd.
    - intros k. rewrite (free_keys_In prior k Hwf), filter_In. split.
      + intros Hk. split; [|exact Hk]. apply Hsame.
        apply (proj2 (free_keys_In prior k Hwf)) in Hk.
        unfold PyDict.keys, free_items in *. apply in_map_iff in Hk.
        destruct Hk as (kv & <- & Hk). apply filter_In in Hk as [Hk _].
        apply in_map. exact Hk.
      + tauto. }
  assert (Hidx : theta_idxs l
                 = map (fun k => position k full)
                       (filter (is_free prior) full)).
  { apply Sorted_le_unique; [exact Hs|apply positions_sorted, Hnd|].
    etransitivity; [exact Hp|]. apply Permutation_map, Hperm. }
  assert (Hkeys : theta_keys l = filter (is_free prior) full).
  { rewrite <- (map_nth_position full (theta_keys l)).
    - rewrite Hg, Hidx. apply map_nth_position.
      intros k Hk. apply filter_In in Hk. tauto.
    - intros k Hk. apply Hsame. apply Hin in Hk.
      unfold PyDict.keys, free_items in *. apply in_map_iff in Hk.
      destruct Hk as (kv & <- & Hk). apply filter_In in Hk as [Hk _].
      apply in_map. exact Hk. }
  assert (Hnth : forall k, In k full ->
            nth (position k full) (fixed_theta l) 0%R = prior_value prior k).
  { intros k Hk. rewrite Hf.
    rewrite <- (nth_position k full Hk) at 2.
    assert (Hlt : (position k full < List.length full)%nat).
    { clear -Hk. induction full as [|a full IH]; simpl; [destruct Hk|].
      destruct (String.eqb_spec k a); [lia|].
      destruct Hk as [->|Hk]; [congruence|]. apply IH in Hk. lia. }
    rewrite (nth_indep _ 0%R (prior_value prior ""%string))
      by (rewrite length_map; exact Hlt).
    apply map_nth. }
  split; [exact Hkeys|]. split; [symmetry; exact Hg|].
  split; [rewrite Hf; apply length_map|]. split.
  - intros k x Hget. rewrite Hnth.
    + unfold prior_value. rewrite Hget. reflexivity.
    + apply Hsame. apply get_Return_In in Hget.
      unfold PyDict.keys. apply in_map_iff. exists (k, PyNum x). auto.
  - intros k Hk. rewrite Hkeys in Hk. apply filter_In in Hk as [Hk Hfree].
    rewrite (Hnth k Hk). unfold prior_value, is_free in *.
    destruct (PyDict.get k prior) as [[| |]| |]; simpl in *;
      try discriminate; reflexivity.
Qed.

(** X10. When [unpack_input_theta] of the isolated search returns,
    [theta_keys] are the free keys in the order of the canonical list,
    [theta_idxs] their positions in that list, and [fixed_theta] has an
    entry for every canonical key: the number the prior gives, and zero
    for a free key. *)
Theorem search_layout_in_canonical_order
  (binary : bool) (prior : PyDict.t pyval) (l : layout) :
  PyDict.wf prior ->
  MCMCSearch.unpack_input_theta binary prior = Return l ->
  theta_keys l
  = filter (is_free prior) (MCMCSearch.full_theta_keys binary) /\
  theta_idxs l
  = map (fun k => position k (MCMCSearch.full_theta_keys binary))
        (theta_keys l) /\
  List.length (fixed_theta l)
  = List.length (MCMCSearch.full_theta_keys binary) /\
  (forall k x, PyDict.get k prior = Return (PyNum x) ->
     nth (position k (MCMCSearch.full_theta_keys binary)) (fixed_theta l) 0%R
     = x) /\
  (forall k, In k (theta_keys l) ->
     nth (position k (MCMCSearch.full_theta_keys binary)) (fixed_theta l) 0%R
     = 0%R).
Proof. exact (search_layout_facts binary prior l). Qed.

(** The free keys of the prior of the example. *)
Lemma search_layout_in_canonical_order_witness :
  theta_keys (mk_layout ["F0"; "Alpha"]%string [2; 5]%nat
                [5; 10; 0; (-1); 0; 0; 3]%R)
  = filter (is_free (rev complete_prior)) (MCMCSearch.full_theta_keys false).
Proof.
  refine (proj1 (search_layout_in_canonical_order false (rev complete_prior)
                   _ _ _)).
  - unfold PyDict.wf. simpl.
    repeat (constructor; [simpl; intuition discriminate|]). constructor.
  - reflexivity.
Defined.

End CanonicalOrder.

(** ** The likelihoods *)

Section Likelihoods.
Local Open Scope R_scope.

Lemma set_item_Return (A : Type) (l : list A) (i : nat) (v d : A) :
  (i < List.length l)%nat ->
  exists l',
    PyList.set_item l i v = Return l' /\
    List.length l' = List.length l /\
    nth i l' d = v /\
    (forall k, k <> i -> nth k l' d = nth k l d).
Proof.
  revert i. induction l as [|a l IH]; intros [|i] H; simpl in H; try lia.
  - exists (v :: l). repeat split. intros [|k] Hk; [congruence|reflexivity].
  - destruct (IH i ltac:(lia)) as (l' & Hl' & Hlen & Hn & Ho).
    exists (a :: l'). simpl. rewrite Hl'. simpl.
    repeat split; [congruence|exact Hn|].
    intros [|k] Hk; [reflexivity|]. apply Ho. congruence.
Qed.

Lemma set_item_Raise (A : Type) (l : list A) (i : nat) (v : A) :
  (List.length l <= i)%nat -> PyList.set_item l i v = Raise IndexError.
Proof.
  revert i. induction l as [|a l IH]; intros i H; simpl.
  - destruct i; reflexivity.
  - destruct i as [|i]; simpl in H; [lia|].
    rewrite IH by lia. reflexivity.
Qed.

(** The loop of [logl] writes [theta[j]] at [theta_idxs[j]] and leaves
    the other entries. *)
Lemma logl_loop_returns (theta_idxs : list nat) (theta : list R) :
  forall (j : nat) (fixed_theta : list R),
    NoDup theta_idxs ->
    Forall (fun i => (i < List.length fixed_theta)%nat) theta_idxs ->
    (j + List.length theta_idxs <= List.length theta)%nat ->
    exists fixed',
      MCMCSearch.logl_loop theta_idxs j theta fixed_theta
      = (fixed', Return tt) /\
      List.length fixed' = List.length fixed_theta /\
      (forall m, (m < List.length theta_idxs)%nat ->
                 nth (nth m theta_idxs 0%nat) fixed' 0 = nth (j + m) theta 0)
      /\
      (forall i, ~ In i theta_idxs -> nth i fixed' 0 = nth i fixed_theta 0).
Proof.
  induction theta_idxs as [|i idxs IH]; intros j fixed Hnd Hall Hlen.
  - exists fixed. simpl. repeat split; intros; lia.
  - inversion Hnd as [|? ? Hnin Hnd']; subst.
    inversion Hall as [|? ? Hi Hall']; subst.
    simpl in Hlen. cbn [MCMCSearch.logl_loop].
    rewrite (get_in_range _ theta j 0) by lia.
    destruct (set_item_Return R fixed i (nth j theta 0) 0 Hi)
      as (fixed1 & -> & Hlen1 & Hn1 & Ho1).
    destruct (IH (S j) fixed1 Hnd') as (fixed' & Hrun & Hlen' & Hw & Ho).
    + rewrite Hlen1. exact Hall'.
    + lia.
    + exists fixed'. split; [exact Hrun|]. split; [congruence|]. split.
      * intros [|m] Hm; simpl.
        -- rewrite Ho by exact Hnin. rewrite Hn1. f_equal. lia.
        -- rewrite Hw by (simpl in Hm; lia). f_equal. lia.
      * intros k Hk. simpl in Hk. rewrite Ho by tauto. apply Ho1.
        intros ->. apply Hk. left. reflexivity.
Qed.

(** With fewer proposed values than free parameters the loop raises,
    after it has written the values there are. *)
Lemma logl_loop_short (theta_idxs : list nat) (theta : list R) :
  forall (j : nat) (fixed_theta : list R),
    Forall (fun i => (i < List.length fixed_theta)%nat) theta_idxs ->
    (j <= List.length theta < j + List.length theta_idxs)%nat ->
    exists fixed',
      MCMCSearch.logl_loop theta_idxs j theta fixed_theta
      = (fixed', Raise IndexError).
Proof.
  induction theta_idxs as [|i idxs IH]; intros j fixed Hall Hlen.
  - simpl in Hlen. lia.
  - inversion Hall as [|? ? Hi Hall']; subst.
    simpl in Hlen. cbn [MCMCSearch.logl_loop].
    destruct (Nat.lt_ge_cases j (List.length theta)) as [Hj|Hj].
    + rewrite (get_in_range _ theta j 0) by exact Hj.
      destruct (set_item_Return R fixed i (nth j theta 0) 0 Hi)
        as (fixed1 & -> & Hlen1 & _).
      apply IH; [rewrite Hlen1; exact Hall'|lia].
    + rewrite (get_out_of_range _ theta j) by exact Hj.
      exists fixed. reflexivity.
Qed.

Section Isolated.

Variable Results : Type.
Variable lal_ComputeFstat : ComputeFstat.doppler -> Results.
Variable lal_twoF : Results -> R.
Variable lal_F_mn : Results -> Z -> Z -> R.

Lemma run_star_not_transient (p : ComputeFstat.doppler)
  (args : list R) :
  (7 <= List.length args <= 12)%nat ->
  ComputeFstat.run_star lal_ComputeFstat lal_twoF lal_F_mn
    (ComputeFstat.mk false false p) args
  = let p' :=
      ComputeFstat.mk_doppler
        [nth 2 args 0; nth 3 args 0; nth 4 args 0; 0; 0; 0; 0]
        (nth 5 args 0) (nth 6 args 0)
        (ComputeFstat.asini p) (ComputeFstat.period p)
        (ComputeFstat.ecc p) (ComputeFstat.tp p) (ComputeFstat.argp p) in
    (ComputeFstat.mk false false p',
     Return (lal_twoF (lal_ComputeFstat p'))).
Proof.
  intros Hlen.
  destruct args as [|a0 [|a1 [|a2 [|a3 [|a4 [|a5 [|a6 rest]]]]]]];
    simpl in Hlen; try lia.
  unfold ComputeFstat.run_star.
  replace (Nat.leb (List.length rest) 5) with true
    by (symmetry; apply Nat.leb_le; lia).
  reflexivity.
Qed.

Lemma search_logl_run
  (fresh : ComputeFstat.doppler) (fixed_theta : list R)
  (theta_idxs : list nat) (theta : list R) :
  (7 <= List.length fixed_theta <= 12)%nat ->
  NoDup theta_idxs ->
  Forall (fun i => (i < List.length fixed_theta)%nat) theta_idxs ->
  (List.length theta_idxs <= List.length theta)%nat ->
  exists fixed',
    (forall m, (m < List.length theta_idxs)%nat ->
               nth (nth m theta_idxs 0%nat) fixed' 0 = nth m theta 0) /\
    (forall i, ~ In i theta_idxs -> nth i fixed' 0 = nth i fixed_theta 0) /\
    let p :=
      ComputeFstat.mk_doppler
        [nth 2 fixed' 0; nth 3 fixed' 0; nth 4 fixed' 0; 0; 0; 0; 0]
        (nth 5 fixed' 0) (nth 6 fixed' 0)
        (ComputeFstat.asini fresh) (ComputeFstat.period fresh)
        (ComputeFstat.ecc fresh) (ComputeFstat.tp fresh)
        (ComputeFstat.argp fresh) in
    MCMCSearch.logl lal_ComputeFstat lal_twoF lal_F_mn fixed_theta
      theta_idxs theta (MCMCSearch.inititate_search_object fresh)
    = ((fixed', ComputeFstat.mk false false p),
       Return (lal_twoF (lal_ComputeFstat p))).
Proof.
  intros Hlen Hnd Hall Hth.
  destruct (logl_loop_returns theta_idxs theta 0 fixed_theta Hnd Hall Hth)
    as (fixed' & Hrun & Hlen' & Hw & Ho).
  exists fixed'. split; [exact Hw|]. split; [exact Ho|].
  unfold MCMCSearch.logl. rewrite Hrun.
  unfold MCMCSearch.inititate_search_object, ComputeFstat.__init__.
  rewrite (run_star_not_transient _ fixed') by lia.
  reflexivity.
Qed.

(** X11. [logl] of the isolated search, on the search object that
    [inititate_search_object] creates: the proposed values are written
    into [fixed_theta] at [theta_idxs], the other entries stay, and the
    value is lalpulsar's [twoF] for the entries 2 to 6 of the vector.
    The entries for [tstart] and [tend] and the five orbital entries of
    a binary search have no influence: the orbital parameters stay as
    lalpulsar created them. *)
Theorem search_logl_ignores_span_and_orbit
  (fresh : ComputeFstat.doppler) (fixed_theta : list R)
  (theta_idxs : list nat) (theta : list R) :
  (7 <= List.length fixed_theta <= 12)%nat ->
  NoDup theta_idxs ->
  Forall (fun i => (i < List.length fixed_theta)%nat) theta_idxs ->
  (List.length theta_idxs <= List.length theta)%nat ->
  exists fixed',
    (forall m, (m < List.length theta_idxs)%nat ->
               nth (nth m theta_idxs 0%nat) fixed' 0 = nth m theta 0) /\
    (forall i, ~ In i theta_idxs -> nth i fixed' 0 = nth i fixed_theta 0) /\
    let p :=
      ComputeFstat.mk_doppler
        [nth 2 fixed' 0; nth 3 fixed' 0; nth 4 fixed' 0; 0; 0; 0; 0]
        (nth 5 fixed' 0) (nth 6 fixed' 0)
        (ComputeFstat.asini fresh) (ComputeFstat.period fresh)
        (ComputeFstat.ecc fresh) (ComputeFstat.tp fresh)
        (ComputeFstat.argp fresh) in
    MCMCSearch.logl lal_ComputeFstat lal_twoF lal_F_mn fixed_theta
      theta_idxs theta (MCMCSearch.inititate_search_object fresh)
    = ((fixed', ComputeFstat.mk false false p),
       Return (lal_twoF (lal_ComputeFstat p))).
Proof.
  exact (search_logl_run fresh fixed_theta theta_idxs theta).
Qed.

End Isolated.

(** A vector of seven entries with [F0] and [Alpha] free, and the
    frequency as the value of the evaluator. *)
Lemma search_logl_ignores_span_and_orbit_witness :
  exists fixed',
    MCMCSearch.logl (fun p => p) (fun p => nth 0 (ComputeFstat.fkdot p) 0)
      (fun _ _ _ => 0) [5; 10; 0; (-1); 0; 0; 3] [2; 5]%nat [30; 6]
      (MCMCSearch.inititate_search_object
         (ComputeFstat.mk_doppler [] 0 0 0 0 0 0 0))
    = ((fixed',
        ComputeFstat.mk false false
          (ComputeFstat.mk_doppler [30; (-1); 0; 0; 0; 0; 0] 6 3 0 0 0 0 0)),
       Return 30).
Proof.
  destruct (search_logl_ignores_span_and_orbit ComputeFstat.doppler
              (fun p => p) (fun p => nth 0 (ComputeFstat.fkdot p) 0)
              (fun _ _ _ => 0)
              (ComputeFstat.mk_doppler [] 0 0 0 0 0 0 0)
              [5; 10; 0; (-1); 0; 0; 3] [2; 5]%nat [30; 6])
    as (fixed' & Hw & Ho & Hrun).
  - simpl. lia.
  - repeat (constructor; [simpl; intuition lia|]). constructor.
  - repeat (constructor; [simpl; lia|]). constructor.
  - simpl. lia.
  - exists fixed'. cbv zeta in Hrun. rewrite Hrun.
    pose proof (Hw 0%nat ltac:(simpl; lia)) as H2.
    pose proof (Hw 1%nat ltac:(simpl; lia)) as H5.
    pose proof (Ho 3%nat ltac:(simpl; intuition lia)) as H3.
    pose proof (Ho 4%nat ltac:(simpl; intuition lia)) as H4.
    pose proof (Ho 6%nat ltac:(simpl; intuition lia)) as H6.
    simpl in H2, H5, H3, H4, H6. simpl ComputeFstat.asini.
    simpl ComputeFstat.period. simpl ComputeFstat.ecc.
    simpl ComputeFstat.tp. simpl ComputeFstat.argp.
    rewrite H2, H5, H3, H4, H6. reflexivity.
Defined.

Section Glitches.
Import SemiCoherentGlitchSearch.

Variable twoF : fcall -> R.

(** X13. [logl] of the glitch search, for a vector of [5 + 3 nglitch]
    entries: the proposed values are written into [fixed_theta] at
    [theta_idxs], and the value is the sum of the statistics of
    [nglitch + 1] segments, which run from [tstart] over the last
    [nglitch] entries of the vector to [tend]. *)
Theorem glitch_logl_sums_segments (search : SemiCoherentGlitchSearch.t)
  (fixed_theta : list R) (theta_idxs : list nat) (theta : list R) :
  (1 <= nglitch search)%nat ->
  List.length fixed_theta = (5 + 3 * nglitch search)%nat ->
  NoDup theta_idxs ->
  Forall (fun i => (i < List.length fixed_theta)%nat) theta_idxs ->
  (List.length theta_idxs <= List.length theta)%nat ->
  exists fixed' total log,
    MCMCGlitchSearch.logl twoF search fixed_theta theta_idxs theta
    = (fixed', Return (total, log)) /\
    (forall m, (m < List.length theta_idxs)%nat ->
               nth (nth m theta_idxs 0%nat) fixed' 0 = nth m theta 0) /\
    (forall i, ~ In i theta_idxs -> nth i fixed' 0 = nth i fixed_theta 0) /\
    let epochs := skipn (5 + 2 * nglitch search) fixed' in
    map c_tstart log = tstart search :: epochs /\
    map c_tend log = epochs ++ [tend search] /\
    total = fold_left (fun s c => s + twoF c) log 0.
Proof.
  intros Hn Hlen Hnd Hall Hth.
  destruct (logl_loop_returns theta_idxs theta 0 fixed_theta Hnd Hall Hth)
    as (fixed' & Hrun & Hlen' & Hw & Ho).
  unfold MCMCGlitchSearch.logl. rewrite Hrun.
  destruct fixed' as [|F0 [|F1 [|F2 [|Alpha [|Delta args]]]]];
    simpl in Hlen'; try lia.
  destruct (nglitch_fstat_returns twoF search F0 F1 F2 Alpha Delta args Hn)
    as (total & log & Hret & Hs & He & Ht); [lia|].
  exists (F0 :: F1 :: F2 :: Alpha :: Delta :: args), total, log.
  rewrite Hret. split; [reflexivity|]. split; [exact Hw|].
  split; [exact Ho|].
  replace (skipn (5 + 2 * nglitch search)
             (F0 :: F1 :: F2 :: Alpha :: Delta :: args))
    with (skipn (List.length args - nglitch search) args).
  - auto.
  - change (skipn (5 + 2 * nglitch search)
              (F0 :: F1 :: F2 :: Alpha :: Delta :: args))
      with (skipn (2 * nglitch search) args).
    f_equal. lia.
Qed.

End Glitches.

(** One glitch whose epoch is free. *)
Lemma glitch_logl_sums_segments_witness :
  exists fixed' total log,
    MCMCGlitchSearch.logl c_F0 Examples.one_glitch
      [30; 0; 0; 0; 0; 0; 0; 0] [7]%nat [1]
    = (fixed', Return (total, log)) /\
    (forall m, (m < 1)%nat ->
               nth (nth m [7]%nat 0%nat) fixed' 0 = nth m [1] 0) /\
    (forall i, ~ In i [7]%nat ->
               nth i fixed' 0 = nth i [30; 0; 0; 0; 0; 0; 0; 0] 0) /\
    let epochs := skipn 7 fixed' in
    map c_tstart log = 0 :: epochs /\
    map c_tend log = epochs ++ [2] /\
    total = fold_left (fun s c => s + c_F0 c) log 0.
Proof.
  apply (glitch_logl_sums_segments c_F0 Examples.one_glitch
           [30; 0; 0; 0; 0; 0; 0; 0] [7]%nat [1]).
  - simpl. lia.
  - reflexivity.
  - repeat (constructor; [simpl; intuition lia|]). constructor.
  - repeat (constructor; [simpl; lia|]). constructor.
  - simpl. lia.
Defined.

End Likelihoods.

(** ** The likelihood of a prior *)

Section LikelihoodOfPrior.
Import Packing.
Local Open Scope R_scope.

Variable Results : Type.
Variable lal_ComputeFstat : ComputeFstat.doppler -> Results.
Variable lal_twoF : Results -> R.
Variable lal_F_mn : Results -> Z -> Z -> R.

Lemma position_lt key l : In key l -> (position key l < List.length l)%nat.
Proof.
  induction l as [|a l IH]; simpl; [intros []|].
  intros Hin. destruct (String.eqb_spec key a); [lia|].
  destruct Hin as [->|Hin]; [congruence|]. apply IH in Hin. lia.
Qed.

Lemma position_inj l k k' :
  In k l -> In k' l -> position k l = position k' l -> k = k'.
Proof.
  intros Hk Hk' E. rewrite <- (nth_position k l Hk), E.
  apply nth_position. exact Hk'.
Qed.

Lemma NoDup_positions (l ks : list string) :
  NoDup ks -> (forall k, In k ks -> In k l) ->
  NoDup (map (fun k => position k l) ks).
Proof.
  induction 1 as [|k ks Hnin Hnd IH]; intros Hin; simpl; constructor.
  - intros H. apply in_map_iff in H as (k' & E & Hk').
    apply position_inj in E; [subst k'; contradiction| |];
      apply Hin; [right; exact Hk'|left; reflexivity].
  - apply IH. intros; apply Hin; right; assumption.
Qed.

Lemma nth_map_position (l ks : list string) (k : string) :
  In k ks ->
  nth (position k ks) (map (fun k => position k l) ks) 0%nat = position k l.
Proof.
  intros Hk.
  rewrite (nth_indep _ 0%nat (position ""%string l))
    by (rewrite length_map; apply position_lt; exact Hk).
  rewrite (map_nth (fun k => position k l)).
  rewrite nth_position by exact Hk. reflexivity.
Qed.

(** X12. For the layout of a prior, [logl] of the isolated search returns
    lalpulsar's [twoF] at the point whose every coordinate is the number
    the prior fixes, or the proposed value of the key when it is free. *)
Theorem search_logl_of_prior (binary : bool) (prior : PyDict.t pyval)
  (l : layout) (theta : list R) (fresh : ComputeFstat.doppler) :
  PyDict.wf prior ->
  MCMCSearch.unpack_input_theta binary prior = Return l ->
  (List.length (theta_keys l) <= List.length theta)%nat ->
  let value key :=
    match PyDict.get key prior with
    | Return (PyNum x) => x
    | _ => nth (position key (theta_keys l)) theta 0
    end in
  snd (MCMCSearch.logl lal_ComputeFstat lal_twoF lal_F_mn (fixed_theta l)
         (theta_idxs l) theta (MCMCSearch.inititate_search_object fresh))
  = Return
      (lal_twoF
         (lal_ComputeFstat
            (ComputeFstat.mk_doppler
               [value "F0"%string; value "F1"%string; value "F2"%string;
                0; 0; 0; 0]
               (value "Alpha"%string) (value "Delta"%string)
               (ComputeFstat.asini fresh) (ComputeFstat.period fresh)
               (ComputeFstat.ecc fresh) (ComputeFstat.tp fresh)
               (ComputeFstat.argp fresh)))).
Proof.
  intros Hwf Hl Hth value.
  destruct (search_layout_facts binary prior l Hwf Hl)
    as (Hkeys & Hidx & Hlen & Hfixed & _).
  set (full := MCMCSearch.full_theta_keys binary) in *.
  assert (Hnd : NoDup full) by apply search_keys_nodup.
  assert (Hsub : forall k, In k (theta_keys l) -> In k full).
  { intros k Hk. rewrite Hkeys in Hk. apply filter_In in Hk. tauto. }
  pose proof Hl as Hrun. rewrite search_unpack_run in Hrun.
  pose proof (run_Return_recognised _ _ _ _ Hrun) as Hrec.
  pose proof (run_Return_same_keys _ _ _ Hrec _ Hrun) as Hsame.
  rewrite !expand_one in Hsame.
  destruct (search_logl_run Results lal_ComputeFstat lal_twoF lal_F_mn fresh
              (fixed_theta l) (theta_idxs l) theta)
    as (fixed' & Hw & Ho & Hrun').
  - rewrite Hlen. unfold full, MCMCSearch.full_theta_keys.
    destruct binary; simpl; lia.
  - rewrite Hidx. apply NoDup_positions; [|exact Hsub].
    rewrite Hkeys. apply NoDup_filter, Hnd.
  - rewrite Hidx, Hlen. apply Forall_forall. intros i Hi.
    apply in_map_iff in Hi as (k & <- & Hk). apply position_lt, Hsub, Hk.
  - rewrite Hidx, length_map. exact Hth.
  - cbv zeta in Hrun'. rewrite Hrun'. cbn [snd].
    assert (Hval : forall k, In k full ->
              nth (position k full) fixed' 0 = value k).
    { intros k Hk. unfold value.
      destruct (in_dec string_dec k (theta_keys l)) as [Hfree|Hfix].
      - pose proof Hfree as Hf. rewrite Hkeys in Hf.
        apply filter_In in Hf as [_ Hf]. unfold is_free in Hf.
        destruct (PyDict.get k prior) as [[x|kw|]| |]; try discriminate.
        rewrite <- (nth_map_position full (theta_keys l) k Hfree).
        rewrite <- Hidx. apply Hw. rewrite Hidx, length_map.
        apply position_lt, Hfree.
      - rewrite Ho.
        + assert (Hin : In k (PyDict.keys prior)) by (apply Hsame, Hk).
          unfold PyDict.keys in Hin. apply in_map_iff in Hin.
          destruct Hin as ([k' v] & E & Hin). simpl in E. subst k'.
          rewrite (get_In _ k v prior Hwf Hin).
          rewrite Forall_forall in Hrec. specialize (Hrec _ Hin).
          simpl in Hrec. destruct v as [x|kw|].
          * apply Hfixed. apply get_In; assumption.
          * exfalso. apply Hfix. rewrite Hkeys. apply filter_In.
            split; [exact Hk|]. unfold is_free.
            rewrite (get_In _ k _ prior Hwf Hin). reflexivity.
          * exfalso. apply Hrec. reflexivity.
        + rewrite Hidx. intros Hin.
          apply in_map_iff in Hin as (k' & E & Hk').
          apply position_inj in E; [subst k'; contradiction| |];
            [apply Hsub, Hk'|exact Hk]. }
    assert (H2 : In "F0"%string full)
      by (unfold full, MCMCSearch.full_theta_keys; simpl; tauto).
    assert (H3 : In "F1"%string full)
      by (unfold full, MCMCSearch.full_theta_keys; simpl; tauto).
    assert (H4 : In "F2"%string full)
      by (unfold full, MCMCSearch.full_theta_keys; simpl; tauto).
    assert (H5 : In "Alpha"%string full)
      by (unfold full, MCMCSearch.full_theta_keys; simpl; tauto).
    assert (H6 : In "Delta"%string full)
      by (unfold full, MCMCSearch.full_theta_keys; simpl; tauto).
    rewrite <- (Hval _ H2), <- (Hval _ H3), <- (Hval _ H4), <- (Hval _ H5),
      <- (Hval _ H6).
    reflexivity.
Qed.

End LikelihoodOfPrior.

(** The prior of the example, with the sum of the frequency and the
    right ascension as the value of the evaluator. *)
Lemma search_logl_of_prior_witness :
  snd (MCMCSearch.logl (fun p => p)
         (fun p => (nth 0 (ComputeFstat.fkdot p) 0 + ComputeFstat.Alpha p)%R)
         (fun _ _ _ => 0%R) [5; 10; 0; (-1); 0; 0; 3]%R [2; 5]%nat
         [30; 6]%R
         (MCMCSearch.inititate_search_object
            (ComputeFstat.mk_doppler [] 0 0 0 0 0 0 0)))
  = Return (30 + 6)%R.
Proof.
  exact (search_logl_of_prior ComputeFstat.doppler (fun p => p)
           (fun p => (nth 0 (ComputeFstat.fkdot p) 0 + ComputeFstat.Alpha p)%R)
           (fun _ _ _ => 0%R) false Packing.complete_prior
           (mk_layout ["F0"; "Alpha"]%string [2; 5]%nat
              [5; 10; 0; (-1); 0; 0; 3]%R)
           [30; 6]%R (ComputeFstat.mk_doppler [] 0 0 0 0 0 0 0)
           ltac:(unfold PyDict.wf; simpl;
                 repeat (constructor; [simpl; intuition discriminate|]);
                 constructor)
           eq_refl ltac:(simpl; lia)).
Defined.

(** ** The corrections of the walkers *)

Section WalkerCorrections.
Local Open Scope R_scope.

Lemma np_insert_perm x l : Permutation (Np.insert x l) (x :: l).
Proof.
  induction l as [|y l IH]; simpl; [reflexivity|].
  destruct (Float.Rleb x y); [reflexivity|].
  etransitivity; [apply perm_skip, IH|apply perm_swap].
Qed.

Lemma np_sort_perm l : Permutation (Np.sort l) l.
Proof.
  induction l as [|x l IH]; simpl; [constructor|].
  etransitivity; [apply np_insert_perm|apply perm_skip, IH].
Qed.

Lemma np_insert_sorted x l : Sorted Rle l -> Sorted Rle (Np.insert x l).
Proof.
  induction 1 as [|y l Hs IH Hhd]; simpl; [repeat constructor|].
  unfold Float.Rleb. destruct (Rle_dec x y) as [Hle|Hgt].
  - constructor; [constructor; assumption|constructor; exact Hle].
  - constructor; [exact IH|].
    destruct l as [|z l]; simpl.
    + constructor. lra.
    + inversion Hhd; subst. destruct (Float.Rleb x z); constructor; lra.
Qed.

Lemma np_sort_sorted l : Sorted Rle (Np.sort l).
Proof.
  induction l as [|x l IH]; simpl; [constructor|].
  apply np_insert_sorted, IH.
Qed.

Lemma np_sort_of_sorted l : Sorted Rle l -> Np.sort l = l.
Proof.
  induction 1 as [|x l Hs IH Hhd]; simpl; [reflexivity|].
  rewrite IH. destruct Hhd as [|y l Hxy]; simpl; [reflexivity|].
  rewrite Rleb_true by exact Hxy. reflexivity.
Qed.

Lemma np_sort_length l : List.length (Np.sort l) = List.length l.
Proof. apply Permutation_length, np_sort_perm. Qed.

(** The walker after the correction: the coordinates before the last
    [nglitch] as they were, then the last [nglitch] in increasing
    order. *)
Lemma correct_walker_eq (nglitch : nat) (walker : list R) :
  (0 < nglitch)%nat ->
  MCMCGlitchSearch.correct_walker nglitch walker
  = firstn (List.length walker - nglitch) walker
    ++ Np.sort (skipn (List.length walker - nglitch) walker).
Proof.
  intros Hn. unfold MCMCGlitchSearch.correct_walker.
  rewrite slice_from_length.
  replace (Nat.eqb nglitch 0) with false
    by (symmetry; apply Nat.eqb_neq; lia).
  destruct (Nat.le_gt_cases nglitch (List.length walker)) as [Hle|Hgt].
  - rewrite slice_from_last by lia.
    replace (List.length walker - Nat.min nglitch (List.length walker))%nat
      with (List.length walker - nglitch)%nat by lia.
    reflexivity.
  - replace (List.length walker - Nat.min nglitch (List.length walker))%nat
      with 0%nat by lia.
    replace (List.length walker - nglitch)%nat with 0%nat by lia.
    unfold PyList.slice_from, PyList.clamp.
    replace (- Z.of_nat nglitch <? 0)%Z with true
      by (symmetry; apply Z.ltb_lt; lia).
    replace (Z.to_nat (Z.max 0 (- Z.of_nat nglitch
                                + Z.of_nat (List.length walker))))
      with 0%nat by lia.
    reflexivity.
Qed.

Lemma correct_walker_idempotent (nglitch : nat) (walker : list R) :
  (0 < nglitch)%nat ->
  MCMCGlitchSearch.correct_walker nglitch
    (MCMCGlitchSearch.correct_walker nglitch walker)
  = MCMCGlitchSearch.correct_walker nglitch walker.
Proof.
  intros Hn. rewrite (correct_walker_eq nglitch walker Hn).
  set (k := (List.length walker - nglitch)%nat).
  assert (Hk : List.length (firstn k walker) = k)
    by (rewrite length_firstn; unfold k; lia).
  assert (Hlen : List.length (firstn k walker ++ Np.sort (skipn k walker))
                 = List.length walker).
  { rewrite length_app, np_sort_length, <- length_app, firstn_skipn.
    reflexivity. }
  rewrite correct_walker_eq by exact Hn. rewrite Hlen. fold k.
  rewrite firstn_app, Hk, Nat.sub_diag, firstn_O, app_nil_r.
  rewrite <- Hk at 1. rewrite firstn_all.
  rewrite skipn_app, Hk, Nat.sub_diag, skipn_O.
  rewrite <- Hk at 2. rewrite skipn_all. simpl app.
  rewrite np_sort_of_sorted by apply np_sort_sorted. reflexivity.
Qed.

Lemma correct_walker_length (nglitch : nat) (walker : list R) :
  List.length (MCMCGlitchSearch.correct_walker nglitch walker)
  = List.length walker.
Proof.
  unfold MCMCGlitchSearch.correct_walker.
  rewrite length_app, np_sort_length, length_firstn.
  assert (List.length (PyList.slice_from (- Z.of_nat nglitch) walker)
          <= List.length walker)%nat.
  { unfold PyList.slice_from. rewrite length_skipn. lia. }
  lia.
Qed.

Lemma forallb_map_eq (A B : Type) (f : A -> B) (g : B -> bool) (l : list A) :
  forallb g (map f l) = forallb (fun a => g (f a)) l.
Proof.
  induction l as [|a l IH]; simpl; [reflexivity|]. rewrite IH. reflexivity.
Qed.

Lemma forallb_pointwise (A : Type) (f g : A -> bool) (l : list A) :
  (forall a, f a = g a) -> forallb f l = forallb g l.
Proof.
  intros H. induction l as [|a l IH]; simpl; [reflexivity|].
  rewrite H, IH. reflexivity.
Qed.

Lemma shape_test_map (f : list R -> list R) (w0 : list R)
  (t0 t : list (list R)) :
  (forall w, List.length (f w) = List.length w) ->
  Nat.eqb (List.length (map f t)) (List.length (map f t0))
  && forallb (fun w => Nat.eqb (List.length w) (List.length (f w0)))
             (map f t)
  = Nat.eqb (List.length t) (List.length t0)
    && forallb (fun w => Nat.eqb (List.length w) (List.length w0)) t.
Proof.
  intros Hf. rewrite !length_map, forallb_map_eq, Hf. f_equal.
  apply forallb_pointwise. intros w. rewrite Hf. reflexivity.
Qed.

(** The correction keeps the shape of the array. *)
Lemma three_axes_corrected (nglitch : nat) (p0 : list (list (list R))) :
  MCMCGlitchSearch.three_axes
    (map (map (MCMCGlitchSearch.correct_walker nglitch)) p0)
  = MCMCGlitchSearch.three_axes p0.
Proof.
  set (f := MCMCGlitchSearch.correct_walker nglitch).
  destruct p0 as [|[|walker temp] p0]; try reflexivity.
  unfold MCMCGlitchSearch.three_axes. cbn [map].
  change (f walker :: map f temp) with (map f (walker :: temp)).
  change (map f (walker :: temp) :: map (map f) p0)
    with (map (map f) ((walker :: temp) :: p0)).
  rewrite forallb_map_eq. apply forallb_pointwise. intros t.
  apply shape_test_map. intros w. apply correct_walker_length.
Qed.

(** An array of three axes comes from a rectangular list. *)
Lemma three_axes_rectangular (p0 : list (list (list R))) :
  MCMCGlitchSearch.three_axes p0 = true ->
  MCMCGlitchSearch.rectangular p0 = true.
Proof.
  destruct p0 as [|[|walker temp] p0]; try discriminate.
  unfold MCMCGlitchSearch.three_axes, MCMCGlitchSearch.rectangular.
  intros H. rewrite forallb_forall in H.
  assert (Hall : forall t, In t ((walker :: temp) :: p0) ->
            Nat.eqb (List.length t) (List.length (walker :: temp)) = true /\
            forall w, In w t ->
              Nat.eqb (List.length w) (List.length walker) = true).
  { intros t Ht. specialize (H t Ht). apply andb_true_iff in H as [H1 H2].
    split; [exact H1|]. rewrite forallb_forall in H2. exact H2. }
  apply andb_true_iff. split.
  - apply forallb_forall. intros t Ht. apply Hall, Ht.
  - change (concat ((walker :: temp) :: p0))
      with (walker :: (temp ++ concat p0)).
    apply forallb_forall. intros w Hw.
    change (walker :: (temp ++ concat p0))
      with (concat ((walker :: temp) :: p0)) in Hw.
    apply in_concat in Hw as (t & Ht & Hw).
    exact (proj2 (Hall t Ht) w Hw).
Qed.

(** X14. For more than one glitch and walkers that make an array of
    three axes, [apply_corrections_to_p0] puts the last [nglitch]
    coordinates of every walker in increasing order and leaves the
    coordinates before them, and applied to its result it returns the
    result.  For walkers that do not make such an array it raises:
    [IndexError], or the [ValueError] of a ragged list with the numpy
    that refuses one. *)
Theorem corrections_sort_the_epochs (ragged_raises : bool) (nglitch : nat)
  (p0 : list (list (list R))) :
  (1 < nglitch)%nat ->
  (MCMCGlitchSearch.three_axes p0 = true ->
   exists corrected,
     MCMCGlitchSearch.apply_corrections_to_p0 ragged_raises nglitch p0
     = Return corrected /\
     Forall2
       (Forall2
          (fun walker walker' =>
             let k := (List.length walker - nglitch)%nat in
             List.length walker' = List.length walker /\
             firstn k walker' = firstn k walker /\
             Sorted Rle (skipn k walker') /\
             Permutation (skipn k walker') (skipn k walker)))
       p0 corrected /\
     MCMCGlitchSearch.apply_corrections_to_p0 ragged_raises nglitch corrected
     = Return corrected) /\
  (MCMCGlitchSearch.three_axes p0 = false ->
   MCMCGlitchSearch.apply_corrections_to_p0 ragged_raises nglitch p0
   = Raise (if ragged_raises && negb (MCMCGlitchSearch.rectangular p0)
            then ValueError_ragged else IndexError)).
Proof.
  intros Hn. unfold MCMCGlitchSearch.apply_corrections_to_p0.
  replace (Nat.ltb 1 nglitch) with true by (symmetry; apply Nat.ltb_lt; lia).
  split.
  2: { intros ->.
       destruct (ragged_raises && negb (MCMCGlitchSearch.rectangular p0));
         reflexivity. }
  intros Hshape.
  rewrite (three_axes_rectangular p0 Hshape), Hshape.
  rewrite andb_false_r.
  exists (map (map (MCMCGlitchSearch.correct_walker nglitch)) p0).
  split; [reflexivity|]. split.
  - clear Hshape.
    induction p0 as [|temp p0 IH]; simpl; constructor; [|exact IH].
    clear IH. induction temp as [|walker temp IH]; simpl; constructor;
      [|exact IH].
    rewrite correct_walker_eq by lia.
    set (k := (List.length walker - nglitch)%nat).
    assert (Hk : List.length (firstn k walker) = k)
      by (rewrite length_firstn; unfold k; lia).
    cbv zeta. fold k. split; [|split; [|split]].
    + rewrite length_app, np_sort_length, <- length_app, firstn_skipn.
      reflexivity.
    + rewrite firstn_app, Hk, Nat.sub_diag, firstn_O, app_nil_r.
      rewrite <- Hk at 1. apply firstn_all.
    + rewrite skipn_app, Hk, Nat.sub_diag, skipn_O.
      rewrite <- Hk at 1. rewrite skipn_all. apply np_sort_sorted.
    + rewrite skipn_app, Hk, Nat.sub_diag, skipn_O.
      rewrite <- Hk at 1. rewrite skipn_all. apply np_sort_perm.
  - assert (Hshape' : MCMCGlitchSearch.three_axes
                        (map (map (MCMCGlitchSearch.correct_walker nglitch))
                             p0) = true)
      by (rewrite three_axes_corrected; exact Hshape).
    rewrite (three_axes_rectangular _ Hshape'), Hshape', andb_false_r.
    cbv iota. f_equal.
    rewrite map_map. apply map_ext. intros temp.
    rewrite map_map. apply map_ext. intros walker.
    apply correct_walker_idempotent. lia.
Qed.

(** One walker of a search for two glitches. *)
Lemma corrections_sort_the_epochs_witness :
  exists corrected,
    MCMCGlitchSearch.apply_corrections_to_p0 true 2 [[[30; 5; 3]]]
    = Return corrected /\
    Forall2
      (Forall2
         (fun walker walker' =>
            let k := (List.length walker - 2)%nat in
            List.length walker' = List.length walker /\
            firstn k walker' = firstn k walker /\
            Sorted Rle (skipn k walker') /\
            Permutation (skipn k walker') (skipn k walker)))
      [[[30; 5; 3]]] corrected /\
    MCMCGlitchSearch.apply_corrections_to_p0 true 2 corrected
    = Return corrected.
Proof.
  apply (proj1 (corrections_sort_the_epochs true 2 [[[30; 5; 3]]] (le_n 2))).
  reflexivity.
Defined.

(** With at most one glitch the walkers are left as they are. *)
Lemma corrections_leave_one_glitch (nglitch : nat)
  (p0 : list (list (list R))) :
  (nglitch <= 1)%nat ->
  MCMCGlitchSearch.apply_corrections_to_p0 false nglitch p0 = Return p0.
Proof.
  intros Hn. unfold MCMCGlitchSearch.apply_corrections_to_p0.
  replace (Nat.ltb 1 nglitch) with false
    by (symmetry; apply Nat.ltb_ge; lia).
  reflexivity.
Qed.

End WalkerCorrections.

(** ** Uniform priors *)

Section UniformPriors.
Import Packing MCMCSearch.
Local Open Scope R_scope.

Lemma prior_terms_uniform (theta_vals : pyseq) (theta_prior : PyDict.t pyval)
  (theta_keys : list string) (bounds : list (R * R)) :
  Forall2 (fun key b => uniform_on theta_prior key (fst b) (snd b))
          theta_keys bounds ->
  prior_terms theta_vals theta_prior theta_keys
  = Return (map (fun xb => logunif (fst xb) (fst (snd xb)) (snd (snd xb)))
                (combine (elements theta_vals) bounds)).
Proof.
  unfold prior_terms. generalize (elements theta_vals) as vals.
  intros vals H. revert vals.
  induction H as [|key b keys bounds (p & Hget & Hlo & Hhi) _ IH];
    intros [|x vals]; try reflexivity.
  cbn [combine mapM map fst snd]. rewrite Hget. cbn [bind].
  unfold generic_lnprior. cbn [kw_type kw_params String.eqb Ascii.eqb
                                Bool.eqb]. cbv iota.
  rewrite Hlo, Hhi. cbn [bind]. rewrite IH. reflexivity.
Qed.

Lemma sum_of_uniform_terms (l : list (R * (R * R))) :
  forall s,
    fold_left Float.add
      (map (fun xb => logunif (fst xb) (fst (snd xb)) (snd (snd xb))) l)
      (Fin s)
    = if forallb (fun xb => Float.Rltb (fst xb) (snd (snd xb))
                            && Float.Rltb (fst (snd xb)) (fst xb)) l
      then Fin (fold_left Rplus
                  (map (fun xb => - ln (snd (snd xb) - fst (snd xb))) l) s)
      else NegInf.
Proof.
  assert (Hneg : forall l' : list (R * (R * R)),
            fold_left Float.add
              (map (fun xb => logunif (fst xb) (fst (snd xb)) (snd (snd xb)))
                   l') NegInf = NegInf).
  { induction l' as [|xb l' IH]; simpl; [reflexivity|].
    unfold logunif. destruct (_ && _); simpl; exact IH. }
  induction l as [|xb l IH]; intros s; simpl; [reflexivity|].
  unfold logunif at 2.
  destruct (Float.Rltb (fst xb) (snd (snd xb))
            && Float.Rltb (fst (snd xb)) (fst xb)); simpl.
  - apply IH.
  - apply Hneg.
Qed.

(** X15. With uniform priors, [logp] returns minus the sum of the
    logarithms of the widths when every value lies strictly between the
    bounds of its key, and minus infinity otherwise: a value on a bound
    is outside. *)
Theorem logp_uniform_box (theta_vals : pyseq) (theta_prior : PyDict.t pyval)
  (theta_keys : list string) (bounds : list (R * R)) :
  Forall2 (fun key b => uniform_on theta_prior key (fst b) (snd b))
          theta_keys bounds ->
  List.length (elements theta_vals) = List.length theta_keys ->
  (Forall2 (fun x b => fst b < x < snd b) (elements theta_vals) bounds ->
   logp theta_vals theta_prior theta_keys
   = Return (Fin (Float.Rsum (map (fun b => - ln (snd b - fst b)) bounds))))
  /\
  (~ Forall2 (fun x b => fst b < x < snd b) (elements theta_vals) bounds ->
   logp theta_vals theta_prior theta_keys = Return NegInf).
Proof.
  intros Hprior Hlen. unfold logp.
  rewrite (prior_terms_uniform _ _ _ bounds Hprior). cbn [bind].
  unfold Float.sum. rewrite sum_of_uniform_terms.
  pose proof (Forall2_length Hprior) as Hlb. rewrite <- Hlen in Hlb.
  revert Hlb. generalize (elements theta_vals) as vals. intros vals Hlb.
  assert (Hbox : forallb (fun xb => Float.Rltb (fst xb) (snd (snd xb))
                                    && Float.Rltb (fst (snd xb)) (fst xb))
                         (combine vals bounds) = true
                 <-> Forall2 (fun x b => fst b < x < snd b) vals bounds).
  { clear -Hlb. revert bounds Hlb.
    induction vals as [|x vals IH]; intros [|b bounds] Hlb;
      simpl in Hlb; try discriminate.
    - simpl. split; [constructor|reflexivity].
    - simpl. rewrite !andb_true_iff, IH by congruence.
      unfold Float.Rltb.
      destruct (Rlt_dec x (snd b)), (Rlt_dec (fst b) x); split.
      all: try (intros [[? ?] ?]; discriminate).
      all: try (intros H; inversion H; subst; lra).
      + intros [_ H]. constructor; [lra|exact H].
      + intros H. inversion H; subst. auto. }
  assert (Hmap : map (fun xb : R * (R * R) =>
                        - ln (snd (snd xb) - fst (snd xb)))
                     (combine vals bounds)
                 = map (fun b => - ln (snd b - fst b)) bounds).
  { clear -Hlb. revert bounds Hlb.
    induction vals as [|x vals IH]; intros [|b bounds] Hlb;
      simpl in Hlb; try discriminate; [reflexivity|].
    simpl. f_equal. apply IH. congruence. }
  split; intros H.
  - rewrite (proj2 Hbox H), Hmap. reflexivity.
  - destruct (forallb _ _) eqn:E; [|reflexivity].
    exfalso. apply H, Hbox. reflexivity.
Qed.

End UniformPriors.


(** A value on the upper bound of its key. *)
Lemma logp_uniform_box_witness :
  MCMCSearch.logp (NdArray [31; 3]%R) Packing.box_prior
    ["F0"; "Alpha"]%string
  = Return NegInf.
Proof.
  apply (proj2 (logp_uniform_box (NdArray [31; 3]%R) Packing.box_prior
                  ["F0"; "Alpha"]%string [(29, 31); (0, 6)]%R
                  ltac:(repeat constructor;
                        eexists; repeat split; reflexivity)
                  eq_refl)).
  intros H. inversion H; subst. simpl in *. lra.
Defined.

(** ** The summary by medians *)

Section Summaries.
Local Open Scope R_scope.

Lemma string_length_append (s1 s2 : string) :
  String.length (s1 ++ s2) = (String.length s1 + String.length s2)%nat.
Proof. induction s1 as [|c s1 IH]; simpl; [reflexivity|]. rewrite IH. reflexivity. Qed.

Lemma std_key_differs (k : string) : (k ++ "_std")%string <> k.
Proof.
  intros H. apply (f_equal String.length) in H.
  rewrite string_length_append in H. simpl in H. lia.
Qed.

Lemma append_same_suffix (k k' s : string) :
  (k' ++ s)%string = (k ++ s)%string -> k' = k.
Proof.
  revert k. induction k' as [|c k' IH]; intros [|c' k] E; simpl in E.
  - reflexivity.
  - apply (f_equal String.length) in E. simpl in E.
    rewrite string_length_append in E. lia.
  - apply (f_equal String.length) in E. simpl in E.
    rewrite string_length_append in E. lia.
  - injection E as -> E. f_equal. apply IH. exact E.
Qed.

(** Columns with other keys leave the entry of a key as it is. *)
Lemma median_stds_loop_other (key : string)
  (cols_keys : list (list R * string)) :
  forall d,
    (forall s k, In (s, k) cols_keys ->
                 k <> key /\ (k ++ "_std")%string <> key) ->
    PyDict.get key (MCMCSearch.median_stds_loop cols_keys d)
    = PyDict.get key d.
Proof.
  induction cols_keys as [|[s k] rest IH]; intros d H; simpl;
    [reflexivity|].
  destruct (H s k (or_introl eq_refl)) as [H1 H2].
  rewrite IH by (intros; apply (H s0 k0); right; assumption).
  rewrite get_set_other by congruence.
  apply get_set_other. congruence.
Qed.

Lemma median_stds_loop_last (cols_keys : list (list R * string)) :
  forall d i s k,
    nth_error cols_keys i = Some (s, k) ->
    (forall j s' k', (i < j)%nat -> nth_error cols_keys j = Some (s', k') ->
                     k' <> k) ->
    (forall s' k', In (s', k') cols_keys ->
                   k' <> (k ++ "_std")%string /\
                   (k' ++ "_std")%string <> k) ->
    let d' := MCMCSearch.median_stds_loop cols_keys d in
    PyDict.get k d' = Return (Np.median s) /\
    PyDict.get (k ++ "_std")%string d' = Return (Float.std s).
Proof.
  induction cols_keys as [|[s0 k0] rest IH]; intros d i s k Hi Hlater Hstd.
  - destruct i; discriminate.
  - destruct i as [|i]; simpl in Hi.
    + injection Hi as -> ->. cbv zeta. simpl. split.
      * rewrite median_stds_loop_other.
        -- rewrite get_set_other by (intros E; exact (std_key_differs k (eq_sym E))).
           apply get_set_same.
        -- intros s' k' Hin. split.
           ++ destruct (In_nth_error _ _ Hin) as (j & Hj).
              apply (Hlater (S j) s' k'); [lia|exact Hj].
           ++ apply (Hstd s' k'). right. exact Hin.
      * rewrite median_stds_loop_other; [apply get_set_same|].
        intros s' k' Hin. split.
        -- apply (Hstd s' k'). right. exact Hin.
        -- destruct (In_nth_error _ _ Hin) as (j & Hj).
           intros E. apply (Hlater (S j) s' k'); [lia|exact Hj|].
           exact (append_same_suffix _ _ _ E).
    + simpl. apply (IH _ i s k Hi).
      * intros j s' k' Hj. apply (Hlater (S j) s' k'). lia.
      * intros s' k' Hin. apply (Hstd s' k'). right. exact Hin.
Qed.

(** The columns of an array whose rows have the entries its shape
    says. *)
Lemma transpose_columns (samples : Np.array2) :
  Forall (fun row => List.length row = Np.a_ncols samples)
         (Np.a_rows samples) ->
  Np.transpose samples
  = Return (map (fun i => map (fun row => nth i row 0) (Np.a_rows samples))
                (seq 0 (Np.a_ncols samples))).
Proof.
  intros Hwf. unfold Np.transpose.
  apply mapM_total. intros i Hi. apply in_seq in Hi.
  apply mapM_total. intros row Hrow.
  rewrite Forall_forall in Hwf. specialize (Hwf row Hrow).
  unfold PyList.get. rewrite (nth_error_nth' row 0) by lia. reflexivity.
Qed.

Lemma nth_error_columns (ndim : nat) (rows : list (list R)) (i : nat) :
  (i < ndim)%nat ->
  nth_error (map (fun i => map (fun row => nth i row 0) rows) (seq 0 ndim)) i
  = Some (map (fun row => nth i row 0) rows).
Proof.
  intros Hi. rewrite nth_error_map, nth_error_seq.
  replace (Nat.ltb i ndim) with true by (symmetry; apply Nat.ltb_lt; lia).
  reflexivity.
Qed.

Lemma nth_error_combine (A B : Type) (l : list A) (l' : list B) i a b :
  nth_error (combine l l') i = Some (a, b) <->
  nth_error l i = Some a /\ nth_error l' i = Some b.
Proof.
  revert l' i. induction l as [|x l IH]; intros [|y l'] [|i]; simpl;
    try (split; [discriminate|intros [H1 H2]; discriminate]).
  - split; [intros H; injection H as -> ->; auto|].
    intros [H1 H2]. congruence.
  - apply IH.
Qed.

(** The keys of the dictionary come from the pairs of the loop. *)
Lemma median_stds_loop_keys (cols_keys : list (list R * string)) :
  forall d k,
    In k (PyDict.keys (MCMCSearch.median_stds_loop cols_keys d)) ->
    In k (PyDict.keys d) \/
    exists s k', In (s, k') cols_keys /\
                 (k = k' \/ k = (k' ++ "_std")%string).
Proof.
  induction cols_keys as [|[s0 k0] rest IH]; intros d k Hk; simpl in Hk.
  - left. exact Hk.
  - apply IH in Hk as [Hk|(s & k' & Hin & Hk)].
    + apply keys_set_In in Hk as [->|Hk].
      * right. exists s0, k0. split; [left; reflexivity|right; reflexivity].
      * apply keys_set_In in Hk as [->|Hk]; [|left; exact Hk].
        right. exists s0, k0. split; [left; reflexivity|left; reflexivity].
    + right. exists s, k'. split; [right; exact Hin|exact Hk].
Qed.

(** X19. For an array of samples, [get_median_stds] pairs the columns
    with the keys and stops at the shorter of the two: the dictionary
    has entries for the keys that have a column, and no others.  Under
    a key it holds the median and the deviation of the last column that
    carries the key: for a repeated key the columns before are
    overwritten. *)
Theorem median_stds_of_repeated_key (samples : Np.array2)
  (theta_keys : list string) (i : nat) :
  Forall (fun row => List.length row = Np.a_ncols samples)
         (Np.a_rows samples) ->
  (i < Np.a_ncols samples)%nat ->
  (i < List.length theta_keys)%nat ->
  let key := nth i theta_keys ""%string in
  (forall j, (i < j)%nat -> (j < Np.a_ncols samples)%nat ->
             (j < List.length theta_keys)%nat ->
             nth j theta_keys ""%string <> key) ->
  (forall k, In k theta_keys ->
             k <> (key ++ "_std")%string /\ (k ++ "_std")%string <> key) ->
  let column := map (fun row => nth i row 0) (Np.a_rows samples) in
  exists d,
    MCMCSearch.get_median_stds samples theta_keys = Return d /\
    PyDict.get key d = Return (Np.median column) /\
    PyDict.get (key ++ "_std")%string d = Return (Float.std column) /\
    (forall k, In k (PyDict.keys d) ->
       exists j, (j < Np.a_ncols samples)%nat /\
                 (j < List.length theta_keys)%nat /\
                 (k = nth j theta_keys ""%string \/
                  k = (nth j theta_keys "" ++ "_std")%string)).
Proof.
  intros Hwf Hi Hik key Hlater Hstd column.
  unfold MCMCSearch.get_median_stds.
  rewrite (transpose_columns samples Hwf). cbn [bind].
  eexists. split; [reflexivity|].
  set (cols := map (fun i => map (fun row => nth i row 0) (Np.a_rows samples))
                   (seq 0 (Np.a_ncols samples))).
  assert (Hlast :
            PyDict.get key
              (MCMCSearch.median_stds_loop (combine cols theta_keys) [])
            = Return (Np.median column) /\
            PyDict.get (key ++ "_std")%string
              (MCMCSearch.median_stds_loop (combine cols theta_keys) [])
            = Return (Float.std column)).
  { apply (median_stds_loop_last _ [] i).
    - apply nth_error_combine. split.
      + apply nth_error_columns. exact Hi.
      + unfold key. apply nth_error_nth'. exact Hik.
    - intros j s' k' Hj Hn. apply nth_error_combine in Hn as [Hc Hn].
      assert (Hjl : (j < List.length theta_keys)%nat)
        by (apply nth_error_Some; congruence).
      assert (Hjc : (j < Np.a_ncols samples)%nat).
      { assert (j < List.length cols)%nat
          by (apply nth_error_Some; congruence).
        unfold cols in *. rewrite length_map, length_seq in *. assumption. }
      rewrite <- (nth_error_nth _ _ ""%string Hn).
      apply Hlater; assumption.
    - intros s' k' Hin. apply Hstd. apply in_combine_r in Hin. exact Hin. }
  destruct Hlast as [Hmed Hdev]. split; [exact Hmed|]. split; [exact Hdev|].
  intros k Hk. apply median_stds_loop_keys in Hk as [[]|(s & k' & Hin & Hk)].
  destruct (In_nth_error _ _ Hin) as (j & Hj).
  apply nth_error_combine in Hj as [Hc Hn].
  exists j. split; [|split].
  - assert (j < List.length cols)%nat by (apply nth_error_Some; congruence).
    unfold cols in *. rewrite length_map, length_seq in *. assumption.
  - apply nth_error_Some. congruence.
  - rewrite (nth_error_nth _ _ ""%string Hn). exact Hk.
Qed.

(** Two glitch epochs: the key holds the median of the second. *)
Lemma median_stds_of_repeated_key_witness :
  exists d,
    MCMCSearch.get_median_stds
      (Np.mk_array2 2 [[1; 7]; [2; 8]; [3; 9]])
      ["tglitch"; "tglitch"]%string = Return d /\
    PyDict.get "tglitch"%string d = Return (Np.median [7; 8; 9]) /\
    PyDict.get "tglitch_std"%string d = Return (Float.std [7; 8; 9]) /\
    (forall k, In k (PyDict.keys d) ->
       exists j, (j < 2)%nat /\ (j < 2)%nat /\
                 (k = nth j ["tglitch"; "tglitch"]%string ""%string \/
                  k = (nth j ["tglitch"; "tglitch"]%string "" ++ "_std")%string)).
Proof.
  apply (median_stds_of_repeated_key
           (Np.mk_array2 2 [[1; 7]; [2; 8]; [3; 9]])
           ["tglitch"; "tglitch"]%string 1).
  - repeat constructor.
  - simpl. lia.
  - simpl. lia.
  - simpl. intros j Hj. lia.
  - simpl. intros k [<-|[<-|[]]]; split; discriminate.
Defined.

End Summaries.

(** ** The keys of the summary by the maximum *)

Section ReportedKeys.
Import MCMCSearch.
Local Open Scope R_scope.

Lemma dict_mem_In (V : Type) key (d : PyDict.t V) :
  PyDict.mem key d = true <-> In key (PyDict.keys d).
Proof. unfold PyDict.mem. apply mem_In. Qed.

(** One turn of the loop keeps the keys the dictionary has. *)
Lemma max_twoF_loop_step strict samples jmax close_idxs base_key keys i d r :
  max_twoF_loop strict samples jmax close_idxs (base_key :: keys) i d
  = Return r ->
  exists k d2,
    report_key d base_key = Return k /\
    (forall key, In key (PyDict.keys d2) <->
                 key = (k ++ "_std")%string \/ key = k \/
                 In key (PyDict.keys d)) /\
    max_twoF_loop strict samples jmax close_idxs keys (S i) d2 = Return r.
Proof.
  cbn [max_twoF_loop]. intros H.
  apply bind_Return_inv in H as (k & Hk & H).
  apply bind_Return_inv in H as (row & _ & H).
  apply bind_Return_inv in H as (v & _ & H).
  apply bind_Return_inv in H as (col & _ & H).
  apply bind_Return_inv in H as (s & _ & H).
  exists k. eexists. split; [exact Hk|]. split; [|exact H].
  intros key. rewrite !keys_set_In. tauto.
Qed.

Lemma stuck_with_both strict samples jmax close_idxs k keys :
  forall i d r,
    In k (PyDict.keys d) ->
    In (k ++ "_1")%string (PyDict.keys d) ->
    In k keys ->
    max_twoF_loop strict samples jmax close_idxs keys i d <> Return r.
Proof.
  induction keys as [|base_key keys IH]; intros i d r Hk Hk1 Hin H;
    [destruct Hin|].
  apply max_twoF_loop_step in H as (k' & d2 & Hrep & Hd2 & H).
  destruct (string_dec base_key k) as [->|Hne].
  - unfold report_key in Hrep.
    rewrite (proj2 (dict_mem_In _ k d) Hk) in Hrep.
    rewrite (proj2 (dict_mem_In _ _ d) Hk1) in Hrep. discriminate.
  - destruct Hin as [E|Hin]; [congruence|].
    apply (IH (S i) d2 r); try assumption; apply Hd2; auto.
Qed.

Lemma stuck_with_one strict samples jmax close_idxs k keys :
  forall i d r,
    In k (PyDict.keys d) ->
    (2 <= count_occ string_dec keys k)%nat ->
    max_twoF_loop strict samples jmax close_idxs keys i d <> Return r.
Proof.
  induction keys as [|base_key keys IH]; intros i d r Hk Hc H;
    [simpl in Hc; lia|].
  apply max_twoF_loop_step in H as (k' & d2 & Hrep & Hd2 & H).
  simpl in Hc. destruct (string_dec base_key k) as [->|Hne].
  - unfold report_key in Hrep.
    rewrite (proj2 (dict_mem_In _ k d) Hk) in Hrep.
    destruct (PyDict.mem (k ++ "_1") d); [discriminate|].
    injection Hrep as <-.
    apply (stuck_with_both strict samples jmax close_idxs k keys (S i) d2 r);
      try (apply Hd2; auto); [|exact H].
    apply (count_occ_In string_dec). lia.
  - apply (IH (S i) d2 r); [apply Hd2; auto|lia|exact H].
Qed.

Lemma stuck_with_none strict samples jmax close_idxs k keys :
  forall i d r,
    (3 <= count_occ string_dec keys k)%nat ->
    max_twoF_loop strict samples jmax close_idxs keys i d <> Return r.
Proof.
  induction keys as [|base_key keys IH]; intros i d r Hc H;
    [simpl in Hc; lia|].
  destruct (in_dec string_dec k (PyDict.keys d)) as [Hk|Hk].
  - apply (stuck_with_one strict samples jmax close_idxs k
             (base_key :: keys) i d r Hk); [lia|exact H].
  - apply max_twoF_loop_step in H as (k' & d2 & Hrep & Hd2 & H).
    simpl in Hc. destruct (string_dec base_key k) as [->|Hne].
    + unfold report_key in Hrep.
      destruct (PyDict.mem k d) eqn:Hm;
        [apply dict_mem_In in Hm; contradiction|].
      injection Hrep as <-.
      apply (stuck_with_one strict samples jmax close_idxs k keys (S i) d2 r);
        [apply Hd2; auto|lia|exact H].
    + apply (IH (S i) d2 r); [lia|exact H].
Qed.

(** X17. With a key that occurs three times among [theta_keys], as in a
    search for three glitches, [get_max_twoF] does not return: the
    replacement key is the same at every turn of the inner loop. *)
Theorem get_max_twoF_three_glitches_never_returns
  (strict : bool) (lnlikes : list fval) (samples : list (list R))
  (theta_keys : list string) (threshold : R) (key : string) :
  (3 <= count_occ string_dec theta_keys key)%nat ->
  forall r,
    get_max_twoF strict lnlikes samples theta_keys threshold <> Return r.
Proof.
  intros Hc [d v] H. unfold get_max_twoF in H.
  apply bind_Return_inv in H as (jmax & _ & H).
  apply bind_Return_inv in H as (maxtwoF & _ & H).
  apply bind_Return_inv in H as (d' & Hloop & _).
  exact (stuck_with_none _ _ _ _ key theta_keys _ _ _ Hc Hloop).
Qed.

(** Three glitches with free epochs. *)
Lemma get_max_twoF_three_glitches_never_returns_witness :
  get_max_twoF false [Fin 1] [[1; 2; 3; 4]]
    ["F0"; "tglitch"; "tglitch"; "tglitch"]%string 0.05
  = Unfinished.
Proof.
  pose proof (get_max_twoF_three_glitches_never_returns false [Fin 1]
                [[1; 2; 3; 4]] ["F0"; "tglitch"; "tglitch"; "tglitch"]%string
                0.05 "tglitch"%string ltac:(simpl; lia)) as H.
  destruct (get_max_twoF false [Fin 1] [[1; 2; 3; 4]]
              ["F0"; "tglitch"; "tglitch"; "tglitch"]%string 0.05)
    as [r|e|] eqn:E.
  - destruct (H r eq_refl).
  - exfalso. revert E. unfold get_max_twoF.
    cbv -[IZR Rplus Rmult Rminus Ropp Rdiv Rinv PI pow INR sqrt Rabs
          Rlt_dec Rle_dec Req_dec_T].
    discriminate.
  - reflexivity.
Defined.

(** X18. Without a finite log-likelihood there is no maximum:
    [get_max_twoF] raises. *)
Theorem get_max_twoF_without_finite_values
  (strict : bool) (lnlikes : list fval) (samples : list (list R))
  (theta_keys : list string) (threshold : R) :
  Forall (fun a => Float.isfinite a = false) lnlikes ->
  get_max_twoF strict lnlikes samples theta_keys threshold
  = Raise ValueError_empty.
Proof.
  intros Hall. unfold get_max_twoF.
  assert (Hfin : finite_values lnlikes = []).
  { unfold finite_values. induction Hall as [|a l Ha _ IH]; simpl;
      [reflexivity|].
    rewrite IH. destruct a; simpl in Ha; try discriminate; reflexivity. }
  rewrite Hfin. reflexivity.
Qed.

(** Two samples, neither with a finite log-likelihood. *)
Lemma get_max_twoF_without_finite_values_witness :
  get_max_twoF false [NegInf; NaN] [[1]; [2]] ["F0"%string] 0.05
  = Raise ValueError_empty.
Proof.
  apply (get_max_twoF_without_finite_values false [NegInf; NaN] [[1]; [2]]
           ["F0"%string] 0.05).
  repeat constructor.
Defined.

End ReportedKeys.

(** ** The maximum of finite log-likelihoods *)

Section FiniteMaximum.
Import MCMCSearch.
Local Open Scope R_scope.

Lemma argmax_from_first l :
  forall best vbest i,
    let j := argmax_from best vbest i l in
    (j = best /\ forall x, In x l -> x <= vbest) \/
    (exists k m, j = (i + k)%nat /\ nth_error l k = Some m /\
                 vbest < m /\ (forall x, In x l -> x <= m) /\
                 (forall k' y, (k' < k)%nat -> nth_error l k' = Some y ->
                               y < m)).
Proof.
  induction l as [|x l IH]; intros best vbest i; simpl.
  - left. split; [reflexivity|]. intros x [].
  - unfold Float.Rltb. destruct (Rlt_dec vbest x) as [Hlt|Hge].
    + right.
      destruct (IH i x (S i))
        as [[Hj Hmax]|(k & m & Hj & Hn & Hm & Hmax & Hfirst)].
      * exists 0%nat, x. rewrite Hj. repeat split.
        -- lia.
        -- exact Hlt.
        -- intros y [<-|Hy]; [lra|auto].
        -- intros k' y Hk. lia.
      * exists (S k), m. rewrite Hj. repeat split.
        -- lia.
        -- exact Hn.
        -- lra.
        -- intros y [<-|Hy]; [lra|auto].
        -- intros [|k'] y Hk Hy; simpl in Hy.
           ++ injection Hy as <-. exact Hm.
           ++ apply (Hfirst k' y); [lia|exact Hy].
    + destruct (IH best vbest (S i))
        as [[Hj Hmax]|(k & m & Hj & Hn & Hm & Hmax & Hfirst)].
      * left. split; [exact Hj|]. intros y [<-|Hy]; [lra|auto].
      * right. exists (S k), m. rewrite Hj. repeat split.
        -- lia.
        -- exact Hn.
        -- exact Hm.
        -- intros y [<-|Hy]; [lra|auto].
        -- intros [|k'] y Hk Hy; simpl in Hy.
           ++ injection Hy as <-. lra.
           ++ apply (Hfirst k' y); [lia|exact Hy].
Qed.

Lemma nanargmax_first l :
  l <> [] ->
  exists j m,
    nanargmax l = Return j /\ nth_error l j = Some m /\
    (forall x, In x l -> x <= m) /\
    (forall j' y, (j' < j)%nat -> nth_error l j' = Some y -> y < m).
Proof.
  destruct l as [|x l]; [congruence|]. intros _. simpl.
  destruct (argmax_from_first l 0%nat x 1%nat)
    as [[Hj Hmax]|(k & m & Hj & Hn & Hm & Hmax & Hfirst)].
  - exists 0%nat, x. rewrite Hj. repeat split.
    + intros y [<-|Hy]; [lra|auto].
    + intros j' y Hj'. lia.
  - exists (S k), m. rewrite Hj. repeat split.
    + exact Hn.
    + intros y [<-|Hy]; [lra|auto].
    + intros [|j'] y Hj' Hy; simpl in Hy.
      * injection Hy as <-. exact Hm.
      * apply (Hfirst j' y); [lia|exact Hy].
Qed.

Lemma select_same_length (A : Type) strict (mask : list bool) (a : list A) :
  List.length mask = List.length a ->
  Np.select strict mask a
  = Return (map snd (filter (fun p => fst p) (combine mask a))).
Proof.
  intros H. unfold Np.select. rewrite H, Nat.eqb_refl, andb_false_r.
  reflexivity.
Qed.

(** The loop over keys that are not yet in the dictionary. *)
Lemma max_twoF_loop_fresh_keys strict (samples : list (list R)) jmax
  (close_idxs : list bool) (row : list R) :
  nth_error samples jmax = Some row ->
  List.length close_idxs = List.length samples ->
  forall keys i d,
    NoDup keys ->
    (forall k, In k keys -> ~ In k (PyDict.keys d)) ->
    (forall k k', In k keys -> In k' keys -> k <> (k' ++ "_std")%string) ->
    Forall (fun r => (i + List.length keys <= List.length r)%nat) samples ->
    exists d',
      max_twoF_loop strict samples jmax close_idxs keys i d = Return d' /\
      (forall m, (m < List.length keys)%nat ->
                 PyDict.get (nth m keys ""%string) d'
                 = Return (Fin (nth (i + m) row 0))) /\
      (forall k, ~ In k keys ->
                 (forall k', In k' keys -> k <> (k' ++ "_std")%string) ->
                 PyDict.get k d' = PyDict.get k d).
Proof.
  intros Hrow Hmask.
  induction keys as [|base keys IH]; intros i d Hnd Hfresh Hstd Hrows.
  - exists d. simpl. repeat split; intros; lia.
  - inversion Hnd as [|? ? Hnin Hnd']; subst.
    cbn [max_twoF_loop].
    assert (Hrep : report_key d base = Return base).
    { unfold report_key. destruct (PyDict.mem base d) eqn:Hm;
        [|reflexivity].
      apply dict_mem_In in Hm. destruct (Hfresh base (or_introl eq_refl) Hm). }
    rewrite Hrep. cbn [bind]. unfold PyList.get at 1. rewrite Hrow.
    cbn [bind].
    assert (Hi : (i < List.length row)%nat).
    { rewrite Forall_forall in Hrows.
      specialize (Hrows row (nth_error_In _ _ Hrow)). simpl in Hrows. lia. }
    rewrite (get_in_range _ row i 0 Hi). cbn [bind].
    rewrite (mapM_total _ _ (fun r => PyList.get r i) (fun r => nth i r 0)).
    2: { intros r Hr. apply get_in_range.
         rewrite Forall_forall in Hrows. specialize (Hrows r Hr).
         simpl in Hrows. lia. }
    cbn [bind]. rewrite select_same_length
      by (rewrite length_map; exact Hmask).
    cbn [bind].
    match goal with
    | |- exists d', max_twoF_loop _ _ _ _ _ _ ?D2 = _ /\ _ =>
        destruct (IH (S i) D2 Hnd') as (d' & Hrun & Hvals & Hother)
    end.
    + intros k Hk Hin. apply keys_set_In in Hin as [E|Hin].
      * apply (Hstd k base); [right; exact Hk|left; reflexivity|exact E].
      * apply keys_set_In in Hin as [E|Hin].
        -- subst k. contradiction.
        -- apply (Hfresh k); [right; exact Hk|exact Hin].
    + intros k k' Hk Hk'. apply Hstd; right; assumption.
    + eapply Forall_impl; [|exact Hrows]. intros r Hr. simpl in Hr. lia.
    + exists d'. split; [exact Hrun|]. split.
      * intros [|m] Hm.
        -- simpl nth. rewrite Hother.
           ++ rewrite get_set_other
                by (intros E; exact (std_key_differs base (eq_sym E))).
              rewrite get_set_same, Nat.add_0_r. reflexivity.
           ++ exact Hnin.
           ++ intros k' Hk'. apply Hstd; [left; reflexivity|right; exact Hk'].
        -- simpl nth. rewrite Hvals by (simpl in Hm; lia).
           do 3 f_equal. lia.
      * intros k Hk Hkstd. rewrite Hother.
        -- rewrite get_set_other
             by (apply Hkstd; left; reflexivity).
           apply get_set_other. intros ->. apply Hk. left. reflexivity.
        -- intros Hin. apply Hk. right. exact Hin.
        -- intros k' Hk'. apply Hkstd. right. exact Hk'.
Qed.

(** X16. When every log-likelihood is finite and the keys are distinct,
    [get_max_twoF] returns the largest log-likelihood, and the
    dictionary holds under every key the coordinate of the first sample
    that has it. *)
Theorem get_max_twoF_of_finite_values (strict : bool) (xs : list R)
  (samples : list (list R)) (theta_keys : list string) (threshold : R) :
  xs <> [] ->
  List.length samples = List.length xs ->
  Forall (fun r => (List.length theta_keys <= List.length r)%nat) samples ->
  NoDup theta_keys ->
  (forall k k', In k theta_keys -> In k' theta_keys ->
                k <> (k' ++ "_std")%string) ->
  exists jmax d,
    get_max_twoF strict (map Fin xs) samples theta_keys threshold
    = Return (d, Fin (nth jmax xs 0)) /\
    (jmax < List.length xs)%nat /\
    (forall j, (j < List.length xs)%nat -> nth j xs 0 <= nth jmax xs 0) /\
    (forall j, (j < jmax)%nat -> nth j xs 0 < nth jmax xs 0) /\
    (forall i, (i < List.length theta_keys)%nat ->
               PyDict.get (nth i theta_keys ""%string) d
               = Return (Fin (nth i (nth jmax samples []) 0))).
Proof.
  intros Hne Hlen Hrows Hnd Hstd.
  destruct (nanargmax_first xs Hne) as (jmax & m & Hj & Hm & Hmax & Hfirst).
  assert (Hjlt : (jmax < List.length xs)%nat)
    by (apply nth_error_Some; congruence).
  assert (Hnth : nth jmax xs 0 = m) by (apply nth_error_nth; exact Hm).
  assert (Hrow : nth_error samples jmax = Some (nth jmax samples []))
    by (apply nth_error_nth'; lia).
  unfold get_max_twoF. rewrite finite_values_Fin, Hj. cbn [bind].
  unfold PyList.get at 1. rewrite nth_error_map, Hm. cbn [option_map bind].
  match goal with
  | |- exists jmax0 d, bind (max_twoF_loop _ _ _ ?C _ _ _) _ = _ /\ _ =>
      destruct (max_twoF_loop_fresh_keys strict samples jmax C
                  (nth jmax samples []) Hrow
                  ltac:(rewrite length_map; symmetry; exact Hlen)
                  theta_keys 0%nat [] Hnd)
        as (d & Hrun & Hvals & _)
  end.
  - intros k _ [].
  - exact Hstd.
  - exact Hrows.
  - exists jmax, d. rewrite Hrun. cbn [bind]. rewrite Hnth.
    split; [reflexivity|]. split; [exact Hjlt|]. split; [|split].
    + intros j Hjl. apply Hmax, nth_In. exact Hjl.
    + intros j Hjl. apply (Hfirst j); [exact Hjl|].
      apply nth_error_nth'. lia.
    + exact Hvals.
Qed.

(** Three samples, the last two with the largest log-likelihood. *)
Lemma get_max_twoF_of_finite_values_witness :
  exists jmax d,
    get_max_twoF false (map Fin [1; 5; 5]) [[10]; [20]; [30]]
      ["F0"%string] 0.05
    = Return (d, Fin (nth jmax [1; 5; 5] 0)) /\
    (jmax < 3)%nat /\
    (forall j, (j < 3)%nat -> nth j [1; 5; 5] 0 <= nth jmax [1; 5; 5] 0) /\
    (forall j, (j < jmax)%nat -> nth j [1; 5; 5] 0 < nth jmax [1; 5; 5] 0) /\
    (forall i, (i < 1)%nat ->
               PyDict.get (nth i ["F0"%string] ""%string) d
               = Return (Fin (nth i (nth jmax [[10]; [20]; [30]] []) 0))).
Proof.
  apply (get_max_twoF_of_finite_values false [1; 5; 5] [[10]; [20]; [30]]
           ["F0"%string] 0.05).
  - discriminate.
  - reflexivity.
  - repeat (constructor; [simpl; lia|]). constructor.
  - repeat (constructor; [simpl; intuition discriminate|]). constructor.
  - intros k k' [<-|[]] [<-|[]]. discriminate.
Defined.

End FiniteMaximum.

(** ** The run over the grid *)

Section GridRun.
Import GridSearch.
Local Open Scope R_scope.

Variable Results : Type.
Variable lal_ComputeFstat : ComputeFstat.doppler -> Results.
Variable lal_twoF : Results -> R.
Variable lal_F_mn : Results -> Z -> Z -> R.

Let row (orbit : ComputeFstat.doppler) (vals : list R) : list R :=
  vals ++ [lal_twoF (lal_ComputeFstat (grid_point orbit vals))].

Lemma run_loop_keeps_table (write_after : Z) (orbit : ComputeFstat.doppler)
  (rows : list (list R)) :
  (0 <= write_after)%Z ->
  Forall (fun vals => List.length vals = 7%nat) rows ->
  forall p data writes,
    (forall vals, grid_point p vals = grid_point orbit vals) ->
    exists p',
      run_loop lal_ComputeFstat lal_twoF lal_F_mn write_after rows
        (ComputeFstat.mk false false p) 0 data writes
      = Return (ComputeFstat.mk false false p',
                data ++ map (row orbit) rows, writes).
Proof.
  intros Hwa Hrows. induction Hrows as [|vals rows Hlen _ IH];
    intros p data writes Hp.
  - exists p. simpl. rewrite app_nil_r. reflexivity.
  - cbn [run_loop].
    rewrite (run_star_not_transient Results lal_ComputeFstat lal_twoF
               lal_F_mn p vals) by lia.
    cbv zeta. fold (grid_point p vals). rewrite Hp.
    replace (write_after <? 0)%Z with false
      by (symmetry; apply Z.ltb_ge; exact Hwa).
    destruct (IH (grid_point orbit vals)
                (data ++ [vals ++ [lal_twoF (lal_ComputeFstat
                                               (grid_point orbit vals))]])
                writes) as (p' & ->); [reflexivity|].
    exists p'. simpl map. rewrite <- app_assoc. reflexivity.
Qed.

Lemma run_loop_writes_each_row (write_after : Z)
  (orbit : ComputeFstat.doppler) (rows : list (list R)) :
  (write_after < 0)%Z ->
  Forall (fun vals => List.length vals = 7%nat) rows ->
  forall p writes,
    (forall vals, grid_point p vals = grid_point orbit vals) ->
    exists p',
      run_loop lal_ComputeFstat lal_twoF lal_F_mn write_after rows
        (ComputeFstat.mk false false p) 0 [] writes
      = Return (ComputeFstat.mk false false p', [],
                rev (map (fun vals => [row orbit vals]) rows) ++ writes).
Proof.
  intros Hwa Hrows. induction Hrows as [|vals rows Hlen _ IH];
    intros p writes Hp.
  - exists p. reflexivity.
  - cbn [run_loop].
    rewrite (run_star_not_transient Results lal_ComputeFstat lal_twoF
               lal_F_mn p vals) by lia.
    cbv zeta. fold (grid_point p vals). rewrite Hp.
    replace (write_after <? 0)%Z with true
      by (symmetry; apply Z.ltb_lt; exact Hwa).
    destruct (IH (grid_point orbit vals)
                (([] ++ [vals ++ [lal_twoF (lal_ComputeFstat
                                              (grid_point orbit vals))]])
                 :: writes)) as (p' & ->); [reflexivity|].
    exists p'. simpl map. simpl rev. rewrite <- app_assoc. reflexivity.
Qed.

Lemma grid_rows_have_seven_values (self : GridSearch.t) arrays rows :
  get_input_data_array self = Return (arrays, rows) ->
  Forall (fun vals => List.length vals = 7%nat) rows.
Proof.
  unfold get_input_data_array. intros H.
  apply bind_Return_inv in H as (arrays' & Ha & H).
  injection H as <- <-.
  apply mapM_Return_length in Ha. simpl in Ha.
  apply Forall_forall. intros vals Hin. apply product_In in Hin.
  apply Forall2_length in Hin. lia.
Qed.

(** The rows of the grid as real numbers have seven values as well. *)
Lemma real_rows_have_seven_values (self : GridSearch.t) arrays frows
  (rows : list (list R)) :
  get_input_data_array self = Return (arrays, frows) ->
  Forall2 (Forall2 Binary64.denotes) frows rows ->
  Forall (fun vals => List.length vals = 7%nat) rows.
Proof.
  intros Hgrid Hrows.
  pose proof (grid_rows_have_seven_values self arrays frows Hgrid) as Hseven.
  clear Hgrid. revert Hseven.
  induction Hrows as [|fvals vals frows' rows' Hvals _ IH]; intros Hseven;
    constructor.
  - inversion Hseven as [|? ? H7 _]; subst.
    apply Forall2_length in Hvals. lia.
  - apply IH. inversion Hseven as [|? ? _ Hrest]; subst. exact Hrest.
Qed.

(** X20. With a [write_after] that is not negative, [run] of the grid
    search writes once, after the loop: the table has a row for every
    point of the grid, the point followed by lalpulsar's [twoF] at its
    frequency, derivatives and sky position.  The counter of the loop is
    never increased. *)
Theorem grid_run_writes_the_table_once (self : GridSearch.t)
  (fresh : ComputeFstat.doppler) (write_after : Z)
  (arrays frows : list (list PrimFloat.float)) (rows : list (list R)) :
  (0 <= write_after)%Z ->
  get_input_data_array self = Return (arrays, frows) ->
  Forall2 (Forall2 Binary64.denotes) frows rows ->
  let data :=
    map (fun vals =>
           vals ++ [lal_twoF (lal_ComputeFstat (grid_point fresh vals))])
        rows in
  exists search',
    run_search lal_ComputeFstat lal_twoF lal_F_mn write_after rows
      (ComputeFstat.__init__ false false fresh)
    = Return (search', data, [data]).
Proof.
  intros Hwa Hgrid Hreal data.
  pose proof (real_rows_have_seven_values self arrays frows rows Hgrid Hreal)
    as Hrows.
  unfold run_search, ComputeFstat.__init__.
  destruct (run_loop_keeps_table write_after fresh rows Hwa Hrows
              (ComputeFstat.mk_doppler [0; 0; 0; 0; 0; 0; 0] 1 1
                 (ComputeFstat.asini fresh) (ComputeFstat.period fresh)
                 (ComputeFstat.ecc fresh) (ComputeFstat.tp fresh)
                 (ComputeFstat.argp fresh)) [] [])
    as (p' & ->); [reflexivity|].
  eexists. reflexivity.
Qed.

(** X21. With a negative [write_after], [run] writes every row by itself
    over the one before, then an empty table; [self.data] is empty. *)
Theorem grid_run_negative_write_after (self : GridSearch.t)
  (fresh : ComputeFstat.doppler) (write_after : Z)
  (arrays frows : list (list PrimFloat.float)) (rows : list (list R)) :
  (write_after < 0)%Z ->
  get_input_data_array self = Return (arrays, frows) ->
  Forall2 (Forall2 Binary64.denotes) frows rows ->
  exists search',
    run_search lal_ComputeFstat lal_twoF lal_F_mn write_after rows
      (ComputeFstat.__init__ false false fresh)
    = Return (search', [],
              [] :: rev (map (fun vals =>
                                [vals ++ [lal_twoF (lal_ComputeFstat
                                                      (grid_point fresh vals))]])
                             rows)).
Proof.
  intros Hwa Hgrid Hreal.
  pose proof (real_rows_have_seven_values self arrays frows rows Hgrid Hreal)
    as Hrows.
  unfold run_search, ComputeFstat.__init__.
  destruct (run_loop_writes_each_row write_after fresh rows Hwa Hrows
              (ComputeFstat.mk_doppler [0; 0; 0; 0; 0; 0; 0] 1 1
                 (ComputeFstat.asini fresh) (ComputeFstat.period fresh)
                 (ComputeFstat.ecc fresh) (ComputeFstat.tp fresh)
                 (ComputeFstat.argp fresh)) [])
    as (p' & ->); [reflexivity|].
  eexists. simpl bind. rewrite app_nil_r. reflexivity.
Qed.

End GridRun.

Section GridRunExamples.
Import PrimFloat.

(** A grid of one point. *)
Lemma grid_run_writes_the_table_once_witness :
  exists search',
    GridSearch.run_search (fun p => p)
      (fun p => nth 0 (ComputeFstat.fkdot p) 0%R) (fun _ _ _ => 0%R) 1000
      [[0; 1; 30; 0; 0; 0; 0]]%R
      (ComputeFstat.__init__ false false
         (ComputeFstat.mk_doppler [] 0 0 0 0 0 0 0))
    = Return (search', [[0; 1; 30; 0; 0; 0; 0; 30]]%R,
              [[[0; 1; 30; 0; 0; 0; 0; 30]]%R]).
Proof.
  apply (grid_run_writes_the_table_once ComputeFstat.doppler (fun p => p)
           (fun p => nth 0 (ComputeFstat.fkdot p) 0%R) (fun _ _ _ => 0%R)
           GridExamples.one_point
           (ComputeFstat.mk_doppler [] 0 0 0 0 0 0 0)%R 1000
           [[0]; [1]; [30]; [0]; [0]; [0]; [0]]%float
           [[0; 1; 30; 0; 0; 0; 0]]%float
           [[0; 1; 30; 0; 0; 0; 0]]%R).
  - lia.
  - vm_compute. reflexivity.
  - repeat constructor;
      unfold Binary64.denotes, Binary64.to_real;
      cbv -[IZR Rdiv]; f_equal; lra.
Defined.

(** A grid of one point, with [write_after = -1]. *)
Lemma grid_run_negative_write_after_witness :
  exists search',
    GridSearch.run_search (fun p => p)
      (fun p => nth 0 (ComputeFstat.fkdot p) 0%R) (fun _ _ _ => 0%R) (-1)
      [[0; 1; 30; 0; 0; 0; 0]]%R
      (ComputeFstat.__init__ false false
         (ComputeFstat.mk_doppler [] 0 0 0 0 0 0 0))
    = Return (search', [], [[]; [[0; 1; 30; 0; 0; 0; 0; 30]%R]]).
Proof.
  apply (grid_run_negative_write_after ComputeFstat.doppler (fun p => p)
           (fun p => nth 0 (ComputeFstat.fkdot p) 0%R) (fun _ _ _ => 0%R)
           GridExamples.one_point
           (ComputeFstat.mk_doppler [] 0 0 0 0 0 0 0)%R (-1)
           [[0]; [1]; [30]; [0]; [0]; [0]; [0]]%float
           [[0; 1; 30; 0; 0; 0; 0]]%float
           [[0; 1; 30; 0; 0; 0; 0]]%R).
  - lia.
  - vm_compute. reflexivity.
  - repeat constructor;
      unfold Binary64.denotes, Binary64.to_real;
      cbv -[IZR Rdiv]; f_equal; lra.
Defined.

End GridRunExamples.

